(** * Learning Production Engine: pipeline orchestration core

    A shallow embedding of the orchestration services of the repository
    (src/services/orchestrator.ts, src/services/collections/*.ts and the
    lesson-generation services), of the URL patterns of
    src/services/sources and of the route handlers that start the
    pipelines, over an explicit model of the Supabase store, followed by
    the properties of the specification that concern them and by further
    properties of the code.

    The store is a record of tables (lists of rows, in insertion order).
    Every statement sent to the store takes one tick of the clock and may
    be refused: the [World] carries, besides the results of the external
    services, a fault oracle telling which statements fail and with which
    message.  Service code runs in a state-and-exception monad. *)

From Stdlib Require Import List String Bool Arith ZArith Lia DecimalString.
Import ListNotations.
Open Scope string_scope.
Open Scope list_scope.

Set Implicit Arguments.

(** Template strings: [`${a}${b}`]. *)
Notation "a +++ b" := (String.append a b) (at level 60, right associativity).

(** The double quote character, as a string. *)
Definition dquote : string := String (Ascii.ascii_of_nat 34) EmptyString.

(** ** Data model *)

Definition uuid := nat.
Definition timestamp := nat.
(** JSON payloads that the services only pass along. *)
Definition json := string.

(** sourceType: 'youtube' | 'pdf' | 'pptx' *)
Inductive SourceType := youtube | pdf | pptx.

(** sources.status *)
Inductive SourceStatus := SrcPending | SrcProcessing | SrcCompleted | SrcFailed.

(** source_collections.status *)
Inductive CollectionStatus := ColBuilding | ColAnalyzing | ColReady | ColFailed.

(** courses.status *)
Inductive CourseStatus := CourseDraft | CourseReview | CoursePublished | CourseArchived.

Inductive ObjectiveType := terminal | enabling.

Inductive BloomsLevel := remember | understand | apply_level | analyze | evaluate | create.

Definition SourceStatus_eqb (a b : SourceStatus) : bool :=
  match a, b with
  | SrcPending, SrcPending | SrcProcessing, SrcProcessing
  | SrcCompleted, SrcCompleted | SrcFailed, SrcFailed => true
  | _, _ => false
  end.

Definition ObjectiveType_eqb (a b : ObjectiveType) : bool :=
  match a, b with
  | terminal, terminal | enabling, enabling => true
  | _, _ => false
  end.

(** *** The generated lesson tree (types/lessons.ts, GeneratedLesson) *)

Record LessonActivity := {
  instructionMethod : string;
  activity_description : string;
  activity_duration : string;
  resources : string
}.

Record LessonObjective := {
  objective_kind : ObjectiveType;       (* type *)
  content : string;
  bloomsLevel : BloomsLevel;
  sourceIds : list uuid;                (* tags asked of the collection variant *)
  activities : list LessonActivity
}.

Record LessonModule := {
  moduleNumber : Z;
  module_title : string;
  module_description : string;
  module_duration : string;
  objectives : list LessonObjective
}.

Record LessonCourse := {
  course_title : string;
  course_description : string;
  course_code : option string;
  iata_category : option string;
  total_duration_minutes : option nat
}.

Record LessonMetadata := {
  meta_collectionId : uuid;
  sourcesUsed : list uuid;
  meta_synthesisStrategy : string
}.

Record GeneratedLesson := {
  course : LessonCourse;
  lesson_modules : list LessonModule;   (* modules *)
  metadata : option LessonMetadata
}.

(** types/analysis.ts, SourceAnalysis as the services build it.  The
    wall-clock processing time and the floating-point cost estimate are
    bookkeeping columns and are left out. *)
Record SourceAnalysis := {
  sourceId : uuid;
  analysisData : json;
  modelUsed : string
}.

(** types/collections.ts, CrossSourceSynthesis: the strategy line is read
    by the lesson service, the rest is carried as it is. *)
Record CrossSourceSynthesis := {
  synthesisStrategy : string;
  synthesis_body : json
}.

(** A time in seconds with its fractional part, held as a whole number of
    thousandths of a second: the transcript service divides whole
    milliseconds by 1000. *)
Definition seconds := nat.

(** [ms / 1000] *)
Definition seconds_of_ms (ms : nat) : seconds := ms.

(** services/sources/transcriptService.ts, YouTubeTranscriptItem: what the
    youtube-transcript library hands over, times in milliseconds. *)
Record YouTubeTranscriptItem := {
  item_text : string;
  item_duration : nat;
  item_offset : nat
}.

(** types/sources.ts, TranscriptSegment, times in seconds. *)
Record TranscriptSegment := {
  seg_text : string;
  seg_start : seconds;
  seg_duration : seconds
}.

(** *** Rows *)

Record SourceRow := {
  src_id : uuid;
  src_organization_id : uuid;
  src_type : SourceType;
  src_url : string;
  src_title : string;
  src_status : SourceStatus;
  src_transcript : option (list TranscriptSegment);
  src_duration_seconds : option seconds;
  src_updated_at : timestamp
}.

Record AnalysisRow := {
  an_id : uuid;
  an_source_id : uuid;
  an_type : string;
  an_data : json;
  an_model_used : string;
  an_created_at : timestamp
}.

Record CollectionRow := {
  col_id : uuid;
  col_organization_id : uuid;
  col_title : string;
  col_status : CollectionStatus;
  col_analysis_completed_at : option timestamp
}.

Record CollectionSourceRow := {
  cs_id : uuid;
  cs_collection_id : uuid;
  cs_source_id : uuid;
  cs_order_index : Z
}.

Record CollectionAnalysisRow := {
  ca_id : uuid;
  ca_collection_id : uuid;
  ca_type : string;
  ca_data : CrossSourceSynthesis;
  ca_sources_analyzed : nat;
  ca_model_used : string;
  ca_created_at : timestamp
}.

Record CourseRow := {
  crs_id : uuid;
  crs_organization_id : uuid;
  crs_collection_id : option uuid;
  crs_title : string;
  crs_description : string;
  crs_course_code : option string;
  crs_iata_category : option string;
  crs_total_duration_minutes : option nat;
  crs_status : CourseStatus;
  crs_notebook_id : option (uuid * timestamp)
}.

Record ModuleRow := {
  mod_id : uuid;
  mod_course_id : uuid;
  mod_module_number : Z;
  mod_title : string;
  mod_description : string;
  mod_duration : string
}.

Record MappingRow := {
  map_id : uuid;
  map_source_id : uuid;
  map_module_id : uuid
}.

Record ObjectiveRow := {
  obj_id : uuid;
  obj_module_id : uuid;
  obj_objective_type : ObjectiveType;
  obj_content : string;
  obj_blooms_level : BloomsLevel;
  obj_order_index : nat
}.

Record ActivityRow := {
  act_id : uuid;
  act_learning_objective_id : uuid;
  act_instruction_method : string;
  act_description : string;
  act_duration : string;
  act_resources : string;
  act_order_index : nat
}.

(** *** The store, the id generator, the clock and the console *)

Record State : Type := mkState {
  sources : list SourceRow;
  source_analyses : list AnalysisRow;
  source_collections : list CollectionRow;
  collection_sources : list CollectionSourceRow;
  collection_analyses : list CollectionAnalysisRow;
  courses : list CourseRow;
  modules : list ModuleRow;
  lesson_source_mappings : list MappingRow;
  learning_objectives : list ObjectiveRow;
  learning_activities : list ActivityRow;
  next_id : uuid;
  clock : timestamp;
  console : list string
}.

Definition set_sources (f : list SourceRow -> list SourceRow) (s : State) : State :=
  {| sources := f (sources s); source_analyses := source_analyses s; source_collections :=
     source_collections s; collection_sources := collection_sources s; collection_analyses :=
     collection_analyses s; courses := courses s; modules := modules s; lesson_source_mappings :=
     lesson_source_mappings s; learning_objectives := learning_objectives s; learning_activities :=
     learning_activities s; next_id := next_id s; clock := clock s; console := console s |}.

Definition set_source_analyses (f : list AnalysisRow -> list AnalysisRow) (s : State) : State :=
  {| sources := sources s; source_analyses := f (source_analyses s); source_collections :=
     source_collections s; collection_sources := collection_sources s; collection_analyses :=
     collection_analyses s; courses := courses s; modules := modules s; lesson_source_mappings :=
     lesson_source_mappings s; learning_objectives := learning_objectives s; learning_activities :=
     learning_activities s; next_id := next_id s; clock := clock s; console := console s |}.

Definition set_source_collections (f : list CollectionRow -> list CollectionRow) (s : State) : State :=
  {| sources := sources s; source_analyses := source_analyses s; source_collections := f
     (source_collections s); collection_sources := collection_sources s; collection_analyses :=
     collection_analyses s; courses := courses s; modules := modules s; lesson_source_mappings :=
     lesson_source_mappings s; learning_objectives := learning_objectives s; learning_activities :=
     learning_activities s; next_id := next_id s; clock := clock s; console := console s |}.

Definition set_collection_sources (f : list CollectionSourceRow -> list CollectionSourceRow) (s : State) : State :=
  {| sources := sources s; source_analyses := source_analyses s; source_collections :=
     source_collections s; collection_sources := f (collection_sources s); collection_analyses :=
     collection_analyses s; courses := courses s; modules := modules s; lesson_source_mappings :=
     lesson_source_mappings s; learning_objectives := learning_objectives s; learning_activities :=
     learning_activities s; next_id := next_id s; clock := clock s; console := console s |}.

Definition set_collection_analyses (f : list CollectionAnalysisRow -> list CollectionAnalysisRow) (s : State) : State :=
  {| sources := sources s; source_analyses := source_analyses s; source_collections :=
     source_collections s; collection_sources := collection_sources s; collection_analyses := f
     (collection_analyses s); courses := courses s; modules := modules s; lesson_source_mappings :=
     lesson_source_mappings s; learning_objectives := learning_objectives s; learning_activities :=
     learning_activities s; next_id := next_id s; clock := clock s; console := console s |}.

Definition set_courses (f : list CourseRow -> list CourseRow) (s : State) : State :=
  {| sources := sources s; source_analyses := source_analyses s; source_collections :=
     source_collections s; collection_sources := collection_sources s; collection_analyses :=
     collection_analyses s; courses := f (courses s); modules := modules s; lesson_source_mappings
     := lesson_source_mappings s; learning_objectives := learning_objectives s; learning_activities
     := learning_activities s; next_id := next_id s; clock := clock s; console := console s |}.

Definition set_modules (f : list ModuleRow -> list ModuleRow) (s : State) : State :=
  {| sources := sources s; source_analyses := source_analyses s; source_collections :=
     source_collections s; collection_sources := collection_sources s; collection_analyses :=
     collection_analyses s; courses := courses s; modules := f (modules s); lesson_source_mappings
     := lesson_source_mappings s; learning_objectives := learning_objectives s; learning_activities
     := learning_activities s; next_id := next_id s; clock := clock s; console := console s |}.

Definition set_lesson_source_mappings (f : list MappingRow -> list MappingRow) (s : State) : State :=
  {| sources := sources s; source_analyses := source_analyses s; source_collections :=
     source_collections s; collection_sources := collection_sources s; collection_analyses :=
     collection_analyses s; courses := courses s; modules := modules s; lesson_source_mappings := f
     (lesson_source_mappings s); learning_objectives := learning_objectives s; learning_activities
     := learning_activities s; next_id := next_id s; clock := clock s; console := console s |}.

Definition set_learning_objectives (f : list ObjectiveRow -> list ObjectiveRow) (s : State) : State :=
  {| sources := sources s; source_analyses := source_analyses s; source_collections :=
     source_collections s; collection_sources := collection_sources s; collection_analyses :=
     collection_analyses s; courses := courses s; modules := modules s; lesson_source_mappings :=
     lesson_source_mappings s; learning_objectives := f (learning_objectives s); learning_activities
     := learning_activities s; next_id := next_id s; clock := clock s; console := console s |}.

Definition set_learning_activities (f : list ActivityRow -> list ActivityRow) (s : State) : State :=
  {| sources := sources s; source_analyses := source_analyses s; source_collections :=
     source_collections s; collection_sources := collection_sources s; collection_analyses :=
     collection_analyses s; courses := courses s; modules := modules s; lesson_source_mappings :=
     lesson_source_mappings s; learning_objectives := learning_objectives s; learning_activities :=
     f (learning_activities s); next_id := next_id s; clock := clock s; console := console s |}.

Definition set_next_id (f : uuid -> uuid) (s : State) : State :=
  {| sources := sources s; source_analyses := source_analyses s; source_collections :=
     source_collections s; collection_sources := collection_sources s; collection_analyses :=
     collection_analyses s; courses := courses s; modules := modules s; lesson_source_mappings :=
     lesson_source_mappings s; learning_objectives := learning_objectives s; learning_activities :=
     learning_activities s; next_id := f (next_id s); clock := clock s; console := console s |}.

Definition set_clock (f : timestamp -> timestamp) (s : State) : State :=
  {| sources := sources s; source_analyses := source_analyses s; source_collections :=
     source_collections s; collection_sources := collection_sources s; collection_analyses :=
     collection_analyses s; courses := courses s; modules := modules s; lesson_source_mappings :=
     lesson_source_mappings s; learning_objectives := learning_objectives s; learning_activities :=
     learning_activities s; next_id := next_id s; clock := f (clock s); console := console s |}.

Definition set_console (f : list string -> list string) (s : State) : State :=
  {| sources := sources s; source_analyses := source_analyses s; source_collections :=
     source_collections s; collection_sources := collection_sources s; collection_analyses :=
     collection_analyses s; courses := courses s; modules := modules s; lesson_source_mappings :=
     lesson_source_mappings s; learning_objectives := learning_objectives s; learning_activities :=
     learning_activities s; next_id := next_id s; clock := clock s; console := f (console s) |}.
Definition emptyState : State :=
  mkState [] [] [] [] [] [] [] [] [] [] 0 0 [].

(** ** Errors, results and the service monad *)

(** What a [catch] can receive: an [Error] object thrown by the services
    themselves, or the error object of a refused store statement, which
    the collection services throw as it is. *)
Inductive exn := JsError (message : string) | PgError (message : string).

Inductive Result (A : Type) := Ok (a : A) | Err (e : exn).
Arguments Ok {A} a.
Arguments Err {A} e.

(** [JSON.stringify(error)] of an answer's error object.  The object is
    modelled by its message, the one field the services read, so this is the
    JSON text of [{ message }]; the fields details, hint and code of a
    database error, and the escaping of the message, are not modelled. *)
Definition JSON_stringify_error (m : string) : string :=
  "{" +++ dquote +++ "message" +++ dquote +++ ":" +++ dquote +++ m +++ dquote +++ "}".

(** [error instanceof Error ? error.message : JSON.stringify(error)] *)
Definition error_message (e : exn) : string :=
  match e with
  | JsError m => m
  | PgError m => JSON_stringify_error m
  end.

Definition M (A : Type) : Type := State -> Result A * State.

Definition ret {A} (a : A) : M A := fun s => (Ok a, s).

Definition throw {A} (e : exn) : M A := fun s => (Err e, s).

Definition bind {A B} (m : M A) (k : A -> M B) : M B :=
  fun s => match m s with
           | (Ok a, s') => k a s'
           | (Err e, s') => (Err e, s')
           end.

(** [try { m } catch (e) { h e }] *)
Definition try_catch {A} (m : M A) (h : exn -> M A) : M A :=
  fun s => match m s with
           | (Ok a, s') => (Ok a, s')
           | (Err e, s') => h e s'
           end.

(** An external call, which touches no table. *)
Definition call {A} (r : Result A) : M A := fun s => (r, s).

Notation "x <- m ;; k" := (bind m (fun x => k))
  (at level 61, m at next level, right associativity).
Notation "m ;;; k" := (bind m (fun _ => k))
  (at level 61, right associativity).

(** [for (const x of xs) { body x }] *)
Fixpoint forEach {A} (xs : list A) (body : A -> M unit) : M unit :=
  match xs with
  | [] => ret tt
  | x :: rest => body x ;;; forEach rest body
  end.

(** [for (let i = start; i < xs.length + start; i++) { body i xs[i] }] *)
Fixpoint forIndex {A} (start : nat) (xs : list A) (body : nat -> A -> M unit) : M unit :=
  match xs with
  | [] => ret tt
  | x :: rest => body start x ;;; forIndex (S start) rest body
  end.

(** [`${n}`] *)
Definition string_of_nat (n : nat) : string := NilEmpty.string_of_uint (Nat.to_uint n).

(** console.warn *)
Definition console_warn (line : string) : M unit :=
  fun s => (Ok tt, set_console (fun l => l ++ [line]) s).

(** An integer held in a JavaScript number: the nearest double, ties to the
    even mantissa.  Integers up to 2^53 in magnitude are held exactly; the
    overflow to Infinity beyond the range of doubles is not modelled. *)
Definition js_number (n : Z) : Z :=
  if (Z.abs n <=? 2 ^ 53)%Z then n
  else
    let e := (Z.log2 (Z.abs n) - 52)%Z in
    let q := Z.shiftr (Z.abs n) e in
    let r := (Z.abs n - Z.shiftl q e)%Z in
    let half := Z.shiftl 1 (e - 1) in
    let q' := if (r <? half)%Z then q
              else if (half <? r)%Z then (q + 1)%Z
              else if Z.even q then q else (q + 1)%Z in
    (Z.sgn n * Z.shiftl q' e)%Z.

(** ** The world outside the services *)

Inductive op_kind := OpInsert | OpUpdate | OpSelect.

Definition Buffer := list Byte.byte.

Record World := {
  (** the store refuses the statement issued at this time, with this message *)
  db_fault : op_kind -> timestamp -> option string;
  (** the four URL patterns of extractVideoId *)
  extractVideoId : string -> option string;
  (** the oEmbed request for a video id: the title field of the answer
      (empty when absent), [None] when the request fails *)
  oembed_title : string -> option string;
  (** YoutubeTranscript.fetchTranscript for a video id *)
  youtube_transcript : string -> Result (list YouTubeTranscriptItem);
  (** OpenRouter chat completions, request and JSON.parse together *)
  openrouter_analysis_video : string -> Result json;
  openrouter_analysis_document : Buffer -> string -> string -> Result json;
  openrouter_lesson : json -> string -> Result GeneratedLesson;
  (** Gemini generateContent, request and JSON.parse together *)
  gemini_video : string -> option string -> Result json;
  gemini_document : Buffer -> string -> string -> Result json;
  (** Claude messages.create for the single-source lesson prompt: the text
      block of the answer, code fences stripped *)
  claude_lesson_text : json -> string -> Result string;
  (** JSON.parse at type GeneratedLesson *)
  parse_lesson : string -> Result GeneratedLesson;
  (** Claude synthesis over the (analysis, source) pairs of the prompt *)
  claude_synthesis : list (SourceAnalysis * SourceRow) -> Result CrossSourceSynthesis;
  (** Claude lesson generation for a collection: prompt, request and parse *)
  claude_collection_lesson :
    CollectionRow -> list (option SourceRow) -> CrossSourceSynthesis -> Result GeneratedLesson;
  (** config.*.model *)
  config_gemini_model : string;
  config_claude_model : string;
  config_ai_analysisModel : string
}.

(** ** The Supabase client *)

(** [{ data, error }] *)
Record Response (R : Type) := { data : option R; error : option string }.
Arguments data {R} _.
Arguments error {R} _.

Definition tick : State -> State := set_clock S.

Section Supabase.
Variable w : World.

  (** [.from(t).insert(row)], with or without [.select().single()]: the id
      and the creation time are the store's defaults. *)
Definition insert {R} (add : R -> State -> State) (row : uuid -> timestamp -> R)
    : M (Response R) :=
    fun s =>
      match db_fault w OpInsert (clock s) with
      | Some msg => (Ok {| data := None; error := Some msg |}, tick s)
      | None =>
          let r := row (next_id s) (clock s) in
          (Ok {| data := Some r; error := None |}, tick (set_next_id S (add r s)))
      end.

  (** [.from(t).update(v).eq(...)] *)
Definition update (f : timestamp -> State -> State) : M (Response unit) :=
    fun s =>
      match db_fault w OpUpdate (clock s) with
      | Some msg => (Ok {| data := None; error := Some msg |}, tick s)
      | None => (Ok {| data := Some tt; error := None |}, tick (f (clock s) s))
      end.

  (** [.from(t).select(...)] returning rows *)
Definition select {R} (q : State -> list R) : M (Response (list R)) :=
    fun s =>
      match db_fault w OpSelect (clock s) with
      | Some msg => (Ok {| data := None; error := Some msg |}, tick s)
      | None => (Ok {| data := Some (q s); error := None |}, tick s)
      end.

  (** [.single()]: exactly one row, anything else is an error. *)
Definition single {R} (q : State -> list R) : M (Response R) :=
    fun s =>
      match db_fault w OpSelect (clock s) with
      | Some msg => (Ok {| data := None; error := Some msg |}, tick s)
      | None =>
          match q s with
          | [r] => (Ok {| data := Some r; error := None |}, tick s)
          | _ => (Ok {| data := None; error := Some "PGRST116" |}, tick s)
          end
      end.

  (** An insert that a constraint of the schema rejects. *)
Definition refused {R} (constraint : string) : M (Response R) :=
    fun s =>
      (Ok {| data := None;
             error := Some match db_fault w OpInsert (clock s) with
                           | Some msg => msg
                           | None => constraint
                           end |},
       tick s).
End Supabase.

(** [.order(key, { ascending: false }).limit(1)]: the first row of greatest key. *)
Definition pick_greater {R} (key : R -> Z) (best : option R) (r : R) : option R :=
  match best with
  | None => Some r
  | Some b => if (key b <? key r)%Z then Some r else Some b
  end.

Definition order_desc_limit1 {R} (key : R -> Z) (rows : list R) : list R :=
  match fold_left (pick_greater key) rows None with
  | None => []
  | Some r => [r]
  end.

(** [.update(v).eq('id', id)] on one table *)
Definition update_where {R} (p : R -> bool) (f : R -> R) (rows : list R) : list R :=
  map (fun r => if p r then f r else r) rows.

(** [!value] on an optional string: undefined and the empty string are falsy. *)
Definition falsy (o : option string) : bool :=
  match o with
  | None | Some "" => true
  | Some _ => false
  end.

(** ** services/sources/youtube.ts *)
Module YouTubeService.
Section WithWorld.
Variable w : World.

    (** getMetadata, of which the callers read the title only. *)
Definition getMetadata (url : string) : M string :=
      match extractVideoId w url with
      | None => throw (JsError "Invalid YouTube URL")
      | Some videoId =>
          match oembed_title w videoId with
          | Some t => ret (if falsy (Some t) then "Untitled" else t)
          | None => ret "YouTube Video"
          end
      end.

Definition getVideoUrl (url : string) : M string :=
      match extractVideoId w url with
      | None => throw (JsError "Invalid YouTube URL")
      | Some videoId => ret ("https://www.youtube.com/watch?v=" +++ videoId)
      end.
End WithWorld.
End YouTubeService.

(** ** services/sources/transcriptService.ts *)
Module TranscriptService.
Section WithWorld.
Variable w : World.

Definition fetchYouTubeTranscript (videoUrl : string) : M (list TranscriptSegment) :=
      try_catch
        (match extractVideoId w videoUrl with
         | None => throw (JsError "Invalid YouTube URL")
         | Some videoId =>
             transcript <- call (youtube_transcript w videoId) ;;
             ret (map (fun segment =>
                         {| seg_text := item_text segment;
                            seg_start := seconds_of_ms (item_offset segment);
                            seg_duration := seconds_of_ms (item_duration segment) |})
                      transcript)
         end)
        (fun e => throw (JsError ("Failed to fetch transcript: " +++
                                  match e with JsError m => m | PgError _ => "Unknown error" end))).
End WithWorld.
End TranscriptService.

(** ** The analysis and generation services an orchestrator is built with *)
Record LessonServices := {
  ai_analyzeVideo : string -> uuid -> option string -> M SourceAnalysis;
  ai_analyzeDocument : Buffer -> string -> string -> uuid -> M SourceAnalysis;
  ai_generateLesson : json -> string -> M GeneratedLesson
}.

(** ** services/ai/openrouterService.ts *)
Module OpenRouterService.
Section WithWorld.
Variable w : World.

Definition analyzeVideo (videoUrl : string) (sid : uuid) (transcriptText : option string)
      : M SourceAnalysis :=
      analysisData <- call (openrouter_analysis_video w videoUrl) ;;
      ret {| sourceId := sid; analysisData := analysisData;
             modelUsed := config_ai_analysisModel w |}.

Definition analyzeDocument (fileBuffer : Buffer) (fileName mimeType : string) (sid : uuid)
      : M SourceAnalysis :=
      analysisData <- call (openrouter_analysis_document w fileBuffer fileName mimeType) ;;
      ret {| sourceId := sid; analysisData := analysisData;
             modelUsed := config_ai_analysisModel w |}.

    (** The parsed answer is returned as it is. *)
Definition generateLesson (analysis : json) (sourceTitle : string) : M GeneratedLesson :=
      call (openrouter_lesson w analysis sourceTitle).

Definition services : LessonServices :=
      {| ai_analyzeVideo := analyzeVideo;
         ai_analyzeDocument := analyzeDocument;
         ai_generateLesson := generateLesson |}.
End WithWorld.
End OpenRouterService.

(** ** services/gemini/videoAnalysis.ts and documentAnalysis.ts *)
Module GeminiVideoService.
Section WithWorld.
Variable w : World.

Definition analyzeVideo (videoUrl : string) (sid : uuid) (transcriptText : option string)
      : M SourceAnalysis :=
      try_catch
        (analysisData <- call (gemini_video w videoUrl
                                 (if falsy transcriptText then None else transcriptText)) ;;
         ret {| sourceId := sid; analysisData := analysisData;
                modelUsed := config_gemini_model w |})
        (fun e => throw (JsError ("Video analysis failed: " +++
                                  match e with JsError m => m | PgError _ => "Unknown error" end))).
End WithWorld.
End GeminiVideoService.

Module GeminiDocumentService.
Section WithWorld.
Variable w : World.

Definition analyzeDocument (fileBuffer : Buffer) (fileName mimeType : string) (sid : uuid)
      : M SourceAnalysis :=
      analysisData <- call (gemini_document w fileBuffer fileName mimeType) ;;
      ret {| sourceId := sid; analysisData := analysisData;
             modelUsed := config_gemini_model w |}.
End WithWorld.
End GeminiDocumentService.

(** ** services/claude/lessonGeneration.ts *)
Module ClaudeLessonService.

  (** [mod.objectives.some((o) => o.type === 'terminal')] *)
Definition hasTerminal (m : LessonModule) : bool :=
    existsb (fun o => ObjectiveType_eqb (objective_kind o) terminal) (objectives m).

Definition validateModule (m : LessonModule) : M unit :=
    match objectives m with
    | [] => throw (JsError ("Module " +++ dquote +++ module_title m +++ dquote +++
                            " has no objectives"))
    | _ :: _ =>
        if hasTerminal m then ret tt
        else throw (JsError ("Module " +++ dquote +++ module_title m +++ dquote +++
                             " needs at least one terminal objective"))
    end.

Definition validateLesson (lesson : GeneratedLesson) : M unit :=
    if falsy (Some (course_title (course lesson)))
    then throw (JsError "Lesson missing course title")
    else match lesson_modules lesson with
         | [] => throw (JsError "Lesson has no modules")
         | mods => forEach mods validateModule
         end.

Section WithWorld.
Variable w : World.

Definition generateLesson (analysis : json) (sourceTitle : string) : M GeneratedLesson :=
      jsonStr <- call (claude_lesson_text w analysis sourceTitle) ;;
      try_catch
        (lesson <- call (parse_lesson w jsonStr) ;;
         validateLesson lesson ;;;
         ret lesson)
        (fun e => throw (JsError ("Failed to parse lesson plan: " +++
                                  match e with JsError m => m | PgError _ => "Invalid JSON" end))).

    (** The services of the Claude and Gemini based orchestrator: the
        PipelineOrchestrator printed in services/collections/collectionOrchestrator.ts
        (lines 836 to 1081), which has the steps of services/orchestrator.ts and
        generates with [this.claudeLesson.generateLesson]. *)
Definition services : LessonServices :=
      {| ai_analyzeVideo := GeminiVideoService.analyzeVideo w;
         ai_analyzeDocument := GeminiDocumentService.analyzeDocument w;
         ai_generateLesson := generateLesson |}.
End WithWorld.
End ClaudeLessonService.

(** ** services/notebooklm/notebookService.ts *)
Module NotebookLMService.
Section WithWorld.
Variable w : World.

    (** getLessonPlanSummary: the reads it performs; the answer tells
        whether a summary text was built. *)
Definition getLessonPlanSummary (courseId : uuid) : M bool :=
      r <- select w (fun s => filter (fun m => Nat.eqb (mod_course_id m) courseId) (modules s)) ;;
      match data r with
      | None | Some [] => ret false
      | Some mods =>
          forEach mods (fun m =>
            r <- select w (fun s =>
                   filter (fun o => Nat.eqb (obj_module_id o) (mod_id m)) (learning_objectives s)) ;;
            match data r with
            | None => ret tt
            | Some objs =>
                forEach objs (fun o =>
                  _ <- select w (fun s =>
                         filter (fun a => Nat.eqb (act_learning_objective_id a) (obj_id o))
                                (learning_activities s)) ;;
                  ret tt)
            end) ;;;
          ret true
      end.

    (** createNotebookForCourse: the count of sources of the prepared
        notebook, [None] for the null answer. *)
Definition createNotebookForCourse (courseId : uuid) (sourceUrl : string)
               (sourceType : SourceType) : M (option nat) :=
      try_catch
        (lessonSummary <- getLessonPlanSummary courseId ;;
         r <- update w (fun now => set_courses (update_where
                 (fun c => Nat.eqb (crs_id c) courseId)
                 (fun c => {| crs_id := crs_id c;
                              crs_organization_id := crs_organization_id c;
                              crs_collection_id := crs_collection_id c;
                              crs_title := crs_title c;
                              crs_description := crs_description c;
                              crs_course_code := crs_course_code c;
                              crs_iata_category := crs_iata_category c;
                              crs_total_duration_minutes := crs_total_duration_minutes c;
                              crs_status := crs_status c;
                              crs_notebook_id := Some (courseId, now) |}))) ;;
         match error r with
         | Some _ => ret None
         | None =>
             ret (Some ((if negb (falsy (Some sourceUrl)) &&
                            match sourceType with youtube => true | _ => false end
                         then 1 else 0)
                        + 1
                        + (if lessonSummary then 1 else 0)))
         end)
        (fun _ => ret None).
End WithWorld.
End NotebookLMService.

(** Append to a table. *)
Definition add_source (r : SourceRow) := set_sources (fun l => l ++ [r]).
Definition add_analysis (r : AnalysisRow) := set_source_analyses (fun l => l ++ [r]).
Definition add_collection_source (r : CollectionSourceRow) :=
  set_collection_sources (fun l => l ++ [r]).
Definition add_collection_analysis (r : CollectionAnalysisRow) :=
  set_collection_analyses (fun l => l ++ [r]).
Definition add_course (r : CourseRow) := set_courses (fun l => l ++ [r]).
Definition add_module (r : ModuleRow) := set_modules (fun l => l ++ [r]).
Definition add_mapping (r : MappingRow) := set_lesson_source_mappings (fun l => l ++ [r]).
Definition add_objective (r : ObjectiveRow) := set_learning_objectives (fun l => l ++ [r]).
Definition add_activity (r : ActivityRow) := set_learning_activities (fun l => l ++ [r]).

(** [{ status, updated_at }] written over a sources row *)
Definition source_with_status (st : SourceStatus) (now : timestamp) (r : SourceRow) : SourceRow :=
  {| src_id := src_id r; src_organization_id := src_organization_id r;
     src_type := src_type r; src_url := src_url r; src_title := src_title r;
     src_status := st; src_transcript := src_transcript r;
     src_duration_seconds := src_duration_seconds r; src_updated_at := now |}.

(** The text of a source type, as console.warn prints it. *)
Definition sourceTypeName (sourceType : SourceType) : string :=
  match sourceType with
  | youtube => "youtube"
  | pdf => "pdf"
  | pptx => "pptx"
  end.

Definition mimeTypeOf (sourceType : SourceType) : string :=
  match sourceType with
  | pdf => "application/pdf"
  | _ => "application/vnd.openxmlformats-officedocument.presentationml.presentation"
  end.

(** ** services/orchestrator.ts *)
Module PipelineOrchestrator.
Section WithWorld.
Variable w : World.
    (** [this.ai] *)
Variable ai : LessonServices.

Definition createSource (sourceUrl : string) (sourceType : SourceType)
               (organizationId : uuid) : M SourceRow :=
      title <- match sourceType with
               | youtube =>
                   try_catch (YouTubeService.getMetadata w sourceUrl) (fun _ => ret sourceUrl)
               | _ => ret sourceUrl
               end ;;
      r <- insert w add_source (fun id now =>
             {| src_id := id; src_organization_id := organizationId;
                src_type := sourceType; src_url := sourceUrl; src_title := title;
                src_status := SrcPending; src_transcript := None;
                src_duration_seconds := None; src_updated_at := now |}) ;;
      match error r, data r with
      | Some msg, _ => throw (JsError ("Failed to create source: " +++ msg))
      | None, Some row => ret row
      | None, None => throw (JsError "TypeError: data is null")
      end.

Definition analyzeSource (sid : uuid) (sourceUrl : string) (sourceType : SourceType)
               (fileBuffer : option Buffer) (fileName : option string) : M SourceAnalysis :=
      match sourceType with
      | youtube =>
          videoUrl <- YouTubeService.getVideoUrl w sourceUrl ;;
          ai_analyzeVideo ai videoUrl sid None
      | _ =>
          match fileBuffer, fileName with
          | Some buf, Some name =>
              if falsy fileName
              then throw (JsError "File buffer and name are required for document analysis")
              else ai_analyzeDocument ai buf name (mimeTypeOf sourceType) sid
          | _, _ => throw (JsError "File buffer and name are required for document analysis")
          end
      end.

Definition saveAnalysis (sid : uuid) (analysis : SourceAnalysis) : M unit :=
      r <- insert w add_analysis (fun id now =>
             {| an_id := id; an_source_id := sid; an_type := "gemini_analysis";
                an_data := analysisData analysis; an_model_used := modelUsed analysis;
                an_created_at := now |}) ;;
      match error r with
      | Some msg => throw (JsError ("Failed to save analysis: " +++ msg))
      | None => ret tt
      end.

Definition saveActivity (objectiveId : uuid) (j : nat) (act : LessonActivity) : M unit :=
      r <- insert w add_activity (fun id _ =>
             {| act_id := id; act_learning_objective_id := objectiveId;
                act_instruction_method := instructionMethod act;
                act_description := activity_description act;
                act_duration := activity_duration act;
                act_resources := resources act; act_order_index := j |}) ;;
      match error r with
      | Some msg => throw (JsError ("Failed to create activity: " +++ msg))
      | None => ret tt
      end.

Definition saveObjective (moduleId : uuid) (i : nat) (obj : LessonObjective) : M unit :=
      r <- insert w add_objective (fun id _ =>
             {| obj_id := id; obj_module_id := moduleId;
                obj_objective_type := objective_kind obj; obj_content := content obj;
                obj_blooms_level := bloomsLevel obj; obj_order_index := i |}) ;;
      match error r, data r with
      | Some msg, _ => throw (JsError ("Failed to create objective: " +++ msg))
      | None, None => throw (JsError "TypeError: objective is null")
      | None, Some objective => forIndex 0 (activities obj) (saveActivity (obj_id objective))
      end.

Definition saveModule (courseId sid : uuid) (md : LessonModule) : M unit :=
      r <- insert w add_module (fun id _ =>
             {| mod_id := id; mod_course_id := courseId;
                mod_module_number := moduleNumber md; mod_title := module_title md;
                mod_description := module_description md;
                mod_duration := module_duration md |}) ;;
      match error r, data r with
      | Some msg, _ => throw (JsError ("Failed to create module: " +++ msg))
      | None, None => throw (JsError "TypeError: module is null")
      | None, Some module =>
          (* the mapping insert, whose answer is not looked at *)
          _ <- insert w add_mapping (fun id _ =>
                 {| map_id := id; map_source_id := sid; map_module_id := mod_id module |}) ;;
          forIndex 0 (objectives md) (saveObjective (mod_id module))
      end.

Definition saveLesson (lesson : GeneratedLesson) (sid organizationId : uuid) : M uuid :=
      r <- insert w add_course (fun id _ =>
             {| crs_id := id; crs_organization_id := organizationId;
                crs_collection_id := None;
                crs_title := course_title (course lesson);
                crs_description := course_description (course lesson);
                crs_course_code := None; crs_iata_category := None;
                crs_total_duration_minutes := None;
                crs_status := CourseDraft; crs_notebook_id := None |}) ;;
      match error r, data r with
      | Some msg, _ => throw (JsError ("Failed to create course: " +++ msg))
      | None, None => throw (JsError "TypeError: course is null")
      | None, Some crs =>
          forEach (lesson_modules lesson) (saveModule (crs_id crs) sid) ;;;
          ret (crs_id crs)
      end.

    (** The answer of the update is dropped. *)
Definition updateSourceStatus (sid : uuid) (status : SourceStatus) : M unit :=
      _ <- update w (fun now => set_sources (update_where
             (fun r => Nat.eqb (src_id r) sid) (source_with_status status now))) ;;
      ret tt.

Definition getSourceTitle (sid : uuid) : M string :=
      r <- single w (fun s => filter (fun r => Nat.eqb (src_id r) sid) (sources s)) ;;
      match data r with
      | Some row => ret (if falsy (Some (src_title row)) then "Untitled Source" else src_title row)
      | None => ret "Untitled Source"
      end.

    (** Steps 2 to 8, the body of the [try]. *)
Definition pipelineSteps (source : SourceRow) (sourceUrl : string) (sourceType : SourceType)
               (organizationId : uuid) (fileBuffer : option Buffer) (fileName : option string)
      : M (uuid * GeneratedLesson) :=
      updateSourceStatus (src_id source) SrcProcessing ;;;
      analysis <- analyzeSource (src_id source) sourceUrl sourceType fileBuffer fileName ;;
      saveAnalysis (src_id source) analysis ;;;
      title <- getSourceTitle (src_id source) ;;
      lesson <- ai_generateLesson ai (analysisData analysis) title ;;
      courseId <- saveLesson lesson (src_id source) organizationId ;;
      try_catch
        (_ <- NotebookLMService.createNotebookForCourse w courseId sourceUrl sourceType ;; ret tt)
        (fun _ => ret tt) ;;;
      updateSourceStatus (src_id source) SrcCompleted ;;;
      ret (courseId, lesson).

Definition processSourceToLesson (sourceUrl : string) (sourceType : SourceType)
               (organizationId : uuid) (fileBuffer : option Buffer) (fileName : option string)
      : M (uuid * GeneratedLesson) :=
      source <- createSource sourceUrl sourceType organizationId ;;
      try_catch
        (pipelineSteps source sourceUrl sourceType organizationId fileBuffer fileName)
        (fun e => updateSourceStatus (src_id source) SrcFailed ;;; throw e).
End WithWorld.
End PipelineOrchestrator.

(** ** services/collections/collectionAnalyzer.ts *)
Module CollectionAnalyzer.
Section WithWorld.
Variable w : World.

    (** The select of a collection with its embedded collection_sources
        rows, each with its embedded sources row. *)
Definition collection_with_sources (cid : uuid) (s : State)
      : list (CollectionRow * list (CollectionSourceRow * option SourceRow)) :=
      map (fun c =>
             (c, map (fun cs => (cs, find (fun r => Nat.eqb (src_id r) (cs_source_id cs))
                                          (sources s)))
                     (filter (fun cs => Nat.eqb (cs_collection_id cs) (col_id c))
                             (collection_sources s))))
          (filter (fun c => Nat.eqb (col_id c) cid) (source_collections s)).

    (** The loop of ensureSourceAnalyses, [analyses] being the array filled so far. *)
Fixpoint ensureSourceAnalyses_from (analyses : list SourceAnalysis)
             (srcs : list (option SourceRow)) : M (list SourceAnalysis) :=
      match srcs with
      | [] => ret analyses
      | None :: _ => throw (JsError "TypeError: source is null")
      | Some source :: rest =>
          r <- single w (fun s => filter (fun a => Nat.eqb (an_source_id a) (src_id source))
                                         (source_analyses s)) ;;
          match data r with
          | Some existingAnalysis =>
              ensureSourceAnalyses_from
                (analyses ++ [{| sourceId := src_id source;
                                 analysisData := an_data existingAnalysis;
                                 modelUsed := an_model_used existingAnalysis |}])
                rest
          | None =>
              console_warn ("Source " +++ string_of_nat (src_id source) +++
                            " missing analysis, skipping") ;;;
              ensureSourceAnalyses_from analyses rest
          end
      end.

Definition ensureSourceAnalyses (srcs : list (option SourceRow)) : M (list SourceAnalysis) :=
      ensureSourceAnalyses_from [] srcs.

    (** buildSynthesisPrompt: analysis number idx is printed under the
        title of source number idx. *)
Fixpoint buildSynthesisPrompt (analyses : list SourceAnalysis)
             (srcs : list (option SourceRow)) : M (list (SourceAnalysis * SourceRow)) :=
      match analyses, srcs with
      | [], _ => ret []
      | a :: analyses', Some source :: srcs' =>
          rest <- buildSynthesisPrompt analyses' srcs' ;;
          ret ((a, source) :: rest)
      | _ :: _, _ => throw (JsError "TypeError: source is undefined")
      end.

Definition synthesizeAcrossAnalyses (analyses : list SourceAnalysis)
               (srcs : list (option SourceRow)) : M CrossSourceSynthesis :=
      prompt <- buildSynthesisPrompt analyses srcs ;;
      call (claude_synthesis w prompt).

Definition collection_with_status (st : CollectionStatus) (completed : option timestamp)
               (c : CollectionRow) : CollectionRow :=
      {| col_id := col_id c; col_organization_id := col_organization_id c;
         col_title := col_title c; col_status := st;
         col_analysis_completed_at :=
           match completed with Some t => Some t | None => col_analysis_completed_at c end |}.

(** Steps 1 to 5, the body of the [try]. *)
Definition analyzeSteps (collectionId : uuid) : M CollectionAnalysisRow :=
  r <- single w (collection_with_sources collectionId) ;;
  match data r with
  | None => throw (JsError "Collection not found")
  | Some (collection, collection_sources) =>
      let srcs := map snd collection_sources in
      analyses <- ensureSourceAnalyses srcs ;;
      synthesis <- synthesizeAcrossAnalyses analyses srcs ;;
      r <- insert w add_collection_analysis (fun id now =>
             {| ca_id := id; ca_collection_id := collectionId;
                ca_type := "cross_source_synthesis"; ca_data := synthesis;
                ca_sources_analyzed := List.length analyses;
                ca_model_used := config_claude_model w;
                ca_created_at := now |}) ;;
      match error r, data r with
      | Some msg, _ => throw (PgError msg)
      | None, None => throw (JsError "TypeError: savedAnalysis is null")
      | None, Some savedAnalysis =>
          _ <- update w (fun now => set_source_collections (update_where
                 (fun c => Nat.eqb (col_id c) collectionId)
                 (collection_with_status ColReady (Some now)))) ;;
          ret savedAnalysis
      end
  end.

Definition analyzeCollection (collectionId : uuid) : M CollectionAnalysisRow :=
  try_catch
    (analyzeSteps collectionId)
    (fun e =>
       _ <- update w (fun _ => set_source_collections (update_where
              (fun c => Nat.eqb (col_id c) collectionId)
              (collection_with_status ColFailed None))) ;;
       throw e).
End WithWorld.
End CollectionAnalyzer.

(** ** services/collections/collectionLessonService.ts *)
Module CollectionLessonService.
Section WithWorld.
Variable w : World.

    (** [cs.sources.id] for every member, as the prompt and the metadata read it. *)
Fixpoint memberSources (srcs : list (option SourceRow)) : M (list SourceRow) :=
      match srcs with
      | [] => ret []
      | None :: _ => throw (JsError "TypeError: cs.sources is null")
      | Some r :: rest => rs <- memberSources rest ;; ret (r :: rs)
      end.

Definition generateFromCollection (collectionId : uuid) (synthesis : CrossSourceSynthesis)
      : M GeneratedLesson :=
      r <- single w (CollectionAnalyzer.collection_with_sources collectionId) ;;
      match data r with
      | None => throw (JsError "Collection not found")
      | Some (collection, collection_sources) =>
          members <- memberSources (map snd collection_sources) ;;
          lesson <- call (claude_collection_lesson w collection (map Some members) synthesis) ;;
          ret {| course := course lesson;
                 lesson_modules := lesson_modules lesson;
                 metadata := Some {| meta_collectionId := collectionId;
                                     sourcesUsed := map src_id members;
                                     meta_synthesisStrategy := synthesisStrategy synthesis |} |}
      end.
End WithWorld.
End CollectionLessonService.

(** ** services/collections/collectionOrchestrator.ts *)
Module CollectionOrchestrator.
Section WithWorld.
Variable w : World.

Definition getCollectionOrgId (collectionId : uuid) : M (option uuid) :=
      r <- single w (fun s => filter (fun c => Nat.eqb (col_id c) collectionId)
                                     (source_collections s)) ;;
      ret (option_map col_organization_id (data r)).

    (** [data?.order_index ?? -1]: the answer's error is not read, and the
        index is a number of JavaScript from here on. *)
Definition getMaxOrderIndex (collectionId : uuid) : M Z :=
      r <- single w (fun s => order_desc_limit1 cs_order_index
                                (filter (fun cs => Nat.eqb (cs_collection_id cs) collectionId)
                                        (collection_sources s))) ;;
      ret (match data r with
           | Some row => js_number (cs_order_index row)
           | None => (-1)%Z
           end).

Definition ensureCollectionAnalysis (collectionId : uuid) : M CollectionAnalysisRow :=
      r <- single w (fun s => order_desc_limit1 (fun a => Z.of_nat (ca_created_at a))
                                (filter (fun a => Nat.eqb (ca_collection_id a) collectionId)
                                        (collection_analyses s))) ;;
      match data r with
      | Some existing => ret existing
      | None => CollectionAnalyzer.analyzeCollection w collectionId
      end.

    (** [Math.max(...transcript.map((t) => t.start + t.duration))], null when
        the transcript is empty. *)
Definition transcriptEnd (transcript : list TranscriptSegment) : option seconds :=
      match transcript with
      | [] => None
      | t :: rest =>
          Some (fold_left (fun m t' => Nat.max m (seg_start t' + seg_duration t')) rest
                          (seg_start t + seg_duration t))
      end.

    (** [{ transcript, duration_seconds }] written over a sources row; the
        trigger of the schema refreshes updated_at. *)
Definition source_with_transcript (transcript : list TranscriptSegment) (now : timestamp)
               (r : SourceRow) : SourceRow :=
      {| src_id := src_id r; src_organization_id := src_organization_id r;
         src_type := src_type r; src_url := src_url r; src_title := src_title r;
         src_status := src_status r; src_transcript := Some transcript;
         src_duration_seconds := transcriptEnd transcript; src_updated_at := now |}.

Definition saveSourceAnalysis (sid : uuid) (analysis_type : string)
               (analysis : SourceAnalysis) : M unit :=
      r <- insert w add_analysis (fun id now =>
             {| an_id := id; an_source_id := sid; an_type := analysis_type;
                an_data := analysisData analysis; an_model_used := modelUsed analysis;
                an_created_at := now |}) ;;
      match error r with
      | Some msg => throw (PgError msg)
      | None => ret tt
      end.

    (** Steps 2 and 3: the analysis of the new source. *)
Definition analyzeNewSource (source : SourceRow) (sourceUrl : string)
               (sourceType : SourceType) (fileBuffer : option Buffer)
               (fileName : option string) : M unit :=
      let skipped :=
        console_warn ("[CollectionOrchestrator] No fileBuffer/fileName provided for " +++
                      sourceTypeName sourceType +++ " - skipping analysis") in
      match sourceType with
      | youtube =>
          transcript <- TranscriptService.fetchYouTubeTranscript w sourceUrl ;;
          let transcriptText := String.concat " " (map seg_text transcript) in
          videoAnalysis <- GeminiVideoService.analyzeVideo w sourceUrl (src_id source)
                             (Some transcriptText) ;;
          _ <- update w (fun now => set_sources (update_where
                 (fun r => Nat.eqb (src_id r) (src_id source))
                 (source_with_transcript transcript now))) ;;
          saveSourceAnalysis (src_id source) "gemini_video" videoAnalysis
      | _ =>
          match fileBuffer, fileName with
          | Some buf, Some name =>
              if falsy fileName
              then skipped
              else
                docAnalysis <- GeminiDocumentService.analyzeDocument w buf name
                                 (mimeTypeOf sourceType) (src_id source) ;;
                saveSourceAnalysis (src_id source) "gemini_document" docAnalysis
          | _, _ => skipped
          end
      end.

Definition addSourceToCollection (collectionId : uuid) (sourceUrl : string)
               (sourceType : SourceType) (fileBuffer : option Buffer)
               (fileName : option string) : M uuid :=
      try_catch
        (orgId <- getCollectionOrgId collectionId ;;
         title <- (let title := match fileName with
                                | Some name => if falsy fileName then sourceUrl else name
                                | None => sourceUrl
                                end in
                   match sourceType with
                   | youtube =>
                       try_catch (YouTubeService.getMetadata w sourceUrl) (fun _ => ret title)
                   | _ => ret title
                   end) ;;
         r <- match orgId with
              | Some org =>
                  insert w add_source (fun id now =>
                    {| src_id := id; src_organization_id := org;
                       src_type := sourceType; src_url := sourceUrl; src_title := title;
                       src_status := SrcProcessing; src_transcript := None;
                       src_duration_seconds := None; src_updated_at := now |})
              | None => refused w "organization_id violates not-null constraint"
              end ;;
         match error r, data r with
         | Some msg, _ => throw (PgError msg)
         | None, None => throw (JsError "TypeError: source is null")
         | None, Some source =>
             analyzeNewSource source sourceUrl sourceType fileBuffer fileName ;;;
             maxOrder <- getMaxOrderIndex collectionId ;;
             r <- insert w add_collection_source (fun id _ =>
                    {| cs_id := id; cs_collection_id := collectionId;
                       cs_source_id := src_id source;
                       cs_order_index := js_number (maxOrder + 1) |}) ;;
             match error r with
             | Some msg => throw (PgError msg)
             | None =>
                 _ <- update w (fun now => set_sources (update_where
                        (fun r => Nat.eqb (src_id r) (src_id source))
                        (source_with_status SrcCompleted now))) ;;
                 _ <- update w (fun _ => set_source_collections (update_where
                        (fun c => Nat.eqb (col_id c) collectionId)
                        (CollectionAnalyzer.collection_with_status ColBuilding None))) ;;
                 ret (src_id source)
             end
         end)
        (fun e => throw (JsError ("Failed to add source to collection: " +++ error_message e))).

    (** The answer of the activity insert is dropped. *)
Definition saveActivity (objectiveId : uuid) (j : nat) (act : LessonActivity) : M unit :=
      _ <- insert w add_activity (fun id _ =>
             {| act_id := id; act_learning_objective_id := objectiveId;
                act_instruction_method := instructionMethod act;
                act_description := activity_description act;
                act_duration := activity_duration act;
                act_resources := resources act; act_order_index := j |}) ;;
      ret tt.

Definition saveObjective (moduleId : uuid) (i : nat) (obj : LessonObjective) : M unit :=
      r <- insert w add_objective (fun id _ =>
             {| obj_id := id; obj_module_id := moduleId;
                obj_objective_type := objective_kind obj; obj_content := content obj;
                obj_blooms_level := bloomsLevel obj; obj_order_index := i |}) ;;
      match error r, data r with
      | Some msg, _ => throw (PgError msg)
      | None, None => throw (JsError "TypeError: objective is null")
      | None, Some objective => forIndex 0 (activities obj) (saveActivity (obj_id objective))
      end.

Definition saveModule (courseId : uuid) (md : LessonModule) : M unit :=
      r <- insert w add_module (fun id _ =>
             {| mod_id := id; mod_course_id := courseId;
                mod_module_number := moduleNumber md; mod_title := module_title md;
                mod_description := module_description md;
                mod_duration := module_duration md |}) ;;
      match error r, data r with
      | Some msg, _ => throw (PgError msg)
      | None, None => throw (JsError "TypeError: module is null")
      | None, Some module => forIndex 0 (objectives md) (saveObjective (mod_id module))
      end.

Definition saveLesson (lesson : GeneratedLesson) (collectionId organizationId : uuid)
      : M uuid :=
      r <- insert w add_course (fun id _ =>
             {| crs_id := id; crs_organization_id := organizationId;
                crs_collection_id := Some collectionId;
                crs_title := course_title (course lesson);
                crs_description := course_description (course lesson);
                crs_course_code := course_code (course lesson);
                crs_iata_category := iata_category (course lesson);
                crs_total_duration_minutes := total_duration_minutes (course lesson);
                crs_status := CourseDraft; crs_notebook_id := None |}) ;;
      match error r, data r with
      | Some msg, _ => throw (PgError msg)
      | None, None => throw (JsError "TypeError: course is null")
      | None, Some crs =>
          forEach (lesson_modules lesson) (saveModule (crs_id crs)) ;;;
          ret (crs_id crs)
      end.

Definition processCollectionToLesson (collectionId organizationId : uuid)
      : M (uuid * GeneratedLesson) :=
      try_catch
        (analysis <- ensureCollectionAnalysis collectionId ;;
         lesson <- CollectionLessonService.generateFromCollection w collectionId
                     (ca_data analysis) ;;
         courseId <- saveLesson lesson collectionId organizationId ;;
         ret (courseId, lesson))
        (fun e => throw e).
End WithWorld.
End CollectionOrchestrator.

(** ** services/sources/youtube.ts and transcriptService.ts: extractVideoId *)

(** Both services carry the same four patterns.  A URL is read as its
    sequence of bytes: the patterns hold ASCII characters only, so that a
    match begins and ends at the same characters in either reading. *)
Module YouTubeUrl.

  (** [[a-zA-Z0-9_-]] *)
Definition idChar (c : Ascii.ascii) : bool :=
    let n := Ascii.nat_of_ascii c in
    (Nat.leb 97 n && Nat.leb n 122) || (Nat.leb 65 n && Nat.leb n 90)
    || (Nat.leb 48 n && Nat.leb n 57) || Nat.eqb n 95 || Nat.eqb n 45.

  (** [([a-zA-Z0-9_-]{n})] at the start of [s]: the group it captures. *)
Fixpoint capture (n : nat) (s : string) : option string :=
    match n with
    | 0 => Some EmptyString
    | S n' =>
        match s with
        | String c s' =>
            if idChar c
            then match capture n' s' with
                 | Some id => Some (String c id)
                 | None => None
                 end
            else None
        | EmptyString => None
        end
    end.

  (** The literal part of a pattern at the start of [s]: what follows it. *)
Fixpoint after_literal (lit s : string) : option string :=
    match lit with
    | EmptyString => Some s
    | String c lit' =>
        match s with
        | String d s' => if Ascii.eqb c d then after_literal lit' s' else None
        | EmptyString => None
        end
    end.

  (** [/(?:lit)([a-zA-Z0-9_-]{11})/] at the start of [s] *)
Definition match_here (lit s : string) : option string :=
    match after_literal lit s with
    | Some rest => capture 11 rest
    | None => None
    end.

  (** [s.match(pattern)]: the match that begins leftmost, its group 1. *)
Fixpoint search (lit s : string) : option string :=
    match match_here lit s with
    | Some id => Some id
    | None =>
        match s with
        | String _ s' => search lit s'
        | EmptyString => None
        end
    end.

Definition patterns : list string :=
    [ "youtube.com/watch?v="; "youtu.be/"; "youtube.com/embed/"; "youtube.com/shorts/" ].

  (** [for (const pattern of patterns) { const match = url.match(pattern); if (match) return match[1]; } return null] *)
Fixpoint first_match (pats : list string) (url : string) : option string :=
    match pats with
    | [] => None
    | lit :: rest =>
        match search lit url with
        | Some id => Some id
        | None => first_match rest url
        end
    end.

Definition extractVideoId (url : string) : option string := first_match patterns url.
End YouTubeUrl.

(** ** app/api: the POST handlers that start the pipelines *)

(** What a handler learns from the session of the caller: the user, if
    any; the organization that the membership query finds for the user;
    the rows that row-level security lets the client of the caller read. *)
Record Session := {
  session_user : option uuid;
  session_organization : option uuid;
  sees_collection : CollectionRow -> bool;
  sees_link : CollectionSourceRow -> bool
}.

(** The fields that the handlers take from a parsed request body, read at
    the types that the handlers declare. *)
Record SourceRequest := {
  req_sourceUrl : option string;
  req_sourceType : option string;
  req_fileBuffer : option string;
  req_fileName : option string
}.

Inductive Body :=
| ErrorBody (error_label : string) (details : option string)
| LessonBody (courseId : uuid) (lesson : GeneratedLesson)
| AnalysisBody (id : uuid) (sourcesAnalyzed : nat)
| SourceBody (sourceId : uuid) (message : string).

(** [NextResponse.json(body, { status })] *)
Record HttpResponse := { http_status : nat; http_body : Body }.

(** [['youtube', 'pdf', 'pptx'].includes(sourceType)] *)
Definition sourceTypeOf (t : string) : option SourceType :=
  if String.eqb t "youtube" then Some youtube
  else if String.eqb t "pdf" then Some pdf
  else if String.eqb t "pptx" then Some pptx
  else None.

Module Routes.
Section WithWorld.
Variable w : World.
    (** the services of [new PipelineOrchestrator()] *)
Variable ai : LessonServices.
    (** [Buffer.from(text, 'base64')] *)
Variable fromBase64 : string -> Buffer.

Definition respond (status : nat) (body : Body) : M HttpResponse :=
      ret {| http_status := status; http_body := body |}.

    (** The [catch] of a handler: [error instanceof Error ? error.message : unknown]. *)
Definition failing (label unknown : string) (m : M HttpResponse) : M HttpResponse :=
      try_catch m
        (fun e => respond 500 (ErrorBody label
                                 (Some match e with
                                       | JsError msg => msg
                                       | PgError _ => unknown
                                       end))).

    (** The membership query on user_organizations. *)
Definition orgMembership (session : Session) : M (option uuid) :=
      r <- single w (fun _ => match session_organization session with
                              | Some org => [org]
                              | None => []
                              end) ;;
      ret (data r).

    (** The collection with its links, as the client of the caller sees it. *)
Definition visible_collection (session : Session) (cid : uuid) (s : State)
      : list (CollectionRow * list CollectionSourceRow) :=
      map (fun c =>
             (c, filter (fun cs => Nat.eqb (cs_collection_id cs) (col_id c) && sees_link session cs)
                        (collection_sources s)))
          (filter (fun c => Nat.eqb (col_id c) cid && sees_collection session c)
                  (source_collections s)).

    (** The checks on the body that two of the handlers share. *)
Definition checked_source (body : SourceRequest) (k : string -> SourceType -> M HttpResponse)
      : M HttpResponse :=
      match req_sourceUrl body, req_sourceType body with
      | Some sourceUrl, Some sourceType =>
          if falsy (req_sourceUrl body) || falsy (req_sourceType body)
          then respond 400 (ErrorBody "sourceUrl and sourceType are required" None)
          else match sourceTypeOf sourceType with
               | None => respond 400 (ErrorBody "sourceType must be youtube, pdf, or pptx" None)
               | Some ty => k sourceUrl ty
               end
      | _, _ => respond 400 (ErrorBody "sourceUrl and sourceType are required" None)
      end.

    (** POST /api/sources/analyze *)
Definition sources_analyze_POST (session : Session) (request : Result SourceRequest)
      : M HttpResponse :=
      failing "Analysis failed" "Unknown error"
        (match session_user session with
         | None => respond 401 (ErrorBody "Unauthorized" None)
         | Some _ =>
             membership <- orgMembership session ;;
             match membership with
             | None => respond 400 (ErrorBody "No organization found" None)
             | Some organization_id =>
                 body <- call request ;;
                 checked_source body (fun sourceUrl sourceType =>
                   result <- PipelineOrchestrator.processSourceToLesson
                               w ai sourceUrl sourceType organization_id None None ;;
                   respond 200 (LessonBody (fst result) (snd result)))
             end
         end).

    (** POST /api/collections/[collectionId]/analyze *)
Definition collection_analyze_POST (session : Session) (collectionId : uuid)
      : M HttpResponse :=
      failing "Analysis failed" "Unknown"
        (match session_user session with
         | None => respond 401 (ErrorBody "Unauthorized" None)
         | Some _ =>
             r <- single w (visible_collection session collectionId) ;;
             match data r with
             | None => respond 404 (ErrorBody "Collection not found" None)
             | Some (_, collection_sources) =>
                 if (List.length collection_sources <? 2)%nat
                 then respond 400
                        (ErrorBody "Collection needs at least 2 sources for cross-source analysis"
                                   None)
                 else
                   analysis <- CollectionAnalyzer.analyzeCollection w collectionId ;;
                   respond 200 (AnalysisBody (ca_id analysis) (ca_sources_analyzed analysis))
             end
         end).

    (** POST /api/collections/[collectionId]/generate *)
Definition collection_generate_POST (session : Session) (collectionId : uuid)
      : M HttpResponse :=
      failing "Generation failed" "Unknown"
        (match session_user session with
         | None => respond 401 (ErrorBody "Unauthorized" None)
         | Some _ =>
             membership <- orgMembership session ;;
             match membership with
             | None => respond 400 (ErrorBody "No organization found" None)
             | Some organization_id =>
                 r <- single w (visible_collection session collectionId) ;;
                 match data r with
                 | None => respond 404 (ErrorBody "Collection not found" None)
                 | Some (_, collection_sources) =>
                     if Nat.eqb (List.length collection_sources) 0
                     then respond 400 (ErrorBody "Collection has no sources" None)
                     else
                       result <- CollectionOrchestrator.processCollectionToLesson
                                   w collectionId organization_id ;;
                       respond 200 (LessonBody (fst result) (snd result))
                 end
             end
         end).

    (** POST /api/collections/[collectionId]/sources *)
Definition collection_sources_POST (session : Session) (collectionId : uuid)
               (request : Result SourceRequest) : M HttpResponse :=
      failing "Failed to add source" "Unknown"
        (match session_user session with
         | None => respond 401 (ErrorBody "Unauthorized" None)
         | Some _ =>
             r <- single w (fun s => filter (fun c => Nat.eqb (col_id c) collectionId
                                                      && sees_collection session c)
                                            (source_collections s)) ;;
             match data r with
             | None => respond 404 (ErrorBody "Collection not found" None)
             | Some _ =>
                 body <- call request ;;
                 checked_source body (fun sourceUrl sourceType =>
                   let fileBuffer :=
                     match req_fileBuffer body with
                     | Some text => if falsy (req_fileBuffer body) then None
                                    else Some (fromBase64 text)
                     | None => None
                     end in
                   sourceId <- CollectionOrchestrator.addSourceToCollection
                                 w collectionId sourceUrl sourceType fileBuffer
                                 (req_fileName body) ;;
                   respond 201 (SourceBody sourceId "Source added and analyzed successfully"))
             end
         end).
End WithWorld.
End Routes.

(** * Vocabulary of the properties, and sample data *)

(** ** Relations between the state before and after a computation *)

(** The computation takes every state to one related to it. *)
Definition preserves {A} (R : State -> State -> Prop) (m : M A) : Prop :=
  forall s, R s (snd (m s)).

(** A relation between an earlier and a later state that is reflexive and
    transitive and that ignores the clock and the id generator. *)
Class StepRelation (R : State -> State -> Prop) : Prop := {
  step_refl : forall s, R s s;
  step_trans : forall s1 s2 s3, R s1 s2 -> R s2 s3 -> R s1 s3;
  step_tick : forall s s', R s s' -> R s (tick s');
  step_id : forall s s', R s s' -> R s (set_next_id S s');
  step_console : forall s s' f, R s s' -> R s (set_console f s')
}.

(** What the projection shows is left as it was. *)
Definition same {X} (proj : State -> X) (s s' : State) : Prop := proj s' = proj s.

(** ** Materialization *)

(** The rows of the Course/Module/Objective/Activity/Mapping graph. *)
Definition graph_rows (s : State) :=
  (courses s, modules s, lesson_source_mappings s, learning_objectives s,
   learning_activities s).

(** A table that has only been appended to. *)
Definition extends {T} (before after : list T) : Prop := exists added, after = before ++ added.

(** No row of the graph is deleted or rewritten. *)
Definition graph_grows (s s' : State) : Prop :=
  extends (courses s) (courses s') /\
  extends (modules s) (modules s') /\
  extends (lesson_source_mappings s) (lesson_source_mappings s') /\
  extends (learning_objectives s) (learning_objectives s') /\
  extends (learning_activities s) (learning_activities s').

(** Every course row that was not there before is a draft. *)
Definition new_courses_are_drafts (s s' : State) : Prop :=
  forall c, In c (courses s') -> In c (courses s) \/ crs_status c = CourseDraft.

(** The course row of an attempt, as each pipeline inserts it. *)
Definition single_course_row (lesson : GeneratedLesson) (org : uuid) (id : uuid) : CourseRow :=
  {| crs_id := id; crs_organization_id := org; crs_collection_id := None;
     crs_title := course_title (course lesson);
     crs_description := course_description (course lesson);
     crs_course_code := None; crs_iata_category := None;
     crs_total_duration_minutes := None;
     crs_status := CourseDraft; crs_notebook_id := None |}.

Definition collection_course_row (lesson : GeneratedLesson) (cid org : uuid) (id : uuid)
  : CourseRow :=
  {| crs_id := id; crs_organization_id := org; crs_collection_id := Some cid;
     crs_title := course_title (course lesson);
     crs_description := course_description (course lesson);
     crs_course_code := course_code (course lesson);
     crs_iata_category := iata_category (course lesson);
     crs_total_duration_minutes := total_duration_minutes (course lesson);
     crs_status := CourseDraft; crs_notebook_id := None |}.

(** ** Sample lessons, worlds and stores *)

Definition demo_activity : LessonActivity :=
  {| instructionMethod := "lecture"; activity_description := "Walk through the checklist";
     activity_duration := "15 minutes"; resources := "Slides" |}.

Definition demo_objective (tags : list uuid) : LessonObjective :=
  {| objective_kind := terminal; content := "Apply the ramp safety checklist";
     bloomsLevel := apply_level; sourceIds := tags; activities := [demo_activity] |}.

Definition demo_module (tags : list uuid) : LessonModule :=
  {| moduleNumber := 1%Z; module_title := "Ramp safety"; module_description := "Basics";
     module_duration := "60 minutes"; objectives := [demo_objective tags] |}.

Definition demo_course : LessonCourse :=
  {| course_title := "Ground operations"; course_description := "Overview";
     course_code := None; iata_category := None; total_duration_minutes := None |}.

Definition demo_lesson (tags : list uuid) : GeneratedLesson :=
  {| course := demo_course; lesson_modules := [demo_module tags]; metadata := None |}.

(** A lesson tree without modules. *)
Definition empty_lesson : GeneratedLesson :=
  {| course := demo_course; lesson_modules := []; metadata := None |}.

Definition demo_synthesis (strategy : string) : CrossSourceSynthesis :=
  {| synthesisStrategy := strategy; synthesis_body := "{}" |}.

(** A world in which every service answers and the store accepts every
    statement; [lesson] is what the lesson generators return. *)
Definition quiet_world (lesson : GeneratedLesson) : World :=
  {| db_fault := fun _ _ => None;
     extractVideoId := fun _ => Some "dQw4w9WgXcQ";
     oembed_title := fun _ => Some "Ramp safety video";
     youtube_transcript := fun _ =>
       Ok [{| item_text := "welcome"; item_duration := 4000; item_offset := 0 |}];
     openrouter_analysis_video := fun _ => Ok "{}";
     openrouter_analysis_document := fun _ _ _ => Ok "{}";
     openrouter_lesson := fun _ _ => Ok lesson;
     gemini_video := fun _ _ => Ok "{}";
     gemini_document := fun _ _ _ => Ok "{}";
     claude_lesson_text := fun _ _ => Ok "{}";
     parse_lesson := fun _ => Ok lesson;
     claude_synthesis := fun _ => Ok (demo_synthesis "fresh");
     claude_collection_lesson := fun _ _ _ => Ok lesson;
     config_gemini_model := "gemini";
     config_claude_model := "claude";
     config_ai_analysisModel := "openrouter" |}.

(** A world in which the network is down: every external service fails,
    the store accepts every statement. *)
Definition offline_world : World :=
  {| db_fault := fun _ _ => None;
     extractVideoId := fun _ => Some "dQw4w9WgXcQ";
     oembed_title := fun _ => None;
     youtube_transcript := fun _ => Err (JsError "network down");
     openrouter_analysis_video := fun _ => Err (JsError "network down");
     openrouter_analysis_document := fun _ _ _ => Err (JsError "network down");
     openrouter_lesson := fun _ _ => Err (JsError "network down");
     gemini_video := fun _ _ => Err (JsError "network down");
     gemini_document := fun _ _ _ => Err (JsError "network down");
     claude_lesson_text := fun _ _ => Err (JsError "network down");
     parse_lesson := fun _ => Err (JsError "Unexpected end of JSON input");
     claude_synthesis := fun _ => Err (JsError "network down");
     claude_collection_lesson := fun _ _ _ => Err (JsError "network down");
     config_gemini_model := "gemini";
     config_claude_model := "claude";
     config_ai_analysisModel := "openrouter" |}.

(** A store holding one collection, which is ready. *)
Definition demo_collection : CollectionRow :=
  {| col_id := 10; col_organization_id := 3; col_title := "Ramp safety";
     col_status := ColReady; col_analysis_completed_at := Some 4 |}.

Definition collection_state : State :=
  mkState [] [] [demo_collection] [] [] [] [] [] [] [] 11 5 [].

(** The same world with another fault oracle. *)
Definition with_faults (f : op_kind -> timestamp -> option string) (w : World) : World :=
  {| db_fault := f;
     extractVideoId := extractVideoId w;
     oembed_title := oembed_title w;
     youtube_transcript := youtube_transcript w;
     openrouter_analysis_video := openrouter_analysis_video w;
     openrouter_analysis_document := openrouter_analysis_document w;
     openrouter_lesson := openrouter_lesson w;
     gemini_video := gemini_video w;
     gemini_document := gemini_document w;
     claude_lesson_text := claude_lesson_text w;
     parse_lesson := parse_lesson w;
     claude_synthesis := claude_synthesis w;
     claude_collection_lesson := claude_collection_lesson w;
     config_gemini_model := config_gemini_model w;
     config_claude_model := config_claude_model w;
     config_ai_analysisModel := config_ai_analysisModel w |}.

(** The store refuses the insert issued at time [t] and nothing else. *)
Definition insert_fails_at (t : timestamp) : op_kind -> timestamp -> option string :=
  fun k n => match k with
             | OpInsert => if Nat.eqb n t then Some "connection lost" else None
             | _ => None
             end.

(** The store refuses every update and nothing else. *)
Definition updates_fail : op_kind -> timestamp -> option string :=
  fun k _ => match k with OpUpdate => Some "connection lost" | _ => None end.

(** All-or-nothing, as the specification asks of a failed attempt. *)
Definition all_or_nothing {A} (attempt : M A) (s : State) : Prop :=
  forall e, fst (attempt s) = Err e -> graph_rows (snd (attempt s)) = graph_rows s.

(** ** Pre- and postconditions, external calls *)

(** From a state that satisfies [P] the computation reaches a result and a
    state that satisfy [Q]. *)
Definition hoare {A} (P : State -> Prop) (m : M A) (Q : Result A -> State -> Prop) : Prop :=
  forall s, P s -> Q (fst (m s)) (snd (m s)).

(** A service call answers without touching the state. *)
Definition external {A} (m : M A) : Prop := exists r, forall s, m s = (r, s).

(** The services of an orchestrator are external calls. *)
Record external_services (ai : LessonServices) : Prop := {
  external_analyzeVideo : forall u i t, external (ai_analyzeVideo ai u i t);
  external_analyzeDocument : forall b n m i, external (ai_analyzeDocument ai b n m i);
  external_generateLesson : forall a t, external (ai_generateLesson ai a t)
}.

(** ** Statuses, analyses, links *)

Definition has_analysis (s : State) (sid : uuid) : Prop :=
  exists a, In a (source_analyses s) /\ an_source_id a = sid.

(** Invariant 5 of the data model. *)
Definition completed_iff_analysis (s : State) : Prop :=
  forall r, In r (sources s) -> (src_status r = SrcCompleted <-> has_analysis s (src_id r)).

(** Its direction from status to analysis. *)
Definition completed_have_analysis (s : State) : Prop :=
  forall r, In r (sources s) -> src_status r = SrcCompleted -> has_analysis s (src_id r).

(** Analyses are kept, and a completed source was completed before. *)
Definition no_new_completed (s s' : State) : Prop :=
  (forall a, In a (source_analyses s) -> In a (source_analyses s')) /\
  (forall r, In r (sources s') -> src_status r = SrcCompleted ->
             exists r0, In r0 (sources s) /\ src_id r0 = src_id r /\
                        src_status r0 = SrcCompleted).

(** The new source is analysed when it is a video or comes with a file. *)
Definition analysable (ty : SourceType) (buf : option Buffer) (name : option string) : Prop :=
  ty = youtube \/ (buf <> None /\ falsy name = false).

(** The statuses of the sources, row by row. *)
Definition statuses (s : State) : list SourceStatus := map src_status (sources s).

(** What a failed addSourceToCollection leaves in the sources table:
    either nothing new, or one more row, in 'processing'. *)
Definition left_processing (s : State) (r : Result uuid) (s' : State) : Prop :=
  match r with
  | Ok _ => True
  | Err _ => sources s' = sources s \/ statuses s' = statuses s ++ [SrcProcessing]
  end.

(** The analysis rows of a source. *)
Definition analyses_of (s : State) (sid : uuid) : list AnalysisRow :=
  filter (fun a => Nat.eqb (an_source_id a) sid) (source_analyses s).

Definition missing_analysis_warning (sid : uuid) : string :=
  "Source " +++ string_of_nat sid +++ " missing analysis, skipping".

Definition as_SourceAnalysis (sid : uuid) (a : AnalysisRow) : SourceAnalysis :=
  {| sourceId := sid; analysisData := an_data a; modelUsed := an_model_used a |}.

(** The most recent analysis row of a source. *)
Definition latest_analysis (s : State) (sid : uuid) : option AnalysisRow :=
  hd_error (order_desc_limit1 (fun a => Z.of_nat (an_created_at a)) (analyses_of s sid)).

(** What the specification asks of the synthesis input: for every member
    that has an analysis its most recent one, in the order of the members. *)
Definition most_recent_analyses (s : State) (members : list SourceRow)
    : list SourceAnalysis :=
  flat_map (fun m => match latest_analysis s (src_id m) with
                     | Some a => [as_SourceAnalysis (src_id m) a]
                     | None => []
                     end)
           members.

(** The analysis of a member as the lookup issued at time [t] hands it
    over: none when the store refuses that lookup. *)
Definition looked_up (w : World) (s : State) (t : timestamp) (m : SourceRow)
    : option SourceAnalysis :=
  match db_fault w OpSelect t with
  | Some _ => None
  | None => option_map (as_SourceAnalysis (src_id m)) (latest_analysis s (src_id m))
  end.

(** The lookups are issued one member after the other, from time [t] on:
    the analyses handed over, and the warnings for the members skipped. *)
Fixpoint synthesis_input (w : World) (s : State) (t : timestamp) (members : list SourceRow)
    : list SourceAnalysis :=
  match members with
  | [] => []
  | m :: rest =>
      match looked_up w s t m with
      | Some a => a :: synthesis_input w s (S t) rest
      | None => synthesis_input w s (S t) rest
      end
  end.

Fixpoint skipped_with_warning (w : World) (s : State) (t : timestamp)
         (members : list SourceRow) : list string :=
  match members with
  | [] => []
  | m :: rest =>
      match looked_up w s t m with
      | Some _ => skipped_with_warning w s (S t) rest
      | None => missing_analysis_warning (src_id m) :: skipped_with_warning w s (S t) rest
      end
  end.

(** No member has more than one analysis row: the pipelines analyse a source
    once, in the call that creates it. *)
Definition analysed_at_most_once (s : State) (members : list SourceRow) : Prop :=
  forall m, In m members -> List.length (analyses_of s (src_id m)) <= 1.

(** The synthesis rows of a collection. *)
Definition analyses_of_collection (s : State) (cid : uuid) : list CollectionAnalysisRow :=
  filter (fun a => Nat.eqb (ca_collection_id a) cid) (collection_analyses s).

(** The sources linked to a collection. *)
Definition member_ids (s : State) (cid : uuid) : list uuid :=
  map cs_source_id
      (filter (fun cs => Nat.eqb (cs_collection_id cs) cid) (collection_sources s)).

(** Invariant 6: a synthesis is current when it postdates every content
    analysis of every member source. *)
Definition is_current (s : State) (cid : uuid) (a : CollectionAnalysisRow) : bool :=
  forallb (fun x => an_created_at x <? ca_created_at a)%nat
          (filter (fun x => existsb (Nat.eqb (an_source_id x)) (member_ids s cid))
                  (source_analyses s)).

(** C5 as stated: an analysis that generation reuses is current. *)
Definition reuses_only_current (w : World) (cid : uuid) (s : State) : Prop :=
  forall a, In a (collection_analyses s) ->
            fst (CollectionOrchestrator.ensureCollectionAnalysis w cid s) = Ok a ->
            is_current s cid a = true.

(** A collection synthesised at time 5, to which a source analysed at
    time 9 was added afterwards. *)
Definition stale_analysis : CollectionAnalysisRow :=
  {| ca_id := 40; ca_collection_id := 10; ca_type := "cross_source_synthesis";
     ca_data := demo_synthesis "stale"; ca_sources_analyzed := 1;
     ca_model_used := "claude"; ca_created_at := 5 |}.

Definition member_source (id : uuid) (t : timestamp) : SourceRow :=
  {| src_id := id; src_organization_id := 3; src_type := pdf; src_url := "manual.pdf";
     src_title := "Manual"; src_status := SrcCompleted; src_transcript := None;
     src_duration_seconds := None; src_updated_at := t |}.

Definition member_analysis (id sid : uuid) (t : timestamp) : AnalysisRow :=
  {| an_id := id; an_source_id := sid; an_type := "gemini_document"; an_data := "{}";
     an_model_used := "gemini"; an_created_at := t |}.

Definition stale_state : State :=
  mkState
    [member_source 20 1; member_source 21 9]
    [member_analysis 30 20 1; member_analysis 31 21 9]
    [ {| col_id := 10; col_organization_id := 3; col_title := "Ramp safety";
         col_status := ColBuilding; col_analysis_completed_at := Some 6 |} ]
    [ {| cs_id := 22; cs_collection_id := 10; cs_source_id := 20; cs_order_index := 0%Z |};
      {| cs_id := 23; cs_collection_id := 10; cs_source_id := 21; cs_order_index := 1%Z |} ]
    [stale_analysis]
    [] [] [] [] [] 50 12 [].

(** A lesson generator that titles the course after the synthesis it was given. *)
Definition titled_by_synthesis (w : World) : World :=
  {| db_fault := db_fault w;
     extractVideoId := extractVideoId w;
     oembed_title := oembed_title w;
     youtube_transcript := youtube_transcript w;
     openrouter_analysis_video := openrouter_analysis_video w;
     openrouter_analysis_document := openrouter_analysis_document w;
     openrouter_lesson := openrouter_lesson w;
     gemini_video := gemini_video w;
     gemini_document := gemini_document w;
     claude_lesson_text := claude_lesson_text w;
     parse_lesson := parse_lesson w;
     claude_synthesis := claude_synthesis w;
     claude_collection_lesson := fun _ _ synthesis =>
       Ok {| course := {| course_title := synthesisStrategy synthesis;
                          course_description := "Overview"; course_code := None;
                          iata_category := None; total_duration_minutes := None |};
             lesson_modules := [demo_module []]; metadata := None |};
     config_gemini_model := config_gemini_model w;
     config_claude_model := config_claude_model w;
     config_ai_analysisModel := config_ai_analysisModel w |}.

(** The order indices in use in a collection. *)
Definition order_indices (s : State) (cid : uuid) : list Z :=
  map cs_order_index
      (filter (fun cs => Nat.eqb (cs_collection_id cs) cid) (collection_sources s)).

(** The greatest index in use plus one, and zero when none is in use. *)
Definition is_max_plus_one (indices : list Z) (idx : Z) : Prop :=
  match indices with
  | [] => idx = 0%Z
  | _ :: _ => exists m, In m indices /\ (forall x, In x indices -> (x <= m)%Z) /\
                        idx = (m + 1)%Z
  end.

(** [Number.isSafeInteger]: an integer that a number of JavaScript holds
    exactly, together with its successor. *)
Definition safe_integer (i : Z) : Prop := (Z.abs i < 2 ^ 53)%Z.

Definition safe_indices (s : State) (cid : uuid) : Prop :=
  forall i, In i (order_indices s cid) -> safe_integer i.

Definition source_ids (s : State) : list uuid := map src_id (sources s).

(** The tables that addSourceToCollection reads before it links. *)
Definition links_and_collections (s : State) :=
  (collection_sources s, source_collections s).

Definition links_collections_and_ids (s : State) :=
  (collection_sources s, source_collections s, source_ids s).

(** What a successful addSourceToCollection has done to collection [cid]
    of state [s]. *)
Definition linked_at_next_index (s : State) (cid : uuid) (sid : uuid) (s' : State) : Prop :=
  (exists id idx,
      collection_sources s' =
      collection_sources s ++
        [{| cs_id := id; cs_collection_id := cid; cs_source_id := sid;
            cs_order_index := idx |}] /\
      is_max_plus_one (order_indices s cid) idx) /\
  In sid (source_ids s') /\
  (exists c, In c (source_collections s') /\ col_id c = cid) /\
  (forall c, In c (source_collections s') -> col_id c = cid -> col_status c = ColBuilding).

(** One link row has been appended for the source, at the next index. *)
Definition link_appended (s : State) (cid : uuid) (sid : uuid) (s' : State) : Prop :=
  exists id idx,
    collection_sources s' =
    collection_sources s ++
      [{| cs_id := id; cs_collection_id := cid; cs_source_id := sid;
          cs_order_index := idx |}] /\
    is_max_plus_one (order_indices s cid) idx.

(** What the specification asks of every successful addSource. *)
Definition links_at_next_index (attempt : M uuid) (cid : uuid) (s : State) : Prop :=
  forall sid, fst (attempt s) = Ok sid -> linked_at_next_index s cid sid (snd (attempt s)).

(** The store refuses the read issued at time [t] and nothing else. *)
Definition select_fails_at (t : timestamp) : op_kind -> timestamp -> option string :=
  fun k n => match k with
             | OpSelect => if Nat.eqb n t then Some "connection lost" else None
             | _ => None
             end.

(** A ready collection whose links carry the indices 0 and 5, a source in
    between having been removed. *)
Definition gapped_state : State :=
  mkState
    [member_source 20 1; member_source 21 2]
    [member_analysis 30 20 1; member_analysis 31 21 2]
    [demo_collection]
    [ {| cs_id := 22; cs_collection_id := 10; cs_source_id := 20; cs_order_index := 0%Z |};
      {| cs_id := 23; cs_collection_id := 10; cs_source_id := 21; cs_order_index := 5%Z |} ]
    [] [] [] [] [] [] 50 12 [].

(** The collection of [gapped_state] with 2^53 as its second index, which
    only a column wider than 53 bits can hold. *)
Definition unsafe_index_state : State :=
  mkState
    [member_source 20 1; member_source 21 2]
    [member_analysis 30 20 1; member_analysis 31 21 2]
    [demo_collection]
    [ {| cs_id := 22; cs_collection_id := 10; cs_source_id := 20; cs_order_index := 0%Z |};
      {| cs_id := 23; cs_collection_id := 10; cs_source_id := 21;
         cs_order_index := (2 ^ 53)%Z |} ]
    [] [] [] [] [] [] 50 12 [].

(** The collection exists and every row that carries its id has the status. *)
Definition collection_status_is (s : State) (cid : uuid) (st : CollectionStatus) : Prop :=
  (exists c, In c (source_collections s) /\ col_id c = cid) /\
  (forall c, In c (source_collections s) -> col_id c = cid -> col_status c = st).

Definition collections_and_syntheses (s : State) :=
  (source_collections s, collection_analyses s).

(** What analyzeCollection has done to collection [cid] of state [s]. *)
Definition analysis_outcome (s : State) (cid : uuid) (r : Result CollectionAnalysisRow)
           (s' : State) : Prop :=
  match r with
  | Ok a =>
      collection_analyses s' = collection_analyses s ++ [a] /\
      ca_collection_id a = cid /\
      collection_status_is s' cid ColReady /\
      (forall c, In c (source_collections s') -> col_id c = cid ->
                 col_analysis_completed_at c = Some (S (ca_created_at a)))
  | Err _ =>
      collection_analyses s' = collection_analyses s /\
      collection_status_is s' cid ColFailed
  end.

(** The synthesis rows after analyzeCollection: the returned row appended,
    or none. *)
Definition analysis_rows (s : State) (cid : uuid) (r : Result CollectionAnalysisRow)
           (s' : State) : Prop :=
  match r with
  | Ok a => collection_analyses s' = collection_analyses s ++ [a] /\ ca_collection_id a = cid
  | Err _ => collection_analyses s' = collection_analyses s
  end.

(** The collections as the status write that ends analyzeCollection leaves
    them when the store applies it. *)
Definition status_written (s : State) (cid : uuid) (r : Result CollectionAnalysisRow)
    : list CollectionRow :=
  update_where (fun c => Nat.eqb (col_id c) cid)
    match r with
    | Ok a => CollectionAnalyzer.collection_with_status ColReady (Some (S (ca_created_at a)))
    | Err _ => CollectionAnalyzer.collection_with_status ColFailed None
    end
    (source_collections s).

(** Invariants 2 and 3 of the data model, on a lesson tree. *)
Definition well_formed (lesson : GeneratedLesson) : Prop :=
  lesson_modules lesson <> [] /\
  forall m, In m (lesson_modules lesson) ->
            objectives m <> [] /\
            exists o, In o (objectives m) /\ objective_kind o = terminal.

(** Every source-id tag of the tree names a member of the collection. *)
Definition tags_are_members (s : State) (cid : uuid) (lesson : GeneratedLesson) : Prop :=
  forall m o t, In m (lesson_modules lesson) -> In o (objectives m) -> In t (sourceIds o) ->
                In t (member_ids s cid).

(** The tree with other tags. *)
Definition retag_objective (tags : LessonObjective -> list uuid) (o : LessonObjective)
  : LessonObjective :=
  {| objective_kind := objective_kind o; content := content o;
     bloomsLevel := bloomsLevel o; sourceIds := tags o; activities := activities o |}.

Definition retag_module (tags : LessonObjective -> list uuid) (m : LessonModule)
  : LessonModule :=
  {| moduleNumber := moduleNumber m; module_title := module_title m;
     module_description := module_description m; module_duration := module_duration m;
     objectives := map (retag_objective tags) (objectives m) |}.

Definition retag (tags : LessonObjective -> list uuid) (lesson : GeneratedLesson)
  : GeneratedLesson :=
  {| course := course lesson;
     lesson_modules := map (retag_module tags) (lesson_modules lesson);
     metadata := metadata lesson |}.

(** The steps of a single-source run that come before the generation of the
    lesson, and what they hand to the lesson service: the payload of the
    analysis and the title of the source. *)
Definition stepsBeforeGeneration (w : World) (ai : LessonServices) (source : SourceRow)
    (sourceUrl : string) (sourceType : SourceType) (fileBuffer : option Buffer)
    (fileName : option string) : M (json * string) :=
  PipelineOrchestrator.updateSourceStatus w (src_id source) SrcProcessing ;;;
  analysis <- PipelineOrchestrator.analyzeSource w ai (src_id source) sourceUrl sourceType
                fileBuffer fileName ;;
  PipelineOrchestrator.saveAnalysis w (src_id source) analysis ;;;
  title <- PipelineOrchestrator.getSourceTitle w (src_id source) ;;
  ret (analysisData analysis, title).

Definition generation_input (w : World) (ai : LessonServices) (sourceUrl : string)
    (sourceType : SourceType) (organizationId : uuid) (fileBuffer : option Buffer)
    (fileName : option string) : M (json * string) :=
  source <- PipelineOrchestrator.createSource w sourceUrl sourceType organizationId ;;
  stepsBeforeGeneration w ai source sourceUrl sourceType fileBuffer fileName.

(** C2 as stated, for the collection variant: a run that persists a
    course has generated a well-formed tree whose tags name members. *)
Definition persists_only_validated (w : World) (cid org : uuid) (s : State) : Prop :=
  forall courseId lesson,
    fst (CollectionOrchestrator.processCollectionToLesson w cid org s)
    = Ok (courseId, lesson) ->
    well_formed lesson /\ tags_are_members s cid lesson.

(** Every row that carries the id has the status, and there is one. *)
Definition source_status_is (s : State) (sid : uuid) (st : SourceStatus) : Prop :=
  In sid (source_ids s) /\
  (forall r, In r (sources s) -> src_id r = sid -> src_status r = st).

(** ** The rows of a materialized lesson tree *)

(** The rows appended to a table. *)
Definition added_since {T} (before after : list T) : list T :=
  skipn (List.length before) after.

Definition activity_row_matches (oid : uuid) (j : nat) (a : LessonActivity) (r : ActivityRow)
  : Prop :=
  act_learning_objective_id r = oid /\ act_order_index r = j /\
  act_instruction_method r = instructionMethod a /\
  act_description r = activity_description a /\
  act_duration r = activity_duration a /\ act_resources r = resources a.

(** One row for every activity, in order, numbered from [start]. *)
Fixpoint all_activity_rows (oid : uuid) (start : nat) (acts : list LessonActivity)
         (rows : list ActivityRow) : Prop :=
  match acts, rows with
  | [], [] => True
  | a :: acts', r :: rows' =>
      activity_row_matches oid start a r /\ all_activity_rows oid (S start) acts' rows'
  | _, _ => False
  end.

(** A row for some of the activities, in order, each under the number of
    its activity. *)
Fixpoint some_activity_rows (oid : uuid) (start : nat) (acts : list LessonActivity)
         (rows : list ActivityRow) : Prop :=
  match acts with
  | [] => rows = []
  | a :: acts' =>
      some_activity_rows oid (S start) acts' rows \/
      exists r rows', rows = r :: rows' /\ activity_row_matches oid start a r /\
                      some_activity_rows oid (S start) acts' rows'
  end.

Definition objective_row_matches (mid : uuid) (i : nat) (o : LessonObjective)
           (r : ObjectiveRow) : Prop :=
  obj_module_id r = mid /\ obj_order_index r = i /\
  obj_objective_type r = objective_kind o /\ obj_content r = content o /\
  obj_blooms_level r = bloomsLevel o.

Definition module_row_matches (courseId : uuid) (md : LessonModule) (r : ModuleRow) : Prop :=
  mod_course_id r = courseId /\ mod_module_number r = moduleNumber md /\
  mod_title r = module_title md /\ mod_description r = module_description md /\
  mod_duration r = module_duration md.

Section TreeRows.
(** How the activity rows of one objective relate to its activities. *)
Variable activity_rows : uuid -> nat -> list LessonActivity -> list ActivityRow -> Prop.

(** One row for every objective of a module, in order, numbered from
    [start], and under the id of each row the rows of its activities. *)
Fixpoint objective_rows (mid : uuid) (start : nat) (objs : list LessonObjective)
         (orows : list ObjectiveRow) (arows : list ActivityRow) : Prop :=
  match objs, orows with
  | [], [] => arows = []
  | o :: objs', r :: orows' =>
      objective_row_matches mid start o r /\
      exists mine rest,
        arows = mine ++ rest /\
        activity_rows (obj_id r) 0 (activities o) mine /\
        objective_rows mid (S start) objs' orows' rest
  | _, _ => False
  end.

(** One row for every module of a course, in order, and under the id of
    each row the rows of its objectives. *)
Fixpoint module_rows (courseId : uuid) (mds : list LessonModule) (mrows : list ModuleRow)
         (orows : list ObjectiveRow) (arows : list ActivityRow) : Prop :=
  match mds, mrows with
  | [], [] => orows = [] /\ arows = []
  | md :: mds', r :: mrows' =>
      module_row_matches courseId md r /\
      exists os os' acts acts',
        orows = os ++ os' /\ arows = acts ++ acts' /\
        objective_rows (mod_id r) 0 (objectives md) os acts /\
        module_rows courseId mds' mrows' os' acts'
  | _, _ => False
  end.
End TreeRows.

(** A mapping row for some of the module rows, in order, each linking the
    source to its module row. *)
Fixpoint mapping_rows (sid : uuid) (mrows : list ModuleRow) (maps : list MappingRow) : Prop :=
  match mrows with
  | [] => maps = []
  | m :: mrows' =>
      mapping_rows sid mrows' maps \/
      exists r maps', maps = r :: maps' /\ map_source_id r = sid /\
                      map_module_id r = mod_id m /\ mapping_rows sid mrows' maps'
  end.

(** The objectives of a lesson tree, module after module. *)
Definition all_objectives (lesson : GeneratedLesson) : list LessonObjective :=
  flat_map objectives (lesson_modules lesson).

(** The sibling numbers of a lesson tree: 0, 1, ... under every parent. *)
Definition objective_numbers (lesson : GeneratedLesson) : list nat :=
  flat_map (fun m => seq 0 (List.length (objectives m))) (lesson_modules lesson).

Definition activity_numbers (lesson : GeneratedLesson) : list nat :=
  flat_map (fun o => seq 0 (List.length (activities o))) (all_objectives lesson).

(** ** Groups of tables *)

(** The tables of collections, of their links and of their syntheses. *)
Definition collection_tables (s : State) :=
  (source_collections s, collection_sources s, collection_analyses s).

(** The tables of sources and of their analyses. *)
Definition source_tables (s : State) := (sources s, source_analyses s).

(** The rows under the courses: modules, mappings, objectives, activities. *)
Definition lesson_rows (s : State) :=
  (modules s, lesson_source_mappings s, learning_objectives s, learning_activities s).

(** What addSourceToCollection has no business with. *)
Definition lessons_and_syntheses (s : State) := (graph_rows s, collection_analyses s).

(** What analyzeCollection has no business with. *)
Definition sources_links_and_lessons (s : State) :=
  (source_tables s, collection_sources s, graph_rows s).

(** What processCollectionToLesson has no business with. *)
Definition sources_links_and_mappings (s : State) :=
  (source_tables s, collection_sources s, lesson_source_mappings s).

(** What the notebook service has no business with. *)
Definition all_but_courses (s : State) :=
  (source_tables s, collection_tables s, lesson_rows s).

(** A course row, its notebook id set aside. *)
Definition course_without_notebook (c : CourseRow) : CourseRow :=
  {| crs_id := crs_id c; crs_organization_id := crs_organization_id c;
     crs_collection_id := crs_collection_id c; crs_title := crs_title c;
     crs_description := crs_description c; crs_course_code := crs_course_code c;
     crs_iata_category := crs_iata_category c;
     crs_total_duration_minutes := crs_total_duration_minutes c;
     crs_status := crs_status c; crs_notebook_id := None |}.

Definition courses_without_notebooks (s : State) :=
  map course_without_notebook (courses s).

(** ** The input of a synthesis *)

(** The analyses that ensureSourceAnalyses finds for the members: the
    analysis of every member that has exactly one analysis row. *)
Definition usable_analyses (s : State) (members : list SourceRow) : list SourceAnalysis :=
  flat_map (fun m => match analyses_of s (src_id m) with
                     | [a] => [as_SourceAnalysis (src_id m) a]
                     | _ => []
                     end)
           members.

(** The two steps of analyzeCollection that build the synthesis. *)
Definition synthesis_of_members (w : World) (members : list SourceRow)
  : M CrossSourceSynthesis :=
  analyses <- CollectionAnalyzer.ensureSourceAnalyses w (map Some members) ;;
  CollectionAnalyzer.synthesizeAcrossAnalyses w analyses (map Some members).

(** Every analysis of the prompt stands under the title of its own source. *)
Definition aligned (prompt : list (SourceAnalysis * SourceRow)) : Prop :=
  Forall (fun p => sourceId (fst p) = src_id (snd p)) prompt.

(** A collection of two members of which the first has no analysis. *)
Definition unanalysed_first_state : State :=
  mkState
    [member_source 20 1; member_source 21 2]
    [member_analysis 31 21 2]
    [demo_collection]
    [ {| cs_id := 22; cs_collection_id := 10; cs_source_id := 20; cs_order_index := 0%Z |};
      {| cs_id := 23; cs_collection_id := 10; cs_source_id := 21; cs_order_index := 1%Z |} ]
    [] [] [] [] [] [] 50 12 [].

(** ** Video ids *)

(** Eleven characters of the id alphabet. *)
Definition is_video_id (id : string) : Prop :=
  String.length id = 11 /\ Forall (fun c => YouTubeUrl.idChar c = true) (list_ascii_of_string id).

(** A world that reads URLs with the patterns of the services. *)
Definition parsing_world (w : World) : World :=
  {| db_fault := db_fault w;
     extractVideoId := YouTubeUrl.extractVideoId;
     oembed_title := oembed_title w;
     youtube_transcript := youtube_transcript w;
     openrouter_analysis_video := openrouter_analysis_video w;
     openrouter_analysis_document := openrouter_analysis_document w;
     openrouter_lesson := openrouter_lesson w;
     gemini_video := gemini_video w;
     gemini_document := gemini_document w;
     claude_lesson_text := claude_lesson_text w;
     parse_lesson := parse_lesson w;
     claude_synthesis := claude_synthesis w;
     claude_collection_lesson := claude_collection_lesson w;
     config_gemini_model := config_gemini_model w;
     config_claude_model := config_claude_model w;
     config_ai_analysisModel := config_ai_analysisModel w |}.

(** ** Answers of the route handlers *)

(** Every table of the store. *)
Definition all_tables (s : State) := (source_tables s, collection_tables s, graph_rows s).

(** The handler turned the request down. *)
Definition refusal (resp : HttpResponse) : Prop :=
  http_status resp = 400 \/ http_status resp = 401 \/ http_status resp = 404.

(** What running a handler from state [s] must establish: a request
    turned down has changed no table. *)
Definition refusal_post (s : State) (r : Result HttpResponse) (s1 : State) : Prop :=
  match r with
  | Ok resp => refusal resp -> all_tables s1 = all_tables s
  | Err _ => True
  end.

(** A session that sees every row. *)
Definition member_session (user org : uuid) : Session :=
  {| session_user := Some user; session_organization := Some org;
     sees_collection := fun _ => true; sees_link := fun _ => true |}.

Definition anonymous_session : Session :=
  {| session_user := None; session_organization := None;
     sees_collection := fun _ => true; sees_link := fun _ => true |}.

Definition document_request (url : string) : SourceRequest :=
  {| req_sourceUrl := Some url; req_sourceType := Some "pdf";
     req_fileBuffer := None; req_fileName := None |}.

(** Base64 is not looked into. *)
Definition no_decoding (text : string) : Buffer := [].

(** A collection of one member, not yet synthesised. *)
Definition single_member_state : State :=
  mkState
    [member_source 20 1]
    [member_analysis 30 20 1]
    [demo_collection]
    [ {| cs_id := 22; cs_collection_id := 10; cs_source_id := 20; cs_order_index := 0%Z |} ]
    [] [] [] [] [] [] 50 12 [].

(** What a request that cannot be served must leave alone. *)
Definition analyses_and_lessons (s : State) := (source_analyses s, graph_rows s).

(** The handler answered otherwise than with status 200 and wrote no
    analysis and no lesson row since [s]. *)
Definition not_served (s : State) (r : Result HttpResponse) (s1 : State) : Prop :=
  analyses_and_lessons s1 = analyses_and_lessons s /\
  match r with
  | Ok resp => http_status resp <> 200
  | Err _ => True
  end.

(** ** Sources are analysed once *)

(** The analysis rows are kept and the id generator has not gone back. *)
Definition keeps_analyses (s s' : State) : Prop :=
  source_analyses s' = source_analyses s /\ next_id s <= next_id s'.

(** No source has two analysis rows, and every analysis row is of a source
    whose id the store has given out. *)
Definition analysed_once (s : State) : Prop :=
  (forall sid, List.length (analyses_of s sid) <= 1) /\
  (forall a, In a (source_analyses s) -> an_source_id a < next_id s).

(** The source has its id from the store and is not analysed yet. *)
Definition awaits_analysis (sid : uuid) (s : State) : Prop :=
  analysed_once s /\ analyses_of s sid = [] /\ sid < next_id s.

(** * Reasoning about service code *)

(** ** Relations that every step of a computation maintains *)

Section Preserves.
Context {R : State -> State -> Prop} {HR : StepRelation R}.

Lemma preserves_ret A (a : A) : preserves R (ret a).
Proof. intro s. apply step_refl. Qed.

Lemma preserves_throw A (e : exn) : preserves R (@throw A e).
Proof. intro s. apply step_refl. Qed.

Lemma preserves_call A (r : Result A) : preserves R (call r).
Proof. intro s. apply step_refl. Qed.

Lemma preserves_warn (line : string) : preserves R (console_warn line).
Proof. intro s. apply step_console, step_refl. Qed.

Lemma preserves_bind A B (m : M A) (k : A -> M B) :
  preserves R m -> (forall a, preserves R (k a)) -> preserves R (bind m k).
Proof.
  intros Hm Hk s. unfold bind. specialize (Hm s).
  destruct (m s) as [[a|e] s1]; simpl in *; [|exact Hm].
  eapply step_trans; [exact Hm | apply Hk].
Qed.

Lemma preserves_try_catch A (m : M A) (h : exn -> M A) :
  preserves R m -> (forall e, preserves R (h e)) -> preserves R (try_catch m h).
Proof.
  intros Hm Hh s. unfold try_catch. specialize (Hm s).
  destruct (m s) as [[a|e] s1]; simpl in *; [exact Hm|].
  eapply step_trans; [exact Hm | apply Hh].
Qed.

Lemma preserves_forEach A (xs : list A) (body : A -> M unit) :
  (forall x, preserves R (body x)) -> preserves R (forEach xs body).
Proof.
  intro Hb. induction xs as [|x xs IH]; simpl.
  - apply preserves_ret.
  - apply preserves_bind; [apply Hb | intros _; exact IH].
Qed.

Lemma preserves_forIndex A (xs : list A) (body : nat -> A -> M unit) :
  (forall i x, preserves R (body i x)) -> forall start, preserves R (forIndex start xs body).
Proof.
  intro Hb. induction xs as [|x xs IH]; intro start; simpl.
  - apply preserves_ret.
  - apply preserves_bind; [apply Hb | intros _; apply IH].
Qed.

Variable w : World.

Lemma preserves_insert T (add : T -> State -> State) (row : uuid -> timestamp -> T) :
  (forall s, R s (add (row (next_id s) (clock s)) s)) -> preserves R (insert w add row).
Proof.
  intros Hadd s. unfold insert.
  destruct (db_fault w OpInsert (clock s)); simpl.
  - apply step_tick, step_refl.
  - apply step_tick, step_id, Hadd.
Qed.

Lemma preserves_refused T (c : string) : preserves R (@refused w T c).
Proof. intro s. unfold refused; simpl. apply step_tick, step_refl. Qed.

Lemma preserves_update (f : timestamp -> State -> State) :
  (forall s, R s (f (clock s) s)) -> preserves R (update w f).
Proof.
  intros Hf s. unfold update.
  destruct (db_fault w OpUpdate (clock s)); simpl.
  - apply step_tick, step_refl.
  - apply step_tick, Hf.
Qed.

Lemma preserves_select T (q : State -> list T) : preserves R (select w q).
Proof.
  intro s. unfold select.
  destruct (db_fault w OpSelect (clock s)); simpl; apply step_tick, step_refl.
Qed.

Lemma preserves_single T (q : State -> list T) : preserves R (single w q).
Proof.
  intro s. unfold single.
  destruct (db_fault w OpSelect (clock s)); simpl; [apply step_tick, step_refl|].
  destruct (q s) as [|r [|r' l]]; simpl; apply step_tick, step_refl.
Qed.
End Preserves.

(** Breaks a computation into its statements, leaving what each insert
    or update has to establish. *)
Ltac preserve :=
  repeat first
    [ apply preserves_ret | apply preserves_throw | apply preserves_call
    | apply preserves_warn | apply preserves_select | apply preserves_single
    | apply preserves_refused
    | apply preserves_bind | apply preserves_try_catch
    | apply preserves_forEach | apply preserves_forIndex
    | apply preserves_insert | apply preserves_update
    | match goal with
      | |- preserves _ (match ?x with _ => _ end) => destruct x
      | |- preserves _ (if ?x then _ else _) => destruct x
      end
    | intro ].

(** ** Tables that a computation leaves alone *)

Ltac step_relation :=
  constructor; unfold same; simpl; intros; try congruence.

#[local] Instance same_sources : StepRelation (same sources).
Proof. step_relation. Qed.
#[local] Instance same_source_analyses : StepRelation (same source_analyses).
Proof. step_relation. Qed.
#[local] Instance same_source_collections : StepRelation (same source_collections).
Proof. step_relation. Qed.
#[local] Instance same_collection_sources : StepRelation (same collection_sources).
Proof. step_relation. Qed.
#[local] Instance same_collection_analyses : StepRelation (same collection_analyses).
Proof. step_relation. Qed.
#[local] Instance same_courses : StepRelation (same courses).
Proof. step_relation. Qed.

(** ** Materialization: what saveLesson writes *)

Lemma extends_refl T (l : list T) : extends l l.
Proof. exists []. now rewrite app_nil_r. Qed.

Lemma extends_trans T (l1 l2 l3 : list T) : extends l1 l2 -> extends l2 l3 -> extends l1 l3.
Proof. intros [a ->] [b ->]. exists (a ++ b). now rewrite app_assoc. Qed.

Lemma extends_snoc T (l : list T) (x : T) : extends l (l ++ [x]).
Proof. now exists [x]. Qed.

Lemma extends_In T (l l' : list T) (x : T) : extends l l' -> In x l -> In x l'.
Proof. intros [a ->] H. apply in_or_app. now left. Qed.

#[local] Instance graph_grows_step : StepRelation graph_grows.
Proof.
  constructor; unfold graph_grows; simpl; intros; try tauto.
  - repeat split; apply extends_refl.
  - repeat split; eapply extends_trans; try apply H; apply H0.
Qed.

#[local] Instance new_courses_are_drafts_step : StepRelation new_courses_are_drafts.
Proof.
  constructor; unfold new_courses_are_drafts; simpl; auto.
  intros s1 s2 s3 H12 H23 c Hc.
  destruct (H23 c Hc) as [Hc'|Hc']; auto.
Qed.

Section SaveLesson.
Variable w : World.

Lemma single_saveModule_courses courseId sid md :
  preserves (same courses) (PipelineOrchestrator.saveModule w courseId sid md).
Proof.
  unfold PipelineOrchestrator.saveModule, PipelineOrchestrator.saveObjective,
    PipelineOrchestrator.saveActivity.
  preserve; reflexivity.
Qed.

Lemma collection_saveModule_courses courseId md :
  preserves (same courses) (CollectionOrchestrator.saveModule w courseId md).
Proof.
  unfold CollectionOrchestrator.saveModule, CollectionOrchestrator.saveObjective,
    CollectionOrchestrator.saveActivity.
  preserve; reflexivity.
Qed.

Lemma single_saveLesson_grows lesson sid org :
  preserves graph_grows (PipelineOrchestrator.saveLesson w lesson sid org).
Proof.
  unfold PipelineOrchestrator.saveLesson, PipelineOrchestrator.saveModule,
    PipelineOrchestrator.saveObjective, PipelineOrchestrator.saveActivity.
  preserve; unfold graph_grows; simpl;
    repeat split; first [apply extends_snoc | apply extends_refl].
Qed.

Lemma collection_saveLesson_grows lesson cid org :
  preserves graph_grows (CollectionOrchestrator.saveLesson w lesson cid org).
Proof.
  unfold CollectionOrchestrator.saveLesson, CollectionOrchestrator.saveModule,
    CollectionOrchestrator.saveObjective, CollectionOrchestrator.saveActivity.
  preserve; unfold graph_grows; simpl;
    repeat split; first [apply extends_snoc | apply extends_refl].
Qed.

Lemma single_saveLesson_drafts lesson sid org :
  preserves new_courses_are_drafts (PipelineOrchestrator.saveLesson w lesson sid org).
Proof.
  unfold PipelineOrchestrator.saveLesson, PipelineOrchestrator.saveModule,
    PipelineOrchestrator.saveObjective, PipelineOrchestrator.saveActivity.
  preserve; simpl in *; auto.
  match goal with
  | H : In _ (_ ++ _) |- _ => apply in_app_or in H; destruct H as [H|[<-|[]]]; auto
  end.
Qed.

Lemma collection_saveLesson_drafts lesson cid org :
  preserves new_courses_are_drafts (CollectionOrchestrator.saveLesson w lesson cid org).
Proof.
  unfold CollectionOrchestrator.saveLesson, CollectionOrchestrator.saveModule,
    CollectionOrchestrator.saveObjective, CollectionOrchestrator.saveActivity.
  preserve; simpl in *; auto.
  match goal with
  | H : In _ (_ ++ _) |- _ => apply in_app_or in H; destruct H as [H|[<-|[]]]; auto
  end.
Qed.

(** Once the course insert is accepted the course row stays, whatever
    happens to the rest of the fan-out. *)
Lemma single_saveLesson_course lesson sid org s :
  db_fault w OpInsert (clock s) = None ->
  courses (snd (PipelineOrchestrator.saveLesson w lesson sid org s)) =
  courses s ++ [single_course_row lesson org (next_id s)].
Proof.
  intro Hf. unfold PipelineOrchestrator.saveLesson, bind at 1, insert. rewrite Hf. simpl.
  match goal with |- courses (snd (bind ?m ?k ?s1)) = _ =>
    pose proof (@preserves_bind _ same_courses _ _ m k) as P; specialize (P) end.
  rewrite P; [reflexivity| |intro; apply preserves_ret].
  apply preserves_forEach. intro. apply single_saveModule_courses.
Qed.

Lemma collection_saveLesson_course lesson cid org s :
  db_fault w OpInsert (clock s) = None ->
  courses (snd (CollectionOrchestrator.saveLesson w lesson cid org s)) =
  courses s ++ [collection_course_row lesson cid org (next_id s)].
Proof.
  intro Hf. unfold CollectionOrchestrator.saveLesson, bind at 1, insert. rewrite Hf. simpl.
  match goal with |- courses (snd (bind ?m ?k ?s1)) = _ =>
    pose proof (@preserves_bind _ same_courses _ _ m k) as P end.
  rewrite P; [reflexivity| |intro; apply preserves_ret].
  apply preserves_forEach. intro. apply collection_saveModule_courses.
Qed.
End SaveLesson.

(** * Materialization *)

(** C1, as stated, fails: when the module insert is refused, both
    pipelines return the error and leave the course row behind. *)
Lemma C1_counterexample :
  ~ all_or_nothing
      (PipelineOrchestrator.saveLesson
         (with_faults (insert_fails_at 1) (quiet_world (demo_lesson []))) (demo_lesson []) 7 3)
      emptyState /\
  ~ all_or_nothing
      (CollectionOrchestrator.saveLesson
         (with_faults (insert_fails_at 1) (quiet_world (demo_lesson []))) (demo_lesson []) 7 3)
      emptyState.
Proof.
  split; intro H;
    specialize (H _ eq_refl); vm_compute in H; discriminate H.
Qed.

(** C1 (amended): saveLesson has no compensating delete.  In both
    pipelines, once the course insert is accepted the course row of the
    attempt is in the store when saveLesson returns, with or without an
    error, and every table of the graph is the table before the call with
    rows appended. *)
Theorem C1_no_rollback w lesson sid cid org s :
  db_fault w OpInsert (clock s) = None ->
  (graph_grows s (snd (PipelineOrchestrator.saveLesson w lesson sid org s)) /\
   courses (snd (PipelineOrchestrator.saveLesson w lesson sid org s)) =
   courses s ++ [single_course_row lesson org (next_id s)]) /\
  (graph_grows s (snd (CollectionOrchestrator.saveLesson w lesson cid org s)) /\
   courses (snd (CollectionOrchestrator.saveLesson w lesson cid org s)) =
   courses s ++ [collection_course_row lesson cid org (next_id s)]).
Proof.
  intro Hf. repeat split;
    first [ apply single_saveLesson_grows | apply collection_saveLesson_grows
          | now apply single_saveLesson_course | now apply collection_saveLesson_course ].
Qed.

(** A failed attempt that leaves its course row. *)
Lemma C1_no_rollback_witness :
  fst (PipelineOrchestrator.saveLesson
         (with_faults (insert_fails_at 1) (quiet_world (demo_lesson []))) (demo_lesson []) 7 3
         emptyState) = Err (JsError "Failed to create module: connection lost") /\
  courses (snd (PipelineOrchestrator.saveLesson
         (with_faults (insert_fails_at 1) (quiet_world (demo_lesson []))) (demo_lesson []) 7 3
         emptyState)) = [single_course_row (demo_lesson []) 3 0].
Proof.
  split; [reflexivity|].
  apply (C1_no_rollback (with_faults (insert_fails_at 1) (quiet_world (demo_lesson [])))
           (demo_lesson []) 7 7 3 emptyState).
  reflexivity.
Defined.

(** C10: every course row that saveLesson adds, in either pipeline, is a
    draft, whatever the lesson tree holds; and the course whose id it
    returns is such a row. *)
Theorem C10_courses_inserted_as_draft w lesson sid cid org s :
  new_courses_are_drafts s (snd (PipelineOrchestrator.saveLesson w lesson sid org s)) /\
  new_courses_are_drafts s (snd (CollectionOrchestrator.saveLesson w lesson cid org s)) /\
  match fst (PipelineOrchestrator.saveLesson w lesson sid org s) with
  | Ok id => In (single_course_row lesson org id)
                (courses (snd (PipelineOrchestrator.saveLesson w lesson sid org s)))
  | Err _ => True
  end /\
  match fst (CollectionOrchestrator.saveLesson w lesson cid org s) with
  | Ok id => In (collection_course_row lesson cid org id)
                (courses (snd (CollectionOrchestrator.saveLesson w lesson cid org s)))
  | Err _ => True
  end.
Proof.
  split; [apply single_saveLesson_drafts|].
  split; [apply collection_saveLesson_drafts|].
  split.
  - destruct (db_fault w OpInsert (clock s)) eqn:Hf.
    + unfold PipelineOrchestrator.saveLesson, bind, insert. rewrite Hf. exact I.
    + rewrite (single_saveLesson_course w lesson sid org s Hf).
      unfold PipelineOrchestrator.saveLesson, bind, insert. rewrite Hf. cbn [error data].
      match goal with |- context [forEach ?l ?b ?s1] => destruct (forEach l b s1) as [[u|e] s2] end;
        simpl; [apply in_or_app; right; now left | exact I].
  - destruct (db_fault w OpInsert (clock s)) eqn:Hf.
    + unfold CollectionOrchestrator.saveLesson, bind, insert. rewrite Hf. exact I.
    + rewrite (collection_saveLesson_course w lesson cid org s Hf).
      unfold CollectionOrchestrator.saveLesson, bind, insert. rewrite Hf. cbn [error data].
      match goal with |- context [forEach ?l ?b ?s1] => destruct (forEach l b s1) as [[u|e] s2] end;
        simpl; [apply in_or_app; right; now left | exact I].
Qed.

(** * Pre- and postconditions *)

Lemma hoare_conseq A (P P' : State -> Prop) (m : M A) (Q Q' : Result A -> State -> Prop) :
  hoare P' m Q' -> (forall s, P s -> P' s) -> (forall r s, Q' r s -> Q r s) -> hoare P m Q.
Proof. intros H HP HQ s Hs. apply HQ, H, HP, Hs. Qed.

Lemma hoare_ret A (a : A) (Q : Result A -> State -> Prop) : hoare (Q (Ok a)) (ret a) Q.
Proof. intros s Hs. exact Hs. Qed.

Lemma hoare_throw A (e : exn) (Q : Result A -> State -> Prop) : hoare (Q (Err e)) (throw e) Q.
Proof. intros s Hs. exact Hs. Qed.

Lemma hoare_bind A B (P : State -> Prop) (m : M A) (k : A -> M B)
      (Qm : Result A -> State -> Prop) (Q : Result B -> State -> Prop) :
  hoare P m Qm ->
  (forall a, hoare (Qm (Ok a)) (k a) Q) ->
  (forall e s, Qm (Err e) s -> Q (Err e) s) ->
  hoare P (bind m k) Q.
Proof.
  intros Hm Hk He s Hs. unfold bind. specialize (Hm s Hs).
  destruct (m s) as [[a|e] s1]; simpl in *.
  - apply Hk, Hm.
  - apply He, Hm.
Qed.

Lemma hoare_try_catch A (P : State -> Prop) (m : M A) (h : exn -> M A)
      (Qm Q : Result A -> State -> Prop) :
  hoare P m Qm ->
  (forall a s, Qm (Ok a) s -> Q (Ok a) s) ->
  (forall e, hoare (Qm (Err e)) (h e) Q) ->
  hoare P (try_catch m h) Q.
Proof.
  intros Hm Hok Hh s Hs. unfold try_catch. specialize (Hm s Hs).
  destruct (m s) as [[a|e] s1]; simpl in *.
  - apply Hok, Hm.
  - apply Hh, Hm.
Qed.

(** A property that a relation carries from the earlier state to the
    later one is kept by every computation that maintains the relation. *)
Lemma hoare_preserves A (R : State -> State -> Prop) (P P' : State -> Prop) (m : M A) :
  preserves R m -> (forall s s', R s s' -> P s -> P' s') -> hoare P m (fun _ => P').
Proof. intros Hm HR s Hs. eapply HR; [apply Hm | exact Hs]. Qed.

(** ** External services *)

Lemma external_call A (r : Result A) : external (call r).
Proof. now exists r. Qed.

Lemma external_ret A (a : A) : external (ret a).
Proof. now exists (Ok a). Qed.

Lemma external_throw A (e : exn) : external (@throw A e).
Proof. now exists (Err e). Qed.

Lemma external_bind A B (m : M A) (k : A -> M B) :
  external m -> (forall a, external (k a)) -> external (bind m k).
Proof.
  intros [r Hm] Hk. destruct r as [a|e].
  - destruct (Hk a) as [r' Hr']. exists r'. intro s. unfold bind. now rewrite Hm, Hr'.
  - exists (Err e). intro s. unfold bind. now rewrite Hm.
Qed.

Lemma external_try_catch A (m : M A) (h : exn -> M A) :
  external m -> (forall e, external (h e)) -> external (try_catch m h).
Proof.
  intros [r Hm] Hh. destruct r as [a|e].
  - exists (Ok a). intro s. unfold try_catch. now rewrite Hm.
  - destruct (Hh e) as [r' Hr']. exists r'. intro s. unfold try_catch. now rewrite Hm, Hr'.
Qed.

Lemma external_forEach A (xs : list A) (body : A -> M unit) :
  (forall x, external (body x)) -> external (forEach xs body).
Proof.
  intro Hb. induction xs as [|x xs IH]; simpl.
  - apply external_ret.
  - apply external_bind; [apply Hb | intros _; exact IH].
Qed.

Lemma external_preserves A (R : State -> State -> Prop) {HR : StepRelation R} (m : M A) :
  external m -> preserves R m.
Proof. intros [r Hm] s. rewrite Hm. apply step_refl. Qed.

Ltac externally :=
  repeat first
    [ apply external_ret | apply external_throw | apply external_call
    | apply external_bind | apply external_try_catch | apply external_forEach
    | match goal with
      | |- external (match ?x with _ => _ end) => destruct x
      | |- external (if ?x then _ else _) => destruct x
      end
    | intro ].

Lemma validateLesson_external lesson : external (ClaudeLessonService.validateLesson lesson).
Proof.
  unfold ClaudeLessonService.validateLesson, ClaudeLessonService.validateModule. externally.
Qed.

Lemma openrouter_external w : external_services (OpenRouterService.services w).
Proof.
  constructor; simpl; intros;
    unfold OpenRouterService.analyzeVideo, OpenRouterService.analyzeDocument,
      OpenRouterService.generateLesson; externally.
Qed.

Lemma claude_external w : external_services (ClaudeLessonService.services w).
Proof.
  constructor; simpl; intros;
    unfold GeminiVideoService.analyzeVideo, GeminiDocumentService.analyzeDocument,
      ClaudeLessonService.generateLesson; externally.
  apply validateLesson_external.
Qed.

Lemma getMetadata_external w url : external (YouTubeService.getMetadata w url).
Proof. unfold YouTubeService.getMetadata. externally. Qed.

Lemma getVideoUrl_external w url : external (YouTubeService.getVideoUrl w url).
Proof. unfold YouTubeService.getVideoUrl. externally. Qed.

Lemma fetchYouTubeTranscript_external w url :
  external (TranscriptService.fetchYouTubeTranscript w url).
Proof. unfold TranscriptService.fetchYouTubeTranscript. externally. Qed.

Lemma gemini_analyzeVideo_external w url sid t :
  external (GeminiVideoService.analyzeVideo w url sid t).
Proof. unfold GeminiVideoService.analyzeVideo. externally. Qed.

Lemma gemini_analyzeDocument_external w b n m sid :
  external (GeminiDocumentService.analyzeDocument w b n m sid).
Proof. unfold GeminiDocumentService.analyzeDocument. externally. Qed.

(** * Status writes *)

Section SingleSourceStatus.
Variable w : World.
Variable ai : LessonServices.

Lemma updateSourceStatus_returns sid st s :
  fst (PipelineOrchestrator.updateSourceStatus w sid st s) = Ok tt.
Proof.
  unfold PipelineOrchestrator.updateSourceStatus, bind, update.
  destruct (db_fault w OpUpdate (clock s)); reflexivity.
Qed.

Lemma updateSourceStatus_refused sid st s :
  db_fault w OpUpdate (clock s) <> None ->
  sources (snd (PipelineOrchestrator.updateSourceStatus w sid st s)) = sources s.
Proof.
  intro Hf. unfold PipelineOrchestrator.updateSourceStatus, bind, update.
  destruct (db_fault w OpUpdate (clock s)); [reflexivity | congruence].
Qed.
End SingleSourceStatus.

(** C9: updateSourceStatus never raises, and when the store refuses the
    update the sources table is left as it was.  Hence, when the body of
    the pipeline fails with [e] after the source row was created, the
    caller receives [e] itself, and when the store refuses the write of
    'failed' the sources table stays as the failing step left it. *)
Theorem C9_status_write_failure_is_silent w ai url ty org buf name s source s1 e s2 :
  PipelineOrchestrator.createSource w url ty org s = (Ok source, s1) ->
  PipelineOrchestrator.pipelineSteps w ai source url ty org buf name s1 = (Err e, s2) ->
  (forall sid st s0,
      fst (PipelineOrchestrator.updateSourceStatus w sid st s0) = Ok tt /\
      (db_fault w OpUpdate (clock s0) <> None ->
       sources (snd (PipelineOrchestrator.updateSourceStatus w sid st s0)) = sources s0)) /\
  fst (PipelineOrchestrator.processSourceToLesson w ai url ty org buf name s) = Err e /\
  (db_fault w OpUpdate (clock s2) <> None ->
   sources (snd (PipelineOrchestrator.processSourceToLesson w ai url ty org buf name s))
   = sources s2).
Proof.
  intros Hc Hp. split.
  { intros sid st s0. split;
      [apply updateSourceStatus_returns | apply updateSourceStatus_refused]. }
  unfold PipelineOrchestrator.processSourceToLesson, bind, try_catch. rewrite Hc, Hp.
  unfold PipelineOrchestrator.updateSourceStatus, bind, update, throw.
  destruct (db_fault w OpUpdate (clock s2)); simpl;
    (split; [reflexivity | intro H; first [reflexivity | congruence]]).
Qed.

(** The analysis fails and the store refuses every update: the caller
    gets the analysis error and the source row still says 'pending'. *)
Lemma C9_status_write_failure_is_silent_witness :
  fst (PipelineOrchestrator.processSourceToLesson
         (with_faults updates_fail offline_world)
         (OpenRouterService.services (with_faults updates_fail offline_world))
         "https://youtu.be/dQw4w9WgXcQ" youtube 3 None None emptyState)
  = Err (JsError "network down") /\
  map src_status
      (sources (snd (PipelineOrchestrator.processSourceToLesson
         (with_faults updates_fail offline_world)
         (OpenRouterService.services (with_faults updates_fail offline_world))
         "https://youtu.be/dQw4w9WgXcQ" youtube 3 None None emptyState)))
  = [SrcPending].
Proof.
  edestruct (C9_status_write_failure_is_silent
               (with_faults updates_fail offline_world)
               (OpenRouterService.services (with_faults updates_fail offline_world))
               "https://youtu.be/dQw4w9WgXcQ" youtube 3 None None emptyState)
    as [_ [H1 H2]]; [reflexivity | reflexivity |].
  split; [exact H1|]. rewrite H2; [reflexivity | discriminate].
Defined.

(** * Source status and content analyses *)

#[local] Instance no_new_completed_step : StepRelation no_new_completed.
Proof.
  constructor; unfold no_new_completed; simpl; auto.
  - intro s. split; eauto.
  - intros s1 s2 s3 [Ha Hs] [Ha' Hs']. split; [auto|].
    intros r Hr Hst. destruct (Hs' r Hr Hst) as [r1 [Hr1 [Hid1 Hst1]]].
    destruct (Hs r1 Hr1 Hst1) as [r0 [Hr0 [Hid0 Hst0]]].
    exists r0. repeat split; congruence || assumption.
Qed.

Lemma no_new_completed_invariant s s' :
  no_new_completed s s' -> completed_have_analysis s -> completed_have_analysis s'.
Proof.
  intros [Ha Hs] Hinv r Hr Hst. destruct (Hs r Hr Hst) as [r0 [Hr0 [Hid Hst0]]].
  destruct (Hinv r0 Hr0 Hst0) as [a [Hina Hsid]]. exists a. split; [auto | congruence].
Qed.

Lemma no_new_completed_has_analysis s s' sid :
  no_new_completed s s' -> has_analysis s sid -> has_analysis s' sid.
Proof. intros [Ha _] [a [Hina Hsid]]. exists a. auto. Qed.

Lemma no_new_completed_both s s' sid :
  no_new_completed s s' ->
  completed_have_analysis s /\ has_analysis s sid ->
  completed_have_analysis s' /\ has_analysis s' sid.
Proof.
  intros H [Hi Ha]. split;
    [eapply no_new_completed_invariant | eapply no_new_completed_has_analysis]; eauto.
Qed.

(** A row of an updated table comes from a row of the table. *)
Lemma in_update_where T (p : T -> bool) (f : T -> T) (rows : list T) (r : T) :
  In r (update_where p f rows) ->
  exists r0, In r0 rows /\ ((p r0 = true /\ r = f r0) \/ (p r0 = false /\ r = r0)).
Proof.
  unfold update_where. intro H. apply in_map_iff in H. destruct H as [r0 [Heq Hin]].
  exists r0. split; [exact Hin|]. destruct (p r0); auto.
Qed.

(** What the statements of the pipelines have to show for [no_new_completed]. *)
Ltac no_completion :=
  unfold no_new_completed; simpl;
  split; [ intros; try (apply in_or_app; left); assumption |];
  let r := fresh "r" in let Hr := fresh "Hr" in let Hst := fresh "Hst" in
  intros r Hr Hst;
  try (apply in_app_or in Hr; destruct Hr as [Hr|[<-|[]]]; [|discriminate Hst]);
  try (apply in_update_where in Hr;
       destruct Hr as [r0 [Hr0 [[_ ->]|[_ ->]]]];
       [ first [ discriminate Hst | exists r0; repeat split; assumption ] |]);
  eauto.

Section CompletedHaveAnalysis.
Variable w : World.

Lemma saveLesson_no_completion lesson sid org :
  preserves no_new_completed (PipelineOrchestrator.saveLesson w lesson sid org).
Proof.
  unfold PipelineOrchestrator.saveLesson, PipelineOrchestrator.saveModule,
    PipelineOrchestrator.saveObjective, PipelineOrchestrator.saveActivity.
  preserve; no_completion.
Qed.

Lemma createNotebook_no_completion courseId url ty :
  preserves no_new_completed (NotebookLMService.createNotebookForCourse w courseId url ty).
Proof.
  unfold NotebookLMService.createNotebookForCourse, NotebookLMService.getLessonPlanSummary.
  preserve; no_completion.
Qed.

Lemma updateSourceStatus_no_completion sid st :
  st <> SrcCompleted ->
  preserves no_new_completed (PipelineOrchestrator.updateSourceStatus w sid st).
Proof.
  intro Hst. unfold PipelineOrchestrator.updateSourceStatus.
  preserve. unfold no_new_completed; simpl. split; [auto|].
  intros r Hr Hc. apply in_update_where in Hr.
  destruct Hr as [r0 [Hr0 [[_ ->]|[_ ->]]]]; [simpl in Hc; contradiction | eauto].
Qed.

Lemma createSource_no_completion url ty org :
  preserves no_new_completed (PipelineOrchestrator.createSource w url ty org).
Proof.
  unfold PipelineOrchestrator.createSource, YouTubeService.getMetadata.
  preserve; no_completion.
Qed.

Lemma getSourceTitle_no_completion sid :
  preserves no_new_completed (PipelineOrchestrator.getSourceTitle w sid).
Proof. unfold PipelineOrchestrator.getSourceTitle. preserve. Qed.

(** Saving an analysis backs the source with an analysis row. *)
Lemma insert_analysis_backs sid (row : uuid -> timestamp -> AnalysisRow) :
  (forall id now, an_source_id (row id now) = sid) ->
  hoare completed_have_analysis (insert w add_analysis row)
        (fun r s => completed_have_analysis s /\
                    (error (match r with Ok x => x | Err _ => {| data := None; error := None |} end)
                     = None -> has_analysis s sid)).
Proof.
  intros Hrow s Hinv. unfold insert.
  destruct (db_fault w OpInsert (clock s)); simpl.
  - split; [exact Hinv | discriminate].
  - split.
    + eapply no_new_completed_invariant; [|exact Hinv]. no_completion.
    + intros _. exists (row (next_id s) (clock s)). split; [|apply Hrow].
      apply in_or_app. right. now left.
Qed.

Lemma saveAnalysis_backs sid analysis :
  hoare completed_have_analysis (PipelineOrchestrator.saveAnalysis w sid analysis)
        (fun r s => completed_have_analysis s /\
                    match r with Ok _ => has_analysis s sid | Err _ => True end).
Proof.
  unfold PipelineOrchestrator.saveAnalysis.
  eapply hoare_bind; [apply insert_analysis_backs with (sid := sid); reflexivity | |].
  - intros r s [Hinv Hb]. destruct (error r); simpl; split; auto.
  - intros e s [Hinv _]. now split.
Qed.

Lemma saveSourceAnalysis_backs sid ty analysis :
  hoare completed_have_analysis (CollectionOrchestrator.saveSourceAnalysis w sid ty analysis)
        (fun r s => completed_have_analysis s /\
                    match r with Ok _ => has_analysis s sid | Err _ => True end).
Proof.
  unfold CollectionOrchestrator.saveSourceAnalysis.
  eapply hoare_bind; [apply insert_analysis_backs with (sid := sid); reflexivity | |].
  - intros r s [Hinv Hb]. destruct (error r); simpl; split; auto.
  - intros e s [Hinv _]. now split.
Qed.

(** Marking a backed source as completed keeps the invariant. *)
Lemma mark_completed_backed sid :
  hoare (fun s => completed_have_analysis s /\ has_analysis s sid)
        (update w (fun now => set_sources (update_where
           (fun r => Nat.eqb (src_id r) sid) (source_with_status SrcCompleted now))))
        (fun _ => completed_have_analysis).
Proof.
  intros s [Hinv Hb]. unfold update.
  destruct (db_fault w OpUpdate (clock s)); simpl; [exact Hinv|].
  intros r Hr Hst. simpl in Hr. apply in_update_where in Hr.
  destruct Hr as [r0 [Hr0 [[Hp ->]|[_ ->]]]].
  - simpl. apply Nat.eqb_eq in Hp. rewrite Hp. exact Hb.
  - apply (Hinv r0 Hr0 Hst).
Qed.
End CompletedHaveAnalysis.

Section CompletedHaveAnalysisPipelines.
Variable w : World.
Variable ai : LessonServices.
Hypothesis ai_external : external_services ai.

Lemma analyzeSource_external sid url ty buf name :
  external (PipelineOrchestrator.analyzeSource w ai sid url ty buf name).
Proof.
  unfold PipelineOrchestrator.analyzeSource, YouTubeService.getVideoUrl.
  pose proof ai_external as [Hv Hd Hl]. externally; auto.
Qed.

(** A step that maintains [no_new_completed] keeps the invariant, ... *)
Lemma keeps_invariant A (m : M A) :
  preserves no_new_completed m ->
  hoare completed_have_analysis m (fun _ => completed_have_analysis).
Proof. intro H. eapply hoare_preserves; [exact H | apply no_new_completed_invariant]. Qed.

(** ... and the backing of a source with it. *)
Lemma keeps_backed A (m : M A) sid :
  preserves no_new_completed m ->
  hoare (fun s => completed_have_analysis s /\ has_analysis s sid) m
        (fun _ s => completed_have_analysis s /\ has_analysis s sid).
Proof.
  intro H. eapply hoare_preserves; [exact H |].
  intros s s' HR. apply no_new_completed_both, HR.
Qed.

Lemma pipelineSteps_invariant source url ty org buf name :
  hoare completed_have_analysis
        (PipelineOrchestrator.pipelineSteps w ai source url ty org buf name)
        (fun _ => completed_have_analysis).
Proof.
  unfold PipelineOrchestrator.pipelineSteps.
  eapply hoare_bind;
    [apply keeps_invariant, updateSourceStatus_no_completion; discriminate | | auto].
  intros ?. eapply hoare_bind;
    [apply keeps_invariant, external_preserves; [exact _ | apply analyzeSource_external] | | auto].
  intros analysis. eapply hoare_bind; [apply saveAnalysis_backs | | intros e s [H _]; exact H].
  intros ?. simpl.
  eapply hoare_bind with (Qm := fun _ s => completed_have_analysis s /\
                                          has_analysis s (src_id source));
    [apply keeps_backed, getSourceTitle_no_completion | | intros e s [H _]; exact H].
  intros title.
  eapply hoare_bind with (Qm := fun _ s => completed_have_analysis s /\
                                          has_analysis s (src_id source));
    [apply keeps_backed, external_preserves; [exact _ | apply ai_external]
    | | intros e s [H _]; exact H].
  intros lesson.
  eapply hoare_bind with (Qm := fun _ s => completed_have_analysis s /\
                                          has_analysis s (src_id source));
    [apply keeps_backed, saveLesson_no_completion | | intros e s [H _]; exact H].
  intros courseId.
  eapply hoare_bind with (Qm := fun _ s => completed_have_analysis s /\
                                          has_analysis s (src_id source));
    [apply keeps_backed | | intros e s [H _]; exact H].
  { apply preserves_try_catch; [|intro; apply preserves_ret].
    apply preserves_bind; [apply createNotebook_no_completion | intro; apply preserves_ret]. }
  intros ?.
  eapply hoare_bind with (Qm := fun _ => completed_have_analysis); [| | auto].
  - unfold PipelineOrchestrator.updateSourceStatus.
    eapply hoare_bind; [apply mark_completed_backed | | auto].
    intros r s H. exact H.
  - intros ? s H. exact H.
Qed.

Lemma processSourceToLesson_invariant url ty org buf name :
  hoare completed_have_analysis
        (PipelineOrchestrator.processSourceToLesson w ai url ty org buf name)
        (fun _ => completed_have_analysis).
Proof.
  unfold PipelineOrchestrator.processSourceToLesson.
  eapply hoare_bind; [apply keeps_invariant, createSource_no_completion | | auto].
  intros source. eapply hoare_try_catch; [apply pipelineSteps_invariant | auto |].
  intros e. eapply hoare_bind;
    [apply keeps_invariant, updateSourceStatus_no_completion; discriminate | | auto].
  intros ? s H. exact H.
Qed.
End CompletedHaveAnalysisPipelines.

Section AddSourceInvariant.
Variable w : World.

Lemma getMaxOrderIndex_no_completion cid :
  preserves no_new_completed (CollectionOrchestrator.getMaxOrderIndex w cid).
Proof. unfold CollectionOrchestrator.getMaxOrderIndex. preserve. Qed.

Lemma analyzeNewSource_backs source url ty buf name :
  analysable ty buf name ->
  hoare completed_have_analysis
        (CollectionOrchestrator.analyzeNewSource w source url ty buf name)
        (fun r s => completed_have_analysis s /\
                    match r with Ok _ => has_analysis s (src_id source) | Err _ => True end).
Proof.
  intro Han. unfold CollectionOrchestrator.analyzeNewSource.
  assert (Hvideo :
    hoare completed_have_analysis
      (transcript <- TranscriptService.fetchYouTubeTranscript w url ;;
       videoAnalysis <- GeminiVideoService.analyzeVideo w url (src_id source)
                          (Some (String.concat " " (map seg_text transcript))) ;;
       _ <- update w (fun now => set_sources (update_where
              (fun r => Nat.eqb (src_id r) (src_id source))
              (CollectionOrchestrator.source_with_transcript transcript now))) ;;
       CollectionOrchestrator.saveSourceAnalysis w (src_id source) "gemini_video" videoAnalysis)
      (fun r s => completed_have_analysis s /\
                  match r with Ok _ => has_analysis s (src_id source) | Err _ => True end)).
  { eapply hoare_bind;
      [apply keeps_invariant, external_preserves;
       [exact _ | apply fetchYouTubeTranscript_external] | | auto].
    intros transcript. eapply hoare_bind;
      [apply keeps_invariant, external_preserves;
       [exact _ | apply gemini_analyzeVideo_external] | | auto].
    intros videoAnalysis. eapply hoare_bind; [apply keeps_invariant | | auto].
    { apply preserves_update. intro s. no_completion. }
    intros ?. apply saveSourceAnalysis_backs. }
  assert (Hdoc : forall b n,
    hoare completed_have_analysis
      (docAnalysis <- GeminiDocumentService.analyzeDocument w b n (mimeTypeOf ty)
                        (src_id source) ;;
       CollectionOrchestrator.saveSourceAnalysis w (src_id source) "gemini_document"
         docAnalysis)
      (fun r s => completed_have_analysis s /\
                  match r with Ok _ => has_analysis s (src_id source) | Err _ => True end)).
  { intros b n. eapply hoare_bind;
      [apply keeps_invariant, external_preserves;
       [exact _ | apply gemini_analyzeDocument_external] | | auto].
    intros docAnalysis. apply saveSourceAnalysis_backs. }
  destruct ty; [exact Hvideo | |];
    (destruct Han as [Hy|[Hb Hn]]; [discriminate Hy|];
     destruct buf as [b|]; [|congruence];
     destruct name as [n|]; [|discriminate Hn];
     rewrite Hn; apply Hdoc).
Qed.

Lemma addSourceToCollection_invariant cid url ty buf name :
  analysable ty buf name ->
  hoare completed_have_analysis
        (CollectionOrchestrator.addSourceToCollection w cid url ty buf name)
        (fun _ => completed_have_analysis).
Proof.
  intro Han. unfold CollectionOrchestrator.addSourceToCollection.
  eapply hoare_try_catch with (Qm := fun _ => completed_have_analysis);
    [| auto | intros e st H; exact H].
  eapply hoare_bind; [apply keeps_invariant | | auto].
  { unfold CollectionOrchestrator.getCollectionOrgId. preserve. }
  intros orgId. eapply hoare_bind; [apply keeps_invariant | | auto].
  { unfold YouTubeService.getMetadata. preserve. }
  intros title. eapply hoare_bind; [apply keeps_invariant | | auto].
  { preserve. no_completion. }
  intros r. destruct (error r); [intros st H; exact H|].
  destruct (data r) as [source|]; [|intros st H; exact H].
  eapply hoare_bind; [apply analyzeNewSource_backs, Han | | intros e st [H _]; exact H].
  intros ?. simpl.
  eapply hoare_bind with (Qm := fun _ s => completed_have_analysis s /\
                                          has_analysis s (src_id source));
    [apply keeps_backed, getMaxOrderIndex_no_completion | | intros e st [H _]; exact H].
  intros maxOrder.
  eapply hoare_bind with (Qm := fun _ s => completed_have_analysis s /\
                                          has_analysis s (src_id source));
    [apply keeps_backed | | intros e st [H _]; exact H].
  { preserve. no_completion. }
  intros r'. destruct (error r'); [intros st [H _]; exact H|].
  eapply hoare_bind; [apply mark_completed_backed | | auto].
  intros ?. eapply hoare_bind; [apply keeps_invariant | | auto].
  { preserve. no_completion. }
  intros ? st H. exact H.
Qed.
End AddSourceInvariant.

(** C4, as stated, fails: a PDF added to a collection without its file
    is not analysed and is marked completed all the same. *)
Lemma C4_counterexample :
  completed_iff_analysis collection_state /\
  fst (CollectionOrchestrator.addSourceToCollection
         (quiet_world (demo_lesson [])) 10 "manual.pdf" pdf None None collection_state)
  = Ok 11 /\
  ~ completed_iff_analysis
      (snd (CollectionOrchestrator.addSourceToCollection
              (quiet_world (demo_lesson [])) 10 "manual.pdf" pdf None None collection_state)).
Proof.
  split; [intros r []|]. split; [reflexivity|].
  intro H. vm_compute in H.
  destruct (H _ (or_introl eq_refl)) as [H1 _].
  destruct (H1 eq_refl) as [a [[] _]].
Qed.

(** C4 (amended): after a single-source run, and after an addSource run
    for a video or for a document that comes with its file, every source
    that is completed has a content analysis row, if that was so before
    the run.  (The converse is not kept: a run that fails after its
    analysis was saved leaves an analysed source that is not completed.) *)
Theorem C4_completed_sources_have_analysis w ai url ty org cid buf name s :
  external_services ai ->
  completed_have_analysis s ->
  completed_have_analysis
    (snd (PipelineOrchestrator.processSourceToLesson w ai url ty org buf name s)) /\
  (analysable ty buf name ->
   completed_have_analysis
     (snd (CollectionOrchestrator.addSourceToCollection w cid url ty buf name s))).
Proof.
  intros Hai Hinv. split.
  - now apply processSourceToLesson_invariant.
  - intro Han. now apply addSourceToCollection_invariant.
Qed.

(** A video run to the end: its source is completed and analysed. *)
Lemma C4_completed_sources_have_analysis_witness :
  exists r,
    In r (sources (snd (PipelineOrchestrator.processSourceToLesson
           (quiet_world (demo_lesson []))
           (OpenRouterService.services (quiet_world (demo_lesson [])))
           "https://youtu.be/dQw4w9WgXcQ" youtube 3 None None collection_state))) /\
    src_status r = SrcCompleted /\
    has_analysis (snd (PipelineOrchestrator.processSourceToLesson
           (quiet_world (demo_lesson []))
           (OpenRouterService.services (quiet_world (demo_lesson [])))
           "https://youtu.be/dQw4w9WgXcQ" youtube 3 None None collection_state)) (src_id r).
Proof.
  destruct (C4_completed_sources_have_analysis
              (quiet_world (demo_lesson [])) "https://youtu.be/dQw4w9WgXcQ" youtube 3 10
              None None (openrouter_external (quiet_world (demo_lesson [])))
              (fun r (H : In r (sources collection_state)) => match H with end))
    as [H _].
  eexists. split; [vm_compute; left; reflexivity|]. split; [reflexivity|].
  apply H; [vm_compute; left; reflexivity | reflexivity].
Defined.

(** The failing analysis of a source that was saved before: analysed, and
    failed. *)
Example analysed_source_may_fail :
  let s' := snd (PipelineOrchestrator.processSourceToLesson
                   (with_faults (insert_fails_at 4) (quiet_world (demo_lesson [])))
                   (OpenRouterService.services
                      (with_faults (insert_fails_at 4) (quiet_world (demo_lesson []))))
                   "https://youtu.be/dQw4w9WgXcQ" youtube 3 None None emptyState) in
  map src_status (sources s') = [SrcFailed] /\ map an_source_id (source_analyses s') = [0].
Proof. vm_compute. split; reflexivity. Qed.

(** * Failure of addSourceToCollection *)

#[local] Instance same_statuses : StepRelation (same statuses).
Proof. constructor; unfold same, statuses; simpl; intros; congruence. Qed.

Lemma statuses_update_where (p : SourceRow -> bool) (f : SourceRow -> SourceRow) rows :
  (forall r, src_status (f r) = src_status r) ->
  map src_status (update_where p f rows) = map src_status rows.
Proof.
  intro Hf. unfold update_where. rewrite map_map. apply map_ext.
  intro r. destruct (p r); [apply Hf | reflexivity].
Qed.

Section AddSourceFailure.
Variable w : World.

Lemma analyzeNewSource_statuses source url ty buf name :
  preserves (same statuses)
            (CollectionOrchestrator.analyzeNewSource w source url ty buf name).
Proof.
  unfold CollectionOrchestrator.analyzeNewSource, CollectionOrchestrator.saveSourceAnalysis,
    TranscriptService.fetchYouTubeTranscript, GeminiVideoService.analyzeVideo,
    GeminiDocumentService.analyzeDocument.
  preserve; unfold same, statuses; simpl; try reflexivity.
  now apply statuses_update_where.
Qed.

Lemma addSourceToCollection_failure cid url ty buf name s :
  left_processing s
    (fst (CollectionOrchestrator.addSourceToCollection w cid url ty buf name s))
    (snd (CollectionOrchestrator.addSourceToCollection w cid url ty buf name s)).
Proof.
  cut (hoare (fun s0 => sources s0 = sources s)
             (CollectionOrchestrator.addSourceToCollection w cid url ty buf name)
             (left_processing s)); [intro H; exact (H s eq_refl)|].
  unfold CollectionOrchestrator.addSourceToCollection.
  eapply hoare_try_catch with (Qm := left_processing s);
    [| auto | intros e s0 H; exact H].
  eapply hoare_bind with (Qm := fun _ s0 => sources s0 = sources s);
    [| | intros e s0 H; now left].
  { eapply hoare_preserves with (R := same sources).
    - unfold CollectionOrchestrator.getCollectionOrgId. preserve.
    - unfold same. congruence. }
  intros orgId.
  eapply hoare_bind with (Qm := fun _ s0 => sources s0 = sources s);
    [| | intros e s0 H; now left].
  { eapply hoare_preserves with (R := same sources).
    - unfold YouTubeService.getMetadata. preserve.
    - unfold same. congruence. }
  intros title.
  eapply hoare_bind with
    (Qm := fun r s1 =>
             match r with
             | Ok resp => (error resp <> None /\ sources s1 = sources s) \/
                          (error resp = None /\ data resp <> None /\
                           statuses s1 = statuses s ++ [SrcProcessing])
             | Err _ => sources s1 = sources s
             end);
    [| | intros e s0 H; now left].
  { intros s0 Hs0. destruct orgId as [org|]; unfold insert, refused;
      [destruct (db_fault w OpInsert (clock s0)) |]; simpl.
    - left. split; [discriminate | exact Hs0].
    - right. split; [reflexivity|]. split; [discriminate|].
      unfold statuses. simpl. rewrite Hs0, map_app. reflexivity.
    - left. split; [discriminate | exact Hs0]. }
  intros r s1 Hr. destruct (error r) as [msg|].
  { destruct Hr as [[_ H]|[H _]]; [now left | discriminate H]. }
  destruct (data r) as [source|].
  2:{ destruct Hr as [[H _]|[_ [H _]]]; congruence. }
  assert (Hs1 : statuses s1 = statuses s ++ [SrcProcessing])
    by (destruct Hr as [[H _]|[_ [_ H]]]; congruence).
  clear Hr. revert s1 Hs1.
  change (hoare (fun s1 => statuses s1 = statuses s ++ [SrcProcessing])
    (CollectionOrchestrator.analyzeNewSource w source url ty buf name ;;;
     maxOrder <- CollectionOrchestrator.getMaxOrderIndex w cid ;;
     r0 <- insert w add_collection_source (fun id _ =>
             {| cs_id := id; cs_collection_id := cid; cs_source_id := src_id source;
                cs_order_index := js_number (maxOrder + 1) |}) ;;
     match error r0 with
     | Some msg => throw (PgError msg)
     | None =>
         _ <- update w (fun now => set_sources (update_where
                (fun r1 => Nat.eqb (src_id r1) (src_id source))
                (source_with_status SrcCompleted now))) ;;
         _ <- update w (fun _ => set_source_collections (update_where
                (fun c => Nat.eqb (col_id c) cid)
                (CollectionAnalyzer.collection_with_status ColBuilding None))) ;;
         ret (src_id source)
     end)
    (left_processing s)).
  eapply hoare_bind with (Qm := fun _ s1 => statuses s1 = statuses s ++ [SrcProcessing]);
    [| | intros e s0 H; now right].
  { eapply hoare_preserves with (R := same statuses);
      [apply analyzeNewSource_statuses | unfold same; congruence]. }
  intros ?.
  eapply hoare_bind with (Qm := fun _ s1 => statuses s1 = statuses s ++ [SrcProcessing]);
    [| | intros e s0 H; now right].
  { eapply hoare_preserves with (R := same statuses);
      [unfold CollectionOrchestrator.getMaxOrderIndex; preserve | unfold same; congruence]. }
  intros maxOrder.
  eapply hoare_bind with (Qm := fun _ s1 => statuses s1 = statuses s ++ [SrcProcessing]);
    [| | intros e s0 H; now right].
  { eapply hoare_preserves with (R := same statuses);
      [preserve; reflexivity | unfold same; congruence]. }
  intros r0. destruct (error r0) as [msg|].
  - intros s0 H. now right.
  - intros s0 _. unfold bind, update.
    destruct (db_fault w OpUpdate (clock s0)); simpl;
      match goal with |- context [db_fault w OpUpdate ?c] =>
        destruct (db_fault w OpUpdate c) end; exact I.
Qed.
End AddSourceFailure.

(** C3 fails on addSourceToCollection: its catch block only wraps and
    rethrows.  Whenever it fails after the source row was inserted, that
    row, created in 'processing', is still in 'processing' when the error
    reaches the caller and the other statuses are as before. *)
Theorem C3_addSource_failure_leaves_processing w cid url ty buf name s e :
  fst (CollectionOrchestrator.addSourceToCollection w cid url ty buf name s) = Err e ->
  sources (snd (CollectionOrchestrator.addSourceToCollection w cid url ty buf name s))
    <> sources s ->
  statuses (snd (CollectionOrchestrator.addSourceToCollection w cid url ty buf name s))
  = statuses s ++ [SrcProcessing].
Proof.
  intros He Hne.
  pose proof (addSourceToCollection_failure w cid url ty buf name s) as H.
  rewrite He in H. simpl in H. destruct H as [H|H]; [contradiction | exact H].
Qed.

(** The transcript of the video cannot be fetched. *)
Lemma C3_addSource_failure_leaves_processing_witness :
  fst (CollectionOrchestrator.addSourceToCollection offline_world 10
         "https://youtu.be/dQw4w9WgXcQ" youtube None None collection_state)
  = Err (JsError "Failed to add source to collection: Failed to fetch transcript: network down")
  /\
  statuses (snd (CollectionOrchestrator.addSourceToCollection offline_world 10
         "https://youtu.be/dQw4w9WgXcQ" youtube None None collection_state))
  = [SrcProcessing].
Proof.
  split; [vm_compute; reflexivity|].
  apply (C3_addSource_failure_leaves_processing offline_world 10
           "https://youtu.be/dQw4w9WgXcQ" youtube None None collection_state
           (e := JsError
              "Failed to add source to collection: Failed to fetch transcript: network down")).
  - vm_compute. reflexivity.
  - vm_compute. discriminate.
Defined.

(** * Synthesis input *)

Section EnsureSourceAnalyses.
Variable w : World.

(** A source with exactly one analysis row contributes it. *)
Lemma ensureSourceAnalyses_one analyses source rest s a :
  db_fault w OpSelect (clock s) = None ->
  analyses_of s (src_id source) = [a] ->
  CollectionAnalyzer.ensureSourceAnalyses_from w analyses (Some source :: rest) s =
  CollectionAnalyzer.ensureSourceAnalyses_from w
    (analyses ++ [as_SourceAnalysis (src_id source) a]) rest (tick s).
Proof.
  intros Hf Ha. simpl. unfold bind at 1, single. rewrite Hf.
  fold (analyses_of s (src_id source)). rewrite Ha. reflexivity.
Qed.

(** A source without analysis row is skipped with a warning. *)
Lemma ensureSourceAnalyses_none analyses source rest s :
  db_fault w OpSelect (clock s) = None ->
  analyses_of s (src_id source) = [] ->
  CollectionAnalyzer.ensureSourceAnalyses_from w analyses (Some source :: rest) s =
  CollectionAnalyzer.ensureSourceAnalyses_from w analyses rest
    (set_console (fun l => l ++ [missing_analysis_warning (src_id source)]) (tick s)).
Proof.
  intros Hf Ha. simpl. unfold bind at 1, single. rewrite Hf.
  fold (analyses_of s (src_id source)). rewrite Ha. reflexivity.
Qed.

(** So is a source with two analysis rows or more. *)
Lemma ensureSourceAnalyses_many analyses source rest s :
  db_fault w OpSelect (clock s) = None ->
  2 <= List.length (analyses_of s (src_id source)) ->
  CollectionAnalyzer.ensureSourceAnalyses_from w analyses (Some source :: rest) s =
  CollectionAnalyzer.ensureSourceAnalyses_from w analyses rest
    (set_console (fun l => l ++ [missing_analysis_warning (src_id source)]) (tick s)).
Proof.
  intros Hf Ha. simpl. unfold bind at 1, single. rewrite Hf.
  fold (analyses_of s (src_id source)).
  destruct (analyses_of s (src_id source)) as [|a [|a' l]]; simpl in Ha; try lia.
  reflexivity.
Qed.
End EnsureSourceAnalyses.

(** * Ordered lookups *)

Lemma pick_greater_fold T (key : T -> Z) (rows : list T) (b : T) :
  exists m, fold_left (pick_greater key) rows (Some b) = Some m /\
            (m = b \/ In m rows) /\
            (key b <= key m)%Z /\
            (forall r, In r rows -> (key r <= key m)%Z).
Proof.
  revert b. induction rows as [|x rows IH]; intro b; simpl.
  - exists b. split; [reflexivity|]. split; [now left|]. split; [lia|]. intros r [].
  - destruct (key b <? key x)%Z eqn:Hlt.
    + destruct (IH x) as [m [Hm [Hin [Hk Hall]]]]. exists m.
      apply Z.ltb_lt in Hlt. split; [exact Hm|]. split; [|split].
      * right. destruct Hin as [->|Hin]; [now left | now right].
      * lia.
      * intros r [<-|Hr]; [exact Hk | now apply Hall].
    + destruct (IH b) as [m [Hm [Hin [Hk Hall]]]]. exists m.
      apply Z.ltb_ge in Hlt. split; [exact Hm|]. split; [|split].
      * destruct Hin as [->|Hin]; [now left | right; now right].
      * exact Hk.
      * intros r [<-|Hr]; [lia | now apply Hall].
Qed.

(** Ordering by a key, descending, and keeping one row gives nothing for
    an empty selection and a row of greatest key otherwise. *)
Lemma order_desc_limit1_spec T (key : T -> Z) (rows : list T) :
  match rows with
  | [] => order_desc_limit1 key rows = []
  | _ :: _ => exists m, order_desc_limit1 key rows = [m] /\ In m rows /\
                        forall r, In r rows -> (key r <= key m)%Z
  end.
Proof.
  destruct rows as [|x rows]; [reflexivity|].
  unfold order_desc_limit1. simpl.
  destruct (pick_greater_fold key rows x) as [m [Hm [Hin [Hk Hall]]]].
  exists m. rewrite Hm. repeat split.
  - destruct Hin as [->|Hin]; [now left | now right].
  - intros r [<-|Hr]; auto.
Qed.

Lemma try_catch_rethrow A (m : M A) (s : State) : try_catch m (fun e => throw e) s = m s.
Proof. unfold try_catch, throw. destruct (m s) as [[a|e] s1]; reflexivity. Qed.

Lemma bind_Ok A B (m : M A) (k : A -> M B) (s s1 : State) (a : A) :
  m s = (Ok a, s1) -> bind m k s = k a s1.
Proof. intro H. unfold bind. now rewrite H. Qed.

Lemma bind_Err A B (m : M A) (k : A -> M B) (s s1 : State) (e : exn) :
  m s = (Err e, s1) -> bind m k s = (Err e, s1).
Proof. intro H. unfold bind. now rewrite H. Qed.

(** * Generation from a collection *)

Section EnsureCollectionAnalysis.
Variable w : World.

Lemma generateFromCollection_analyses cid synthesis :
  preserves (same collection_analyses)
            (CollectionLessonService.generateFromCollection w cid synthesis).
Proof.
  unfold CollectionLessonService.generateFromCollection. preserve.
  apply external_preserves; [exact _|].
  induction (map snd l) as [|[r|] rest IH]; simpl; externally. exact IH.
Qed.

Lemma collection_saveLesson_analyses lesson cid org :
  preserves (same collection_analyses) (CollectionOrchestrator.saveLesson w lesson cid org).
Proof.
  unfold CollectionOrchestrator.saveLesson, CollectionOrchestrator.saveModule,
    CollectionOrchestrator.saveObjective, CollectionOrchestrator.saveActivity.
  preserve; reflexivity.
Qed.

Lemma ensureCollectionAnalysis_reuses cid s :
  db_fault w OpSelect (clock s) = None ->
  match analyses_of_collection s cid with
  | [] => CollectionOrchestrator.ensureCollectionAnalysis w cid s =
          CollectionAnalyzer.analyzeCollection w cid (tick s)
  | _ :: _ => exists a,
      CollectionOrchestrator.ensureCollectionAnalysis w cid s = (Ok a, tick s) /\
      In a (analyses_of_collection s cid) /\
      forall a', In a' (analyses_of_collection s cid) -> ca_created_at a' <= ca_created_at a
  end.
Proof.
  intro Hf. unfold CollectionOrchestrator.ensureCollectionAnalysis, bind, single.
  rewrite Hf. fold (analyses_of_collection s cid).
  pose proof (order_desc_limit1_spec (fun a => Z.of_nat (ca_created_at a))
                (analyses_of_collection s cid)) as H.
  destruct (analyses_of_collection s cid) as [|x rows].
  - rewrite H. reflexivity.
  - destruct H as [m [Hm [Hin Hall]]]. rewrite Hm. exists m.
    split; [reflexivity|]. split; [exact Hin|].
    intros a' Ha'. specialize (Hall a' Ha'). lia.
Qed.

(** The error of the lookup is not read: a refused lookup is taken for a
    collection without synthesis. *)
Lemma ensureCollectionAnalysis_refused cid s msg :
  db_fault w OpSelect (clock s) = Some msg ->
  CollectionOrchestrator.ensureCollectionAnalysis w cid s =
  CollectionAnalyzer.analyzeCollection w cid (tick s).
Proof.
  intro Hf. unfold CollectionOrchestrator.ensureCollectionAnalysis, bind, single.
  rewrite Hf. reflexivity.
Qed.
End EnsureCollectionAnalysis.




(** * Linking a source to a collection *)

#[local] Instance same_links_and_collections : StepRelation (same links_and_collections).
Proof. constructor; unfold same, links_and_collections; simpl; intros; congruence. Qed.

#[local] Instance same_links_collections_and_ids :
  StepRelation (same links_collections_and_ids).
Proof.
  constructor; unfold same, links_collections_and_ids, source_ids; simpl; intros; congruence.
Qed.

Lemma map_update_where T U (g : T -> U) (p : T -> bool) (f : T -> T) rows :
  (forall r, g (f r) = g r) -> map g (update_where p f rows) = map g rows.
Proof.
  intro Hf. unfold update_where. rewrite map_map. apply map_ext.
  intro r. destruct (p r); [apply Hf | reflexivity].
Qed.

Lemma js_number_safe n : (Z.abs n <= 2 ^ 53)%Z -> js_number n = n.
Proof.
  intro H. unfold js_number.
  destruct (Z.leb_spec (Z.abs n) (2 ^ 53)) as [_|Hgt]; [reflexivity|].
  exfalso. apply (Z.lt_irrefl (2 ^ 53)). now apply Z.lt_le_trans with (Z.abs n).
Qed.

(** Beyond 2^53 a number holds every second integer, then every fourth:
    2^53 + 1 is held as 2^53, and 2^53 + 3 as 2^53 + 4. *)
Example js_number_rounds :
  js_number (2 ^ 53 + 1) = (2 ^ 53)%Z /\ js_number (2 ^ 53 + 3) = (2 ^ 53 + 4)%Z /\
  js_number (- (2 ^ 54 + 2)) = (- 2 ^ 54)%Z.
Proof. vm_compute. repeat split. Qed.

Lemma safe_integer_number i : safe_integer i -> js_number i = i.
Proof. intro H. apply js_number_safe, Z.lt_le_incl, H. Qed.

Lemma safe_integer_succ i : safe_integer i -> js_number (i + 1) = (i + 1)%Z.
Proof.
  unfold safe_integer. intro H. apply js_number_safe.
  generalize dependent (2 ^ 53)%Z. intros. lia.
Qed.

Section AddSourceLink.
Variable w : World.
Hypothesis selects_served : forall n, db_fault w OpSelect n = None.

Lemma analyzeNewSource_links source url ty buf name :
  preserves (same links_collections_and_ids)
            (CollectionOrchestrator.analyzeNewSource w source url ty buf name).
Proof.
  unfold CollectionOrchestrator.analyzeNewSource, CollectionOrchestrator.saveSourceAnalysis,
    TranscriptService.fetchYouTubeTranscript, GeminiVideoService.analyzeVideo,
    GeminiDocumentService.analyzeDocument.
  preserve; unfold same, links_collections_and_ids, source_ids; simpl; try reflexivity.
  f_equal. now apply map_update_where.
Qed.

Lemma getMaxOrderIndex_value cid s :
  safe_indices s cid ->
  exists v, CollectionOrchestrator.getMaxOrderIndex w cid s = (Ok v, tick s) /\
            is_max_plus_one (order_indices s cid) (js_number (v + 1)).
Proof.
  unfold safe_indices, CollectionOrchestrator.getMaxOrderIndex, bind, single, order_indices.
  intro Hsafe. rewrite selects_served.
  pose proof (order_desc_limit1_spec cs_order_index
                (filter (fun cs => Nat.eqb (cs_collection_id cs) cid)
                        (collection_sources s))) as H.
  destruct (filter (fun cs => Nat.eqb (cs_collection_id cs) cid) (collection_sources s))
    as [|x rows].
  - rewrite H. simpl. eexists. split; [reflexivity|]. reflexivity.
  - destruct H as [m [Hm [Hin Hall]]]. rewrite Hm. simpl.
    assert (Hidx : In (cs_order_index m) (map cs_order_index (x :: rows)))
      by now apply in_map.
    eexists. split; [reflexivity|]. simpl.
    exists (cs_order_index m). split; [exact Hidx|]. split.
    + intros i Hi. change (In i (map cs_order_index (x :: rows))) in Hi.
      apply in_map_iff in Hi. destruct Hi as [r [<- Hr]]. now apply Hall.
    + rewrite (safe_integer_number (Hsafe _ Hidx)).
      apply safe_integer_succ, Hsafe, Hidx.
Qed.
End AddSourceLink.

Section AddSourceSuccess.
Variable w : World.
Hypothesis selects_served : forall n, db_fault w OpSelect n = None.
Variable cid : uuid.
Variable s : State.
Hypothesis indices_safe : safe_indices s cid.

(** Nothing that matters to the link has changed yet. *)
Let untouched (s0 : State) : Prop := links_and_collections s0 = links_and_collections s.

Let collection_exists : Prop := exists c, In c (source_collections s) /\ col_id c = cid.

Let linked (sid : uuid) (s' : State) : Prop :=
  link_appended s cid sid s' /\ In sid (source_ids s') /\
  ((forall n, db_fault w OpUpdate n = None) -> linked_at_next_index s cid sid s').

Lemma addSourceToCollection_links url ty buf name :
  hoare untouched
        (CollectionOrchestrator.addSourceToCollection w cid url ty buf name)
        (fun r s' => match r with
                     | Ok sid => linked sid s'
                     | Err _ => True
                     end).
Proof.
  unfold CollectionOrchestrator.addSourceToCollection.
  eapply hoare_try_catch with
    (Qm := fun r s' => match r with
                       | Ok sid => linked sid s'
                       | Err _ => True
                       end);
    [| auto | intros e s0 _; exact I].
  (* the organization of the collection *)
  eapply hoare_bind with
    (Qm := fun r s0 => untouched s0 /\
                       match r with Ok (Some _) => collection_exists | _ => True end);
    [| | intros e s0 _; exact I].
  { intros s0 Hs0. unfold CollectionOrchestrator.getCollectionOrgId, bind, single.
    rewrite selects_served.
    destruct (filter (fun c => Nat.eqb (col_id c) cid) (source_collections s0))
      as [|c [|c' l]] eqn:Hfl; simpl; (split; [exact Hs0|]); try exact I.
    assert (Hc : In c (filter (fun c => Nat.eqb (col_id c) cid) (source_collections s0)))
      by (rewrite Hfl; now left).
    apply filter_In in Hc. destruct Hc as [Hc Hid]. apply Nat.eqb_eq in Hid.
    exists c. split; [|exact Hid].
    unfold untouched, links_and_collections in Hs0. congruence. }
  intros orgId.
  eapply hoare_bind with
    (Qm := fun _ s0 => untouched s0 /\
                       match orgId with Some _ => collection_exists | None => True end);
    [| | intros e s0 _; exact I].
  { eapply hoare_preserves with (R := same links_and_collections).
    - unfold YouTubeService.getMetadata. preserve.
    - unfold same, untouched. intros s0 s1 HR [H1 H2]. split; [congruence | exact H2]. }
  intros title.
  (* the source row *)
  eapply hoare_bind with
    (Qm := fun r s1 =>
             match r with
             | Ok resp =>
                 match error resp, data resp with
                 | None, Some source =>
                     links_collections_and_ids s1 =
                     (collection_sources s, source_collections s, source_ids s1) /\
                     collection_exists /\ In (src_id source) (source_ids s1)
                 | _, _ => True
                 end
             | Err _ => True
             end);
    [| | intros e s0 _; exact I].
  { intros s0 [Hs0 Hex]. destruct orgId as [org|]; unfold insert, refused;
      [destruct (db_fault w OpInsert (clock s0)) |]; simpl; try exact I.
    unfold untouched, links_and_collections in Hs0.
    unfold links_collections_and_ids, source_ids. simpl.
    split; [congruence|]. split; [exact Hex|].
    rewrite map_app. apply in_or_app. right. now left. }
  intros r. destruct (error r) as [msg|]; [intros s0 _; exact I|].
  destruct (data r) as [source|]; [|intros s0 _; exact I].
  (* the analysis *)
  eapply hoare_bind with
    (Qm := fun _ s1 =>
             links_collections_and_ids s1 =
             (collection_sources s, source_collections s, source_ids s1) /\
             collection_exists /\ In (src_id source) (source_ids s1));
    [| | intros e s0 _; exact I].
  { eapply hoare_preserves with (R := same links_collections_and_ids);
      [apply analyzeNewSource_links|].
    unfold same, links_collections_and_ids. intros s0 s1 HR [H1 [H2 H3]].
    inversion HR. inversion H1. repeat split; congruence. }
  intros ?.
  (* the next index *)
  eapply hoare_bind with
    (Qm := fun r s1 =>
             (links_collections_and_ids s1 =
              (collection_sources s, source_collections s, source_ids s1) /\
              collection_exists /\ In (src_id source) (source_ids s1)) /\
             match r with
             | Ok v => is_max_plus_one (order_indices s cid) (js_number (v + 1))
             | Err _ => True
             end);
    [| | intros e s0 _; exact I].
  { intros s0 [H1 [H2 H3]].
    unfold links_collections_and_ids in H1. inversion H1.
    assert (Hsafe : safe_indices s0 cid).
    { unfold safe_indices, order_indices in *.
      match goal with Heq : collection_sources s0 = _ |- _ => rewrite Heq end.
      exact indices_safe. }
    destruct (@getMaxOrderIndex_value w selects_served cid s0 Hsafe) as [v [Hv Hmax]].
    rewrite Hv. simpl. unfold links_collections_and_ids.
    split; [split; [unfold source_ids; simpl; congruence | split; [exact H2 | exact H3]]|].
    unfold order_indices in *. congruence. }
  intros maxOrder.
  (* the link *)
  eapply hoare_bind with
    (Qm := fun r s1 =>
             match r with
             | Ok resp =>
                 match error resp with
                 | None =>
                     (exists id,
                         collection_sources s1 =
                         collection_sources s ++
                           [{| cs_id := id; cs_collection_id := cid;
                               cs_source_id := src_id source;
                               cs_order_index := js_number (maxOrder + 1) |}]) /\
                     source_collections s1 = source_collections s /\
                     collection_exists /\ In (src_id source) (source_ids s1) /\
                     is_max_plus_one (order_indices s cid) (js_number (maxOrder + 1))
                 | Some _ => True
                 end
             | Err _ => True
             end);
    [| | intros e s0 _; exact I].
  { intros s0 [[H1 [H2 H3]] Hmax]. unfold insert.
    destruct (db_fault w OpInsert (clock s0)); simpl; [exact I|].
    unfold links_collections_and_ids in H1. inversion H1.
    split; [exists (next_id s0); congruence|]. repeat split; auto. }
  intros r'. destruct (error r') as [msg|]; [intros s0 _; exact I|].
  (* the two status writes, whose answers are dropped *)
  intros s0 [[id Hlink] [Hcols [[c [Hc Hcid]] [Hsid Hmax]]]].
  unfold linked, link_appended, bind, update.
  destruct (db_fault w OpUpdate (clock s0)) eqn:E1; simpl;
    match goal with
    | |- context [db_fault w OpUpdate ?t] => destruct (db_fault w OpUpdate t) eqn:E2
    end; simpl;
    (split; [exists id, (js_number (maxOrder + 1)); split; [exact Hlink | exact Hmax]|]);
    (split;
     [unfold source_ids in *; simpl; try exact Hsid;
      (rewrite map_update_where; [exact Hsid | reflexivity])|]);
    intro updates_applied;
    try (rewrite updates_applied in E1; discriminate E1);
    try (rewrite updates_applied in E2; discriminate E2).
  split; [exists id, (js_number (maxOrder + 1)); split; assumption|].
  split.
  { unfold source_ids in *. simpl.
    rewrite map_update_where; [exact Hsid | reflexivity]. }
  cbn [source_collections tick set_clock set_source_collections set_sources].
  split.
  - exists (if Nat.eqb (col_id c) cid
            then CollectionAnalyzer.collection_with_status ColBuilding None c else c).
    split.
    + unfold update_where. rewrite Hcols.
      apply (in_map (fun r0 => if Nat.eqb (col_id r0) cid
                               then CollectionAnalyzer.collection_with_status ColBuilding None r0
                               else r0)), Hc.
    + destruct (Nat.eqb (col_id c) cid); exact Hcid.
  - intros c' Hc' Hid. apply in_update_where in Hc'.
    destruct Hc' as [c0 [_ [[_ ->]|[Hp ->]]]]; [reflexivity|].
    apply Nat.eqb_neq in Hp. contradiction.
Qed.
End AddSourceSuccess.




(** Why the indices are asked to be safe integers: next to the index 2^53
    the sum 2^53 + 1 is not a number of JavaScript, and the new link gets
    the index 2^53 again. *)
Example unsafe_index_is_repeated :
  map cs_order_index
      (collection_sources
         (snd (CollectionOrchestrator.addSourceToCollection (quiet_world empty_lesson) 10
                 "https://youtu.be/dQw4w9WgXcQ" youtube None None unsafe_index_state)))
  = [0%Z; (2 ^ 53)%Z; (2 ^ 53)%Z].
Proof. vm_compute. reflexivity. Qed.

(** * Analysis of a collection *)

#[local] Instance same_collections_and_syntheses :
  StepRelation (same collections_and_syntheses).
Proof. constructor; unfold same, collections_and_syntheses; simpl; intros; congruence. Qed.

Lemma collection_status_after_update (rows : list CollectionRow) cid st t :
  (exists c, In c rows /\ col_id c = cid) ->
  (exists c, In c (update_where (fun c => Nat.eqb (col_id c) cid)
                     (CollectionAnalyzer.collection_with_status st t) rows) /\
             col_id c = cid) /\
  (forall c, In c (update_where (fun c => Nat.eqb (col_id c) cid)
                     (CollectionAnalyzer.collection_with_status st t) rows) ->
             col_id c = cid ->
             col_status c = st /\
             forall t', t = Some t' -> col_analysis_completed_at c = Some t').
Proof.
  intros [c [Hc Hcid]]. split.
  - exists (CollectionAnalyzer.collection_with_status st t c). split; [|exact Hcid].
    unfold update_where. apply in_map_iff. exists c. split; [|exact Hc].
    apply Nat.eqb_eq in Hcid. now rewrite Hcid.
  - intros c' Hc' Hid. apply in_update_where in Hc'.
    destruct Hc' as [c0 [_ [[_ ->]|[Hp ->]]]].
    + split; [reflexivity|]. intros t' ->. reflexivity.
    + apply Nat.eqb_neq in Hp. contradiction.
Qed.

Section AnalyzeCollection.
Variable w : World.

Lemma ensureSourceAnalyses_from_preserves R {HR : StepRelation R} srcs :
  forall analyses, preserves R (CollectionAnalyzer.ensureSourceAnalyses_from w analyses srcs).
Proof.
  induction srcs as [|[source|] rest IH]; intro analyses; simpl.
  - apply preserves_ret.
  - apply preserves_bind; [apply preserves_single|]. intro r.
    destruct (data r); [apply IH|].
    apply preserves_bind; [apply preserves_warn | intro; apply IH].
  - apply preserves_throw.
Qed.

Lemma buildSynthesisPrompt_external analyses :
  forall srcs, external (CollectionAnalyzer.buildSynthesisPrompt analyses srcs).
Proof.
  induction analyses as [|a analyses IH]; intros [|[source|] srcs]; simpl;
    try apply external_ret; try apply external_throw.
  apply external_bind; [apply IH | intro; apply external_ret].
Qed.

Lemma synthesizeAcrossAnalyses_external analyses srcs :
  external (CollectionAnalyzer.synthesizeAcrossAnalyses w analyses srcs).
Proof.
  unfold CollectionAnalyzer.synthesizeAcrossAnalyses.
  apply external_bind; [apply buildSynthesisPrompt_external | intro; apply external_call].
Qed.
End AnalyzeCollection.

Section SynthesisInput.
Variable w : World.
Variable s : State.

Lemma latest_analysis_single sid a :
  analyses_of s sid = [a] -> latest_analysis s sid = Some a.
Proof. intro H. unfold latest_analysis. rewrite H. reflexivity. Qed.

Lemma latest_analysis_none sid :
  analyses_of s sid = [] -> latest_analysis s sid = None.
Proof. intro H. unfold latest_analysis. rewrite H. reflexivity. Qed.

Lemma ensureSourceAnalyses_from_input members :
  analysed_at_most_once s members ->
  forall analyses s0,
    source_analyses s0 = source_analyses s ->
    exists s1,
      CollectionAnalyzer.ensureSourceAnalyses_from w analyses (map Some members) s0 =
      (Ok (analyses ++ synthesis_input w s (clock s0) members), s1) /\
      console s1 = console s0 ++ skipped_with_warning w s (clock s0) members.
Proof.
  induction members as [|m rest IH]; intros Honce analyses s0 Hs0.
  - exists s0. simpl. rewrite !app_nil_r. split; reflexivity.
  - assert (Hrest : analysed_at_most_once s rest)
      by (intros x Hx; apply Honce; now right).
    specialize (IH Hrest).
    assert (Hrows : analyses_of s0 (src_id m) = analyses_of s (src_id m))
      by (unfold analyses_of; now rewrite Hs0).
    pose proof (Honce m (or_introl eq_refl)) as Hone.
    cbn [map CollectionAnalyzer.ensureSourceAnalyses_from synthesis_input
         skipped_with_warning].
    unfold bind at 1, single, looked_up.
    fold (analyses_of s0 (src_id m)). rewrite Hrows.
    destruct (db_fault w OpSelect (clock s0)) as [msg|].
    + (* the lookup is refused *)
      cbn [data]. unfold bind at 1, console_warn.
      destruct (IH analyses
                   (set_console
                      (fun l => l ++ [missing_analysis_warning (src_id m)]) (tick s0))
                   Hs0) as [s1 [Hrun Hcon]].
      exists s1. split; [exact Hrun|].
      rewrite Hcon. simpl. rewrite <- app_assoc. reflexivity.
    + destruct (analyses_of s (src_id m)) as [|a [|a' l]] eqn:Ha.
      * (* no analysis *)
        rewrite (latest_analysis_none _ Ha).
        cbn [data option_map]. unfold bind at 1, console_warn.
        destruct (IH analyses
                     (set_console
                        (fun l => l ++ [missing_analysis_warning (src_id m)]) (tick s0))
                     Hs0) as [s1 [Hrun Hcon]].
        exists s1. split; [exact Hrun|].
        rewrite Hcon. simpl. rewrite <- app_assoc. reflexivity.
      * (* one analysis *)
        rewrite (latest_analysis_single _ Ha). cbn [data option_map].
        destruct (IH (analyses ++ [as_SourceAnalysis (src_id m) a]) (tick s0) Hs0)
          as [s1 [Hrun Hcon]].
        exists s1. split; [|exact Hcon].
        rewrite <- app_assoc in Hrun. exact Hrun.
      * simpl in Hone. lia.
Qed.

Lemma synthesis_input_served members :
  (forall n, db_fault w OpSelect n = None) ->
  forall t, synthesis_input w s t members = most_recent_analyses s members.
Proof.
  intro Hserved. induction members as [|m rest IH]; intro t; [reflexivity|].
  simpl. unfold looked_up. rewrite Hserved, IH.
  destruct (latest_analysis s (src_id m)); reflexivity.
Qed.
End SynthesisInput.

(** C6, as stated, fails: the answer's error is not read, so a member whose
    lookup the store refuses is taken for a member without analysis.  Of
    the two analysed members of the collection the first is skipped with
    the warning, and the synthesis input holds the analysis of the second
    alone. *)
Lemma C6_counterexample :
  fst (CollectionAnalyzer.ensureSourceAnalyses
         (with_faults (select_fails_at 12) (quiet_world empty_lesson))
         (map Some [member_source 20 1; member_source 21 2]) gapped_state)
  <> Ok (most_recent_analyses gapped_state [member_source 20 1; member_source 21 2]) /\
  map sourceId (most_recent_analyses gapped_state [member_source 20 1; member_source 21 2])
  = [20; 21] /\
  fst (CollectionAnalyzer.ensureSourceAnalyses
         (with_faults (select_fails_at 12) (quiet_world empty_lesson))
         (map Some [member_source 20 1; member_source 21 2]) gapped_state)
  = Ok [as_SourceAnalysis 21 (member_analysis 31 21 2)] /\
  console (snd (CollectionAnalyzer.ensureSourceAnalyses
                  (with_faults (select_fails_at 12) (quiet_world empty_lesson))
                  (map Some [member_source 20 1; member_source 21 2]) gapped_state))
  = ["Source 20 missing analysis, skipping"].
Proof.
  split; [|split; [|split]]; vm_compute; try reflexivity.
  intro H. discriminate H.
Qed.

(** C6 (amended): when no member of the collection has more than one
    analysis row, the synthesis input holds, in the order of the members,
    the analysis of every member that has one and whose lookup the store
    serves; a member without analysis, or whose lookup the store refuses,
    is skipped with a warning, and the synthesis is made from the analyses
    found instead of failing the run.  When the store serves the lookups,
    these are the most recent analyses of the members that have one. *)
Theorem C6_synthesis_input w members s :
  analysed_at_most_once s members ->
  fst (CollectionAnalyzer.ensureSourceAnalyses w (map Some members) s)
  = Ok (synthesis_input w s (clock s) members) /\
  console (snd (CollectionAnalyzer.ensureSourceAnalyses w (map Some members) s))
  = console s ++ skipped_with_warning w s (clock s) members /\
  ((forall n, db_fault w OpSelect n = None) ->
   synthesis_input w s (clock s) members = most_recent_analyses s members) /\
  fst (synthesis_of_members w members s)
  = fst (CollectionAnalyzer.synthesizeAcrossAnalyses w
           (synthesis_input w s (clock s) members) (map Some members) s).
Proof.
  intro Honce.
  destruct (@ensureSourceAnalyses_from_input w s members Honce [] s eq_refl)
    as [s1 [Hrun Hcon]].
  unfold synthesis_of_members, CollectionAnalyzer.ensureSourceAnalyses.
  rewrite Hrun. cbn [fst snd app].
  split; [reflexivity|]. split; [exact Hcon|]. split.
  - intro Hserved. now apply synthesis_input_served.
  - erewrite bind_Ok; [|exact Hrun]. cbn [app].
    destruct (synthesizeAcrossAnalyses_external w
                (synthesis_input w s (clock s) members) (map Some members)) as [r Hr].
    now rewrite !Hr.
Qed.

(** The two members of the collection were analysed once each: both
    analyses reach the synthesis and nothing is warned of. *)
Lemma C6_synthesis_input_witness :
  fst (CollectionAnalyzer.ensureSourceAnalyses (quiet_world empty_lesson)
         (map Some [member_source 20 1; member_source 21 2]) gapped_state)
  = Ok [as_SourceAnalysis 20 (member_analysis 30 20 1);
        as_SourceAnalysis 21 (member_analysis 31 21 2)] /\
  console (snd (CollectionAnalyzer.ensureSourceAnalyses (quiet_world empty_lesson)
                  (map Some [member_source 20 1; member_source 21 2]) gapped_state))
  = [].
Proof.
  assert (Honce : analysed_at_most_once gapped_state
                    [member_source 20 1; member_source 21 2]).
  { intros m [<-|[<-|[]]]; vm_compute; lia. }
  destruct (@C6_synthesis_input (quiet_world empty_lesson)
              [member_source 20 1; member_source 21 2] gapped_state Honce)
    as [Hinput [Hwarn _]].
  split; [rewrite Hinput | rewrite Hwarn]; reflexivity.
Defined.

Section AnalyzeCollectionOutcome.
Variable w : World.
Variable cid : uuid.
Variable s : State.

Let untouched (s0 : State) : Prop :=
  collections_and_syntheses s0 = collections_and_syntheses s.

(** The rows, and the collections according to what the store does with the
    status write. *)
Let left_as (r : Result CollectionAnalysisRow) (s1 : State) : Prop :=
  analysis_rows s cid r s1 /\
  ((forall n, db_fault w OpUpdate n = None) ->
   source_collections s1 = status_written s cid r) /\
  ((forall n, db_fault w OpUpdate n <> None) ->
   source_collections s1 = source_collections s).

Lemma analyzeSteps_outcome :
  hoare untouched (CollectionAnalyzer.analyzeSteps w cid)
        (fun r s1 => match r with
                     | Ok a => left_as (Ok a) s1
                     | Err _ => untouched s1
                     end).
Proof.
  assert (Hkeep : forall A (m : M A),
             preserves (same collections_and_syntheses) m ->
             hoare untouched m (fun _ => untouched)).
  { intros A m Hm. eapply hoare_preserves; [exact Hm|].
    unfold same, untouched. intros s0 s1 HR H. congruence. }
  unfold CollectionAnalyzer.analyzeSteps.
  eapply hoare_bind with (Qm := fun _ => untouched);
    [apply Hkeep, preserves_single | | intros e s0 H; exact H].
  intros r. destruct (data r) as [[collection css]|]; [|intros s0 H; exact H].
  eapply hoare_bind with (Qm := fun _ => untouched);
    [apply Hkeep, ensureSourceAnalyses_from_preserves; exact _ | | intros e s0 H; exact H].
  intros analyses.
  eapply hoare_bind with (Qm := fun _ => untouched);
    [apply Hkeep, external_preserves;
       [exact _ | apply synthesizeAcrossAnalyses_external] | | intros e s0 H; exact H].
  intros synthesis.
  eapply hoare_bind with
    (Qm := fun r s1 =>
             match r with
             | Ok resp =>
                 match error resp, data resp with
                 | Some _, _ => untouched s1
                 | None, None => False
                 | None, Some a =>
                     collection_analyses s1 = collection_analyses s ++ [a] /\
                     ca_collection_id a = cid /\
                     source_collections s1 = source_collections s /\
                     clock s1 = S (ca_created_at a)
                 end
             | Err _ => untouched s1
             end);
    [| | intros e s0 H; exact H].
  { intros s0 Hs0. unfold insert.
    destruct (db_fault w OpInsert (clock s0)); simpl; [exact Hs0|].
    unfold untouched, collections_and_syntheses in Hs0. inversion Hs0.
    repeat split; congruence. }
  intros r'. destruct (error r') as [msg|]; [intros s0 H; exact H|].
  destruct (data r') as [a|]; [|intros s0 []].
  intros s1 [Han [Hcid [Hcols Hclock]]].
  unfold bind, update, ret, left_as, analysis_rows, status_written.
  destruct (db_fault w OpUpdate (clock s1)) as [msg|] eqn:Hf;
    cbn [fst snd source_collections collection_analyses tick set_clock
         set_source_collections];
    (split; [split; [exact Han | exact Hcid]|]); split.
  - intro Happlied. rewrite Happlied in Hf. discriminate Hf.
  - intros _. exact Hcols.
  - intros _. rewrite Hcols, Hclock. reflexivity.
  - intro Hrefused. exfalso. exact (Hrefused _ Hf).
Qed.

Lemma analyzeCollection_outcome :
  hoare untouched (CollectionAnalyzer.analyzeCollection w cid) left_as.
Proof.
  unfold CollectionAnalyzer.analyzeCollection.
  eapply hoare_try_catch; [apply analyzeSteps_outcome | intros a s0 H; exact H |].
  intros e s1 Hs1. unfold bind, update, throw, left_as, analysis_rows, status_written.
  assert (Hcols : source_collections s1 = source_collections s)
    by exact (f_equal fst Hs1).
  assert (Han : collection_analyses s1 = collection_analyses s)
    by exact (f_equal snd Hs1).
  destruct (db_fault w OpUpdate (clock s1)) as [msg|] eqn:Hf;
    cbn [fst snd source_collections collection_analyses tick set_clock
         set_source_collections];
    (split; [exact Han|]); split.
  - intro Happlied. rewrite Happlied in Hf. discriminate Hf.
  - intros _. exact Hcols.
  - intros _. rewrite Hcols. reflexivity.
  - intro Hrefused. exfalso. exact (Hrefused _ Hf).
Qed.

Lemma status_written_outcome r s1 :
  (exists c, In c (source_collections s) /\ col_id c = cid) ->
  analysis_rows s cid r s1 ->
  source_collections s1 = status_written s cid r ->
  analysis_outcome s cid r s1.
Proof.
  intros Hex Hrows Hcols. unfold analysis_outcome, collection_status_is.
  rewrite Hcols. unfold status_written. destruct r as [a|e].
  - destruct (collection_status_after_update (source_collections s) ColReady
                (Some (S (ca_created_at a))) Hex) as [Hc Hall].
    destruct Hrows as [Han Hcid].
    split; [exact Han|]. split; [exact Hcid|]. split; [split; [exact Hc|]|].
    + intros c Hin Hid. apply (Hall c Hin Hid).
    + intros c Hin Hid. now apply (Hall c Hin Hid).
  - destruct (collection_status_after_update (source_collections s) ColFailed None Hex)
      as [Hc Hall].
    split; [exact Hrows|]. split; [exact Hc|].
    intros c Hin Hid. apply (Hall c Hin Hid).
Qed.

Lemma analyzeCollection_propagates :
  fst (CollectionAnalyzer.analyzeCollection w cid s)
  = fst (CollectionAnalyzer.analyzeSteps w cid s).
Proof.
  unfold CollectionAnalyzer.analyzeCollection, try_catch, bind, update, throw.
  destruct (CollectionAnalyzer.analyzeSteps w cid s) as [[a|e] s1]; [reflexivity|].
  destruct (db_fault w OpUpdate (clock s1)); reflexivity.
Qed.
End AnalyzeCollectionOutcome.

(** C8, as stated, fails: the answers of the two status writes are not
    read.  When the store refuses them, a successful analysis of a
    collection in 'building' returns its row and leaves the collection in
    'building' without completion time, and a failing analysis of a ready
    collection propagates the error and leaves the collection 'ready'. *)
Lemma C8_counterexample :
  (~ analysis_outcome stale_state 10
       (fst (CollectionAnalyzer.analyzeCollection
               (with_faults updates_fail (quiet_world empty_lesson)) 10 stale_state))
       (snd (CollectionAnalyzer.analyzeCollection
               (with_faults updates_fail (quiet_world empty_lesson)) 10 stale_state)) /\
   (exists a, fst (CollectionAnalyzer.analyzeCollection
                     (with_faults updates_fail (quiet_world empty_lesson)) 10 stale_state)
              = Ok a) /\
   map col_status
       (source_collections
          (snd (CollectionAnalyzer.analyzeCollection
                  (with_faults updates_fail (quiet_world empty_lesson)) 10 stale_state)))
   = [ColBuilding]) /\
  (~ analysis_outcome gapped_state 10
       (fst (CollectionAnalyzer.analyzeCollection
               (with_faults updates_fail offline_world) 10 gapped_state))
       (snd (CollectionAnalyzer.analyzeCollection
               (with_faults updates_fail offline_world) 10 gapped_state)) /\
   fst (CollectionAnalyzer.analyzeCollection
          (with_faults updates_fail offline_world) 10 gapped_state)
   = Err (JsError "network down") /\
   map col_status
       (source_collections
          (snd (CollectionAnalyzer.analyzeCollection
                  (with_faults updates_fail offline_world) 10 gapped_state)))
   = [ColReady]).
Proof.
  split; (split; [|split]).
  - intro H. vm_compute in H. destruct H as [_ [_ [[_ H] _]]].
    specialize (H _ (or_introl eq_refl) eq_refl). discriminate H.
  - vm_compute. eexists. reflexivity.
  - vm_compute. reflexivity.
  - intro H. vm_compute in H. destruct H as [_ [_ H]].
    specialize (H _ (or_introl eq_refl) eq_refl). discriminate H.
  - vm_compute. reflexivity.
  - vm_compute. reflexivity.
Qed.

(** C8 (amended): analyzeCollection appends exactly the synthesis row it
    returns when all of its steps succeed, and otherwise appends none and
    fails with the error of the failing step.  The status write that ends
    either run is not checked: when the store applies the status writes, an
    existing collection is 'ready' with the completion time stamped after a
    success and 'failed' after a failure; when the store refuses them, the
    collections are left as they were. *)
Theorem C8_analyzeCollection_outcome w cid s :
  fst (CollectionAnalyzer.analyzeCollection w cid s)
  = fst (CollectionAnalyzer.analyzeSteps w cid s) /\
  analysis_rows s cid
    (fst (CollectionAnalyzer.analyzeCollection w cid s))
    (snd (CollectionAnalyzer.analyzeCollection w cid s)) /\
  ((forall n, db_fault w OpUpdate n = None) ->
   (exists c, In c (source_collections s) /\ col_id c = cid) ->
   analysis_outcome s cid
     (fst (CollectionAnalyzer.analyzeCollection w cid s))
     (snd (CollectionAnalyzer.analyzeCollection w cid s))) /\
  ((forall n, db_fault w OpUpdate n <> None) ->
   source_collections (snd (CollectionAnalyzer.analyzeCollection w cid s))
   = source_collections s).
Proof.
  destruct (@analyzeCollection_outcome w cid s s eq_refl) as [Hrows [Happlied Hrefused]].
  split; [apply analyzeCollection_propagates|]. split; [exact Hrows|].
  split; [|exact Hrefused].
  intros Hupd Hex. apply status_written_outcome; [exact Hex | exact Hrows |].
  apply Happlied, Hupd.
Qed.

(** The synthesis succeeds in the quiet world and fails when the network
    is down. *)
Lemma C8_analyzeCollection_outcome_witness :
  analysis_outcome gapped_state 10
    (fst (CollectionAnalyzer.analyzeCollection (quiet_world empty_lesson) 10 gapped_state))
    (snd (CollectionAnalyzer.analyzeCollection (quiet_world empty_lesson) 10 gapped_state)) /\
  map col_status
      (source_collections
         (snd (CollectionAnalyzer.analyzeCollection (quiet_world empty_lesson) 10
                 gapped_state)))
  = [ColReady] /\
  analysis_outcome gapped_state 10
    (fst (CollectionAnalyzer.analyzeCollection offline_world 10 gapped_state))
    (snd (CollectionAnalyzer.analyzeCollection offline_world 10 gapped_state)) /\
  fst (CollectionAnalyzer.analyzeCollection offline_world 10 gapped_state)
  = Err (JsError "network down").
Proof.
  assert (Hex : exists c, In c (source_collections gapped_state) /\ col_id c = 10)
    by (exists demo_collection; split; [left; reflexivity | reflexivity]).
  split; [|split; [|split]].
  - apply (proj1 (proj2 (proj2 (@C8_analyzeCollection_outcome
                                  (quiet_world empty_lesson) 10 gapped_state)))
                 (fun n => eq_refl) Hex).
  - vm_compute. reflexivity.
  - apply (proj1 (proj2 (proj2 (@C8_analyzeCollection_outcome
                                  offline_world 10 gapped_state)))
                 (fun n => eq_refl) Hex).
  - vm_compute. reflexivity.
Defined.

(** * Validation of the lesson tree *)

Lemma hasTerminal_spec m :
  ClaudeLessonService.hasTerminal m = true <->
  exists o, In o (objectives m) /\ objective_kind o = terminal.
Proof.
  unfold ClaudeLessonService.hasTerminal. rewrite existsb_exists.
  split; intros [o [Hin Ho]]; exists o; (split; [exact Hin|]).
  - destruct (objective_kind o); [reflexivity | discriminate].
  - now rewrite Ho.
Qed.

Lemma validateModule_spec m s :
  snd (ClaudeLessonService.validateModule m s) = s /\
  (fst (ClaudeLessonService.validateModule m s) = Ok tt <->
   objectives m <> [] /\ exists o, In o (objectives m) /\ objective_kind o = terminal).
Proof.
  unfold ClaudeLessonService.validateModule.
  destruct (objectives m) as [|o os] eqn:Ho; simpl.
  - split; [reflexivity|]. split; [discriminate | intros [H _]; congruence].
  - pose proof (hasTerminal_spec m) as Ht. rewrite Ho in Ht.
    destruct (ClaudeLessonService.hasTerminal m); simpl; (split; [reflexivity|]).
    + split; [intros _; split; [discriminate | now apply Ht] | reflexivity].
    + split; [discriminate|]. intros [_ H]. apply Ht in H. discriminate H.
Qed.

Lemma validateModules_spec ms s :
  snd (forEach ms ClaudeLessonService.validateModule s) = s /\
  (fst (forEach ms ClaudeLessonService.validateModule s) = Ok tt <->
   forall m, In m ms ->
             objectives m <> [] /\ exists o, In o (objectives m) /\ objective_kind o = terminal).
Proof.
  induction ms as [|m ms IH]; simpl.
  - split; [reflexivity|]. split; [intros _ m [] | reflexivity].
  - unfold bind. destruct (validateModule_spec m s) as [Hs Hr].
    destruct (ClaudeLessonService.validateModule m s) as [[[]|e] s1]; simpl in *; subst s1.
    + destruct IH as [IHs IHr]. split; [exact IHs|]. rewrite IHr. split.
      * intros H m' [<-|Hm']; [now apply Hr | now apply H].
      * intros H m' Hm'. apply H. now right.
    + split; [reflexivity|]. split; [discriminate|].
      intro H. assert (Hm : Err e = Ok tt) by (apply Hr, H; now left). discriminate Hm.
Qed.

Lemma falsy_spec t : falsy (Some t) = true <-> t = "".
Proof.
  destruct t as [|a t]; simpl; split; intro H; try reflexivity; discriminate.
Qed.

(** validateLesson accepts exactly the well-formed trees that have a course title. *)
Lemma validateLesson_spec lesson s :
  snd (ClaudeLessonService.validateLesson lesson s) = s /\
  (fst (ClaudeLessonService.validateLesson lesson s) = Ok tt <->
   course_title (course lesson) <> "" /\ well_formed lesson).
Proof.
  unfold ClaudeLessonService.validateLesson, well_formed.
  pose proof (falsy_spec (course_title (course lesson))) as Hf.
  destruct (falsy (Some (course_title (course lesson)))); simpl.
  - split; [reflexivity|]. split; [discriminate|].
    intros [H _]. exfalso. apply H, Hf. reflexivity.
  - assert (Ht : course_title (course lesson) <> "")
      by (intro H; apply Hf in H; discriminate H).
    destruct (lesson_modules lesson) as [|m ms] eqn:Hms; simpl.
    + split; [reflexivity|]. split; [discriminate | intros [_ [H _]]; congruence].
    + pose proof (validateModules_spec (m :: ms) s) as [Hs Hr]. simpl in Hs, Hr.
      split; [exact Hs|]. rewrite Hr. split.
      * intro H. split; [exact Ht|]. split; [discriminate | exact H].
      * intros [_ [_ H]]. exact H.
Qed.

Lemma forEach_ext A (xs : list A) (b1 b2 : A -> M unit) :
  (forall x s, b1 x s = b2 x s) -> forall s, forEach xs b1 s = forEach xs b2 s.
Proof.
  intro H. induction xs as [|x xs IH]; intro s; simpl; [reflexivity|].
  unfold bind. rewrite H. destruct (b2 x s) as [[u|e] s1]; [apply IH | reflexivity].
Qed.

Lemma forEach_map A B (f : A -> B) (xs : list A) (body : B -> M unit) :
  forall s, forEach (map f xs) body s = forEach xs (fun x => body (f x)) s.
Proof.
  induction xs as [|x xs IH]; intro s; simpl; [reflexivity|].
  unfold bind. destruct (body (f x) s) as [[u|e] s1]; [apply IH | reflexivity].
Qed.

Lemma forIndex_map A B (f : A -> B) (xs : list A) (body : nat -> B -> M unit) :
  forall start s,
    forIndex start (map f xs) body s = forIndex start xs (fun i x => body i (f x)) s.
Proof.
  induction xs as [|x xs IH]; intros start s; simpl; [reflexivity|].
  unfold bind. destruct (body start (f x) s) as [[u|e] s1]; [apply IH | reflexivity].
Qed.

Section Validation.
Variable w : World.

(** Materialization in the collection pipeline does not look at the tags. *)
Lemma collection_saveLesson_retag tags lesson cid org s :
  CollectionOrchestrator.saveLesson w (retag tags lesson) cid org s =
  CollectionOrchestrator.saveLesson w lesson cid org s.
Proof.
  unfold CollectionOrchestrator.saveLesson, bind. simpl.
  destruct (insert w add_course _ s) as [[r|e] s1]; [|reflexivity].
  destruct (error r); [reflexivity|]. destruct (data r) as [crs|]; [|reflexivity].
  rewrite forEach_map.
  erewrite forEach_ext; [reflexivity|].
  intros m s2. unfold CollectionOrchestrator.saveModule, bind. simpl.
  destruct (insert w add_module _ s2) as [[r'|e'] s3]; [|reflexivity].
  destruct (error r'); [reflexivity|]. destruct (data r'); [|reflexivity].
  rewrite forIndex_map. reflexivity.
Qed.

Lemma memberSources_all members s :
  CollectionLessonService.memberSources (map Some members) s = (Ok members, s).
Proof.
  induction members as [|r rest IH]; simpl; [reflexivity|].
  unfold bind. now rewrite IH.
Qed.

(** generateFromCollection hands on the tree of the adapter. *)
Lemma generateFromCollection_accepts cid synthesis s col css members lesson :
  db_fault w OpSelect (clock s) = None ->
  CollectionAnalyzer.collection_with_sources cid s = [(col, css)] ->
  map snd css = map Some members ->
  claude_collection_lesson w col (map Some members) synthesis = Ok lesson ->
  fst (CollectionLessonService.generateFromCollection w cid synthesis s) =
  Ok {| course := course lesson; lesson_modules := lesson_modules lesson;
        metadata := Some {| meta_collectionId := cid;
                            sourcesUsed := map src_id members;
                            meta_synthesisStrategy := synthesisStrategy synthesis |} |}.
Proof.
  intros Hf Hcol Hmem Hgen.
  unfold CollectionLessonService.generateFromCollection, bind at 1, single.
  rewrite Hf, Hcol. simpl. rewrite Hmem. unfold bind, call.
  rewrite memberSources_all, Hgen. reflexivity.
Qed.

(** The Claude service fails on a parsed tree that validateLesson refuses. *)
Lemma claude_generateLesson_invalid analysis title j l s :
  claude_lesson_text w analysis title = Ok j ->
  parse_lesson w j = Ok l ->
  ~ (course_title (course l) <> "" /\ well_formed l) ->
  exists m, ClaudeLessonService.generateLesson w analysis title s =
            (Err (JsError ("Failed to parse lesson plan: " +++ m)), s).
Proof.
  intros Ht Hp Hbad.
  unfold ClaudeLessonService.generateLesson, bind, call, try_catch, throw.
  rewrite Ht, Hp.
  destruct (validateLesson_spec l s) as [Hs Hr].
  destruct (ClaudeLessonService.validateLesson l s) as [[[]|e] s1]; simpl in *; subst s1.
  - exfalso. apply Hbad. now apply Hr.
  - eexists. reflexivity.
Qed.

Lemma generation_input_courses ai url ty org buf name :
  external_services ai ->
  preserves (same courses) (generation_input w ai url ty org buf name).
Proof.
  intro Hai. unfold generation_input, stepsBeforeGeneration.
  apply preserves_bind.
  { unfold PipelineOrchestrator.createSource, YouTubeService.getMetadata.
    preserve; reflexivity. }
  intro source. apply preserves_bind.
  { unfold PipelineOrchestrator.updateSourceStatus. preserve; reflexivity. }
  intros _. apply preserves_bind.
  { apply external_preserves; [exact _ | apply analyzeSource_external, Hai]. }
  intro analysis. apply preserves_bind.
  { unfold PipelineOrchestrator.saveAnalysis. preserve; reflexivity. }
  intros _. apply preserves_bind.
  { unfold PipelineOrchestrator.getSourceTitle. preserve. }
  intro title. apply preserves_ret.
Qed.

(** A run of the orchestrator built on the Claude service in which the tree
    parsed from Claude's answer is refused by validateLesson. *)
Lemma claude_run_rejects url ty org buf name s analysis title j l :
  fst (generation_input w (ClaudeLessonService.services w) url ty org buf name s)
  = Ok (analysis, title) ->
  claude_lesson_text w analysis title = Ok j ->
  parse_lesson w j = Ok l ->
  ~ (course_title (course l) <> "" /\ well_formed l) ->
  exists m s',
    PipelineOrchestrator.processSourceToLesson
      w (ClaudeLessonService.services w) url ty org buf name s
    = (Err (JsError ("Failed to parse lesson plan: " +++ m)), s') /\
    courses s' = courses s.
Proof.
  intros Hin Ht Hp Hbad.
  pose proof (@generation_input_courses (ClaudeLessonService.services w) url ty org buf name
                (claude_external w) s) as Hc.
  unfold same in Hc.
  unfold generation_input, stepsBeforeGeneration in Hin, Hc.
  unfold PipelineOrchestrator.processSourceToLesson, PipelineOrchestrator.pipelineSteps.
  destruct (PipelineOrchestrator.createSource w url ty org s) as [[source|e] s1] eqn:E1;
    [|rewrite (@bind_Err _ _ _ _ _ _ _ E1) in Hin; discriminate Hin].
  rewrite (@bind_Ok _ _ _ _ _ _ _ E1) in Hin. rewrite (@bind_Ok _ _ _ _ _ _ _ E1) in Hc. rewrite (@bind_Ok _ _ _ _ _ _ _ E1).
  unfold try_catch.
  destruct (PipelineOrchestrator.updateSourceStatus w (src_id source) SrcProcessing s1)
    as [[u|e] s2] eqn:E2; [|rewrite (@bind_Err _ _ _ _ _ _ _ E2) in Hin; discriminate Hin].
  rewrite (@bind_Ok _ _ _ _ _ _ _ E2) in Hin. rewrite (@bind_Ok _ _ _ _ _ _ _ E2) in Hc. rewrite (@bind_Ok _ _ _ _ _ _ _ E2).
  destruct (PipelineOrchestrator.analyzeSource w (ClaudeLessonService.services w)
              (src_id source) url ty buf name s2)
    as [[an|e] s3] eqn:E3; [|rewrite (@bind_Err _ _ _ _ _ _ _ E3) in Hin; discriminate Hin].
  rewrite (@bind_Ok _ _ _ _ _ _ _ E3) in Hin. rewrite (@bind_Ok _ _ _ _ _ _ _ E3) in Hc. rewrite (@bind_Ok _ _ _ _ _ _ _ E3).
  destruct (PipelineOrchestrator.saveAnalysis w (src_id source) an s3)
    as [[u'|e] s4] eqn:E4; [|rewrite (@bind_Err _ _ _ _ _ _ _ E4) in Hin; discriminate Hin].
  rewrite (@bind_Ok _ _ _ _ _ _ _ E4) in Hin. rewrite (@bind_Ok _ _ _ _ _ _ _ E4) in Hc. rewrite (@bind_Ok _ _ _ _ _ _ _ E4).
  destruct (PipelineOrchestrator.getSourceTitle w (src_id source) s4)
    as [[ti|e] s5] eqn:E5; [|rewrite (@bind_Err _ _ _ _ _ _ _ E5) in Hin; discriminate Hin].
  rewrite (@bind_Ok _ _ _ _ _ _ _ E5) in Hin. rewrite (@bind_Ok _ _ _ _ _ _ _ E5) in Hc. rewrite (@bind_Ok _ _ _ _ _ _ _ E5).
  unfold ret in Hin, Hc. cbn [fst snd] in Hin, Hc.
  assert (Han : analysisData an = analysis) by congruence.
  assert (Hti : ti = title) by congruence.
  rewrite Han, Hti. cbn [ai_generateLesson ClaudeLessonService.services].
  destruct (@claude_generateLesson_invalid analysis title j l s5 Ht Hp Hbad) as [m Hgen].
  rewrite (@bind_Err _ _ _ _ _ _ _ Hgen).
  exists m.
  unfold PipelineOrchestrator.updateSourceStatus, bind, update, throw, ret.
  destruct (db_fault w OpUpdate (clock s5)); eexists; (split; [reflexivity|]);
    simpl; congruence.
Qed.
End Validation.




(** The pipeline of orchestrator.ts, built on the OpenRouter service,
    persists a course for a tree without modules. *)
Example openrouter_pipeline_persists_empty_lesson :
  map crs_title
      (courses (snd (PipelineOrchestrator.processSourceToLesson
                       (quiet_world empty_lesson)
                       (OpenRouterService.services (quiet_world empty_lesson))
                       "https://youtu.be/dQw4w9WgXcQ" youtube 3 None None emptyState)))
  = ["Ground operations"].
Proof. vm_compute. reflexivity. Qed.

(** * The status of the source after a single-source run *)

#[local] Instance same_source_ids : StepRelation (same source_ids).
Proof. constructor; unfold same, source_ids; simpl; intros; congruence. Qed.

Section SingleSourceOutcome.
Variable w : World.
Variable ai : LessonServices.
Hypothesis ai_external : external_services ai.
Hypothesis updates_applied : forall n, db_fault w OpUpdate n = None.

Lemma updateSourceStatus_applied sid st s :
  In sid (source_ids s) ->
  source_status_is (snd (PipelineOrchestrator.updateSourceStatus w sid st s)) sid st.
Proof.
  intro Hin. unfold PipelineOrchestrator.updateSourceStatus, bind, update.
  rewrite updates_applied. unfold source_status_is, source_ids in *. simpl. split.
  - rewrite map_update_where; [exact Hin | reflexivity].
  - intros r Hr Hid. apply in_update_where in Hr.
    destruct Hr as [r0 [_ [[_ ->]|[Hp ->]]]]; [reflexivity|].
    apply Nat.eqb_neq in Hp. contradiction.
Qed.

Lemma updateSourceStatus_ids sid st :
  preserves (same source_ids) (PipelineOrchestrator.updateSourceStatus w sid st).
Proof.
  unfold PipelineOrchestrator.updateSourceStatus. preserve.
  unfold same, source_ids. simpl. now apply map_update_where.
Qed.

Lemma createSource_row url ty org s source s1 :
  PipelineOrchestrator.createSource w url ty org s = (Ok source, s1) ->
  In (src_id source) (source_ids s1).
Proof.
  unfold PipelineOrchestrator.createSource. intro H.
  assert (Ht : external (match ty with
                         | youtube => try_catch (YouTubeService.getMetadata w url)
                                                (fun _ => ret url)
                         | _ => ret url
                         end)).
  { destruct ty; try apply external_ret.
    apply external_try_catch; [apply getMetadata_external | intro; apply external_ret]. }
  destruct Ht as [rt Ht]. unfold bind at 1 in H. rewrite Ht in H.
  destruct rt as [title|e]; [|discriminate H].
  unfold bind, insert in H. destruct (db_fault w OpInsert (clock s)); simpl in H;
    [discriminate H|].
  injection H as <- <-. unfold source_ids. simpl. rewrite map_app.
  apply in_or_app. right. now left.
Qed.

Lemma pipelineSteps_outcome source url ty org buf name :
  hoare (fun s1 => In (src_id source) (source_ids s1))
        (PipelineOrchestrator.pipelineSteps w ai source url ty org buf name)
        (fun r s2 => match r with
                     | Ok _ => source_status_is s2 (src_id source) SrcCompleted
                     | Err _ => In (src_id source) (source_ids s2)
                     end).
Proof.
  assert (Hkeep : forall A (m : M A),
             preserves (same source_ids) m ->
             hoare (fun s1 => In (src_id source) (source_ids s1)) m
                   (fun _ s1 => In (src_id source) (source_ids s1))).
  { intros A m Hm. eapply hoare_preserves; [exact Hm|].
    unfold same. intros s0 s1 HR H. now rewrite HR. }
  unfold PipelineOrchestrator.pipelineSteps.
  eapply hoare_bind; [apply Hkeep, updateSourceStatus_ids | | intros e s0 H; exact H].
  intros ?.
  eapply hoare_bind; [apply Hkeep | | intros e s0 H; exact H].
  { apply external_preserves; [exact _ | now apply analyzeSource_external]. }
  intros analysis.
  eapply hoare_bind; [apply Hkeep | | intros e s0 H; exact H].
  { unfold PipelineOrchestrator.saveAnalysis. preserve; reflexivity. }
  intros ?.
  eapply hoare_bind; [apply Hkeep | | intros e s0 H; exact H].
  { unfold PipelineOrchestrator.getSourceTitle. preserve. }
  intros title.
  eapply hoare_bind; [apply Hkeep | | intros e s0 H; exact H].
  { apply external_preserves; [exact _ | apply ai_external]. }
  intros lesson.
  eapply hoare_bind; [apply Hkeep | | intros e s0 H; exact H].
  { unfold PipelineOrchestrator.saveLesson, PipelineOrchestrator.saveModule,
      PipelineOrchestrator.saveObjective, PipelineOrchestrator.saveActivity.
    preserve; reflexivity. }
  intros courseId.
  eapply hoare_bind; [apply Hkeep | | intros e s0 H; exact H].
  { unfold NotebookLMService.createNotebookForCourse,
      NotebookLMService.getLessonPlanSummary. preserve; reflexivity. }
  intros ?.
  eapply hoare_bind with
    (Qm := fun _ s2 => source_status_is s2 (src_id source) SrcCompleted).
  - intros s0 Hs0. now apply updateSourceStatus_applied.
  - intros ? s0 H. exact H.
  - intros e s0 [H _]. exact H.
Qed.

(** When the store applies the status writes, a single-source run leaves
    its source completed when it succeeds and failed when it fails. *)
Lemma processSourceToLesson_outcome url ty org buf name s source s1 :
  PipelineOrchestrator.createSource w url ty org s = (Ok source, s1) ->
  source_status_is
    (snd (PipelineOrchestrator.processSourceToLesson w ai url ty org buf name s))
    (src_id source)
    match fst (PipelineOrchestrator.processSourceToLesson w ai url ty org buf name s) with
    | Ok _ => SrcCompleted
    | Err _ => SrcFailed
    end.
Proof.
  intro Hc. pose proof (createSource_row _ _ _ _ Hc) as Hin.
  pose proof (pipelineSteps_outcome source url ty org buf name s1 Hin) as Hp.
  unfold PipelineOrchestrator.processSourceToLesson.
  erewrite !bind_Ok; [|exact Hc]. unfold try_catch.
  destruct (PipelineOrchestrator.pipelineSteps w ai source url ty org buf name s1)
    as [[a|e] s2]; simpl in Hp; [exact Hp|].
  pose proof (updateSourceStatus_applied (src_id source) SrcFailed s2 Hp) as Hu.
  unfold bind, throw.
  destruct (PipelineOrchestrator.updateSourceStatus w (src_id source) SrcFailed s2)
    as [[u|e'] s3] eqn:Hupd; simpl in *; [exact Hu|].
  pose proof (updateSourceStatus_returns w (src_id source) SrcFailed s2) as Hr.
  rewrite Hupd in Hr. discriminate Hr.
Qed.
End SingleSourceOutcome.

(** * The rows that materialization writes *)

#[local] Instance same_modules : StepRelation (same modules).
Proof. step_relation. Qed.
#[local] Instance same_learning_objectives : StepRelation (same learning_objectives).
Proof. step_relation. Qed.
#[local] Instance same_learning_activities : StepRelation (same learning_activities).
Proof. step_relation. Qed.
#[local] Instance same_lesson_source_mappings : StepRelation (same lesson_source_mappings).
Proof. step_relation. Qed.

Lemma added_since_app T (l added : list T) : added_since l (l ++ added) = added.
Proof.
  unfold added_since. rewrite skipn_app, Nat.sub_diag, skipn_all. reflexivity.
Qed.

Section SingleMaterialization.
Variable w : World.

Lemma single_saveActivity_row oid j a s u s1 :
  PipelineOrchestrator.saveActivity w oid j a s = (Ok u, s1) ->
  exists r, learning_activities s1 = learning_activities s ++ [r] /\
            activity_row_matches oid j a r.
Proof.
  unfold PipelineOrchestrator.saveActivity, bind, insert.
  destruct (db_fault w OpInsert (clock s)); simpl; intro H; [discriminate H|].
  injection H as _ <-. eexists. split; [reflexivity|]. repeat split.
Qed.

Lemma single_saveActivities_rows oid acts :
  forall start s u s1,
    forIndex start acts (PipelineOrchestrator.saveActivity w oid) s = (Ok u, s1) ->
    exists rows, learning_activities s1 = learning_activities s ++ rows /\
                 all_activity_rows oid start acts rows.
Proof.
  induction acts as [|a acts IH]; intros start s u s1 H; simpl in H.
  - injection H as _ <-. exists []. rewrite app_nil_r. now split.
  - unfold bind in H.
    destruct (PipelineOrchestrator.saveActivity w oid start a s) as [[u0|e] s0] eqn:Ha;
      [|discriminate H].
    destruct (single_saveActivity_row _ _ _ _ Ha) as [r [Hr Hm]].
    destruct (IH _ _ _ _ H) as [rows [Hrows Hall]].
    exists (r :: rows). split; [|now split].
    rewrite Hrows, Hr, <- app_assoc. reflexivity.
Qed.

Lemma single_saveActivities_frame oid acts start :
  preserves (same learning_objectives)
            (forIndex start acts (PipelineOrchestrator.saveActivity w oid)) /\
  preserves (same modules)
            (forIndex start acts (PipelineOrchestrator.saveActivity w oid)) /\
  preserves (same lesson_source_mappings)
            (forIndex start acts (PipelineOrchestrator.saveActivity w oid)).
Proof.
  repeat split; unfold PipelineOrchestrator.saveActivity; preserve; reflexivity.
Qed.

Lemma single_saveObjective_rows mid i obj s u s1 :
  PipelineOrchestrator.saveObjective w mid i obj s = (Ok u, s1) ->
  exists r arows,
    learning_objectives s1 = learning_objectives s ++ [r] /\
    learning_activities s1 = learning_activities s ++ arows /\
    objective_row_matches mid i obj r /\
    all_activity_rows (obj_id r) 0 (activities obj) arows.
Proof.
  unfold PipelineOrchestrator.saveObjective, bind at 1, insert.
  destruct (db_fault w OpInsert (clock s)); simpl; intro H; [discriminate H|].
  destruct (single_saveActivities_rows _ _ _ _ H) as [arows [Ha Hall]].
  pose proof (proj1 (single_saveActivities_frame (next_id s) (activities obj) 0)) as Hf.
  match type of H with ?m ?s0 = _ => specialize (Hf s0) end.
  rewrite H in Hf. unfold same in Hf. simpl in Hf, Ha.
  eexists. exists arows. split; [exact Hf|]. split; [exact Ha|]. split; [|exact Hall].
  repeat split.
Qed.

Lemma single_saveObjectives_rows mid objs :
  forall start s u s1,
    forIndex start objs (PipelineOrchestrator.saveObjective w mid) s = (Ok u, s1) ->
    exists orows arows,
      learning_objectives s1 = learning_objectives s ++ orows /\
      learning_activities s1 = learning_activities s ++ arows /\
      objective_rows all_activity_rows mid start objs orows arows.
Proof.
  induction objs as [|o objs IH]; intros start s u s1 H; simpl in H.
  - injection H as _ <-. exists [], []. rewrite !app_nil_r. now repeat split.
  - unfold bind in H.
    destruct (PipelineOrchestrator.saveObjective w mid start o s) as [[u0|e] s0] eqn:Ho;
      [|discriminate H].
    destruct (single_saveObjective_rows _ _ _ _ Ho) as [r [mine [Hr [Hmine [Hm Hall]]]]].
    destruct (IH _ _ _ _ H) as [orows [rest [Horows [Hrest Hrec]]]].
    exists (r :: orows), (mine ++ rest). split; [|split].
    + rewrite Horows, Hr, <- app_assoc. reflexivity.
    + rewrite Hrest, Hmine, <- app_assoc. reflexivity.
    + simpl. split; [exact Hm|]. exists mine, rest. now repeat split.
Qed.

Lemma single_saveObjectives_frame mid objs start :
  preserves (same modules)
            (forIndex start objs (PipelineOrchestrator.saveObjective w mid)) /\
  preserves (same lesson_source_mappings)
            (forIndex start objs (PipelineOrchestrator.saveObjective w mid)).
Proof.
  split; unfold PipelineOrchestrator.saveObjective, PipelineOrchestrator.saveActivity;
    preserve; reflexivity.
Qed.
End SingleMaterialization.

Section SingleMaterializationModules.
Variable w : World.

Lemma single_saveModule_rows courseId sid md s u s1 :
  PipelineOrchestrator.saveModule w courseId sid md s = (Ok u, s1) ->
  exists r orows arows maps,
    modules s1 = modules s ++ [r] /\
    learning_objectives s1 = learning_objectives s ++ orows /\
    learning_activities s1 = learning_activities s ++ arows /\
    lesson_source_mappings s1 = lesson_source_mappings s ++ maps /\
    module_row_matches courseId md r /\
    objective_rows all_activity_rows (mod_id r) 0 (objectives md) orows arows /\
    mapping_rows sid [r] maps.
Proof.
  unfold PipelineOrchestrator.saveModule, bind at 1, insert.
  destruct (db_fault w OpInsert (clock s)); simpl; [intro H; discriminate H|].
  unfold bind at 1, insert. simpl.
  destruct (db_fault w OpInsert (S (clock s))); simpl; intro H;
    destruct (single_saveObjectives_rows _ _ _ _ _ H) as [orows [arows [Ho [Ha Hrows]]]];
    pose proof (single_saveObjectives_frame w (next_id s) (objectives md) 0) as [Hm Hmap];
    match type of H with ?m ?s0 = _ => specialize (Hm s0); specialize (Hmap s0) end;
    rewrite H in Hm, Hmap; unfold same in Hm, Hmap; simpl in Hm, Hmap, Ho, Ha.
  - eexists. exists orows, arows, [].
    rewrite app_nil_r. repeat split; try eassumption; try reflexivity. now left.
  - eexists. exists orows, arows. eexists.
    split; [exact Hm|]. split; [exact Ho|]. split; [exact Ha|]. split; [exact Hmap|].
    split; [repeat split|]. split; [exact Hrows|].
    right. eexists. exists []. repeat split.
Qed.

Lemma mapping_rows_cons sid r mrows mine rest :
  mapping_rows sid [r] mine -> mapping_rows sid mrows rest ->
  mapping_rows sid (r :: mrows) (mine ++ rest).
Proof.
  intros [->|[x [maps' [-> [Hs [Hm ->]]]]]] Hrest; simpl.
  - now left.
  - right. exists x, rest. now repeat split.
Qed.

Lemma single_saveModules_rows courseId sid mds :
  forall s u s1,
    forEach mds (PipelineOrchestrator.saveModule w courseId sid) s = (Ok u, s1) ->
    exists mrows orows arows maps,
      modules s1 = modules s ++ mrows /\
      learning_objectives s1 = learning_objectives s ++ orows /\
      learning_activities s1 = learning_activities s ++ arows /\
      lesson_source_mappings s1 = lesson_source_mappings s ++ maps /\
      module_rows all_activity_rows courseId mds mrows orows arows /\
      mapping_rows sid mrows maps.
Proof.
  induction mds as [|md mds IH]; intros s u s1 H; simpl in H.
  - injection H as _ <-. exists [], [], [], []. rewrite !app_nil_r. now repeat split.
  - unfold bind in H.
    destruct (PipelineOrchestrator.saveModule w courseId sid md s) as [[u0|e] s0] eqn:Hmd;
      [|discriminate H].
    destruct (single_saveModule_rows _ _ _ _ Hmd)
      as [r [os [acts [mine [Hr [Hos [Hacts [Hmine [Hm [Hobj Hmap]]]]]]]]]].
    destruct (IH _ _ _ H) as [mrows [os' [acts' [rest [Hmr [Hos' [Hacts' [Hrest [Hrec Hmaps]]]]]]]]].
    exists (r :: mrows), (os ++ os'), (acts ++ acts'), (mine ++ rest).
    split; [rewrite Hmr, Hr, <- app_assoc; reflexivity|].
    split; [rewrite Hos', Hos, <- app_assoc; reflexivity|].
    split; [rewrite Hacts', Hacts, <- app_assoc; reflexivity|].
    split; [rewrite Hrest, Hmine, <- app_assoc; reflexivity|].
    split; [|now apply mapping_rows_cons].
    simpl. split; [exact Hm|]. exists os, os', acts, acts'. now repeat split.
Qed.

(** A successful saveLesson has appended the course row and, under it,
    the whole tree. *)
Lemma single_saveLesson_rows lesson sid org s courseId s1 :
  PipelineOrchestrator.saveLesson w lesson sid org s = (Ok courseId, s1) ->
  courses s1 = courses s ++ [single_course_row lesson org courseId] /\
  module_rows all_activity_rows courseId (lesson_modules lesson)
              (added_since (modules s) (modules s1))
              (added_since (learning_objectives s) (learning_objectives s1))
              (added_since (learning_activities s) (learning_activities s1)) /\
  mapping_rows sid (added_since (modules s) (modules s1))
               (added_since (lesson_source_mappings s) (lesson_source_mappings s1)).
Proof.
  intro H.
  assert (Hf : db_fault w OpInsert (clock s) = None).
  { unfold PipelineOrchestrator.saveLesson, bind, insert in H.
    destruct (db_fault w OpInsert (clock s)); [discriminate H | reflexivity]. }
  pose proof (single_saveLesson_course w lesson sid org s Hf) as Hc.
  rewrite H in Hc. simpl in Hc.
  unfold PipelineOrchestrator.saveLesson, bind at 1, insert in H. rewrite Hf in H.
  simpl in H. unfold bind in H.
  match type of H with
  | context [forEach ?l ?b ?s0] => destruct (forEach l b s0) as [[u|e] s2] eqn:Hloop
  end; [|discriminate H].
  injection H as <- <-.
  destruct (single_saveModules_rows _ _ _ _ Hloop)
    as [mrows [orows [arows [maps [Hm [Ho [Ha [Hmap [Hrows Hmaps]]]]]]]]].
  simpl in Hm, Ho, Ha, Hmap.
  rewrite Hm, Ho, Ha, Hmap, !added_since_app.
  split; [exact Hc|]. split; assumption.
Qed.
End SingleMaterializationModules.

(** ** What the tree predicate says about numbers and parents *)

Lemma all_activity_rows_spec oid acts :
  forall start rows,
    all_activity_rows oid start acts rows ->
    map act_order_index rows = seq start (List.length acts) /\
    Forall (fun r => act_learning_objective_id r = oid) rows.
Proof.
  induction acts as [|a acts IH]; intros start [|r rows] H; simpl in H; try contradiction.
  - now split.
  - destruct H as [[Hp [Hj _]] Hrest]. apply IH in Hrest. destruct Hrest as [Hn Hf].
    split; [simpl; now rewrite Hj, Hn | now constructor].
Qed.

Lemma some_activity_rows_parent oid acts :
  forall start rows,
    some_activity_rows oid start acts rows ->
    Forall (fun r => act_learning_objective_id r = oid) rows /\
    Forall (fun r => start <= act_order_index r < start + List.length acts) rows.
Proof.
  induction acts as [|a acts IH]; intros start rows H; simpl in H.
  - subst rows. split; constructor.
  - destruct H as [H|[r [rows' [-> [[Hp [Hj _]] H]]]]].
    + apply IH in H. destruct H as [Hf Hb]. split; [exact Hf|].
      eapply Forall_impl; [|exact Hb]. simpl. intros x Hx. lia.
    + apply IH in H. destruct H as [Hf Hb]. split; [now constructor|].
      constructor; [simpl; lia|].
      eapply Forall_impl; [|exact Hb]. simpl. intros x Hx. lia.
Qed.

Section TreeRowFacts.
Variable activity_rows : uuid -> nat -> list LessonActivity -> list ActivityRow -> Prop.
Hypothesis activity_rows_parent :
  forall oid start acts rows,
    activity_rows oid start acts rows ->
    Forall (fun r => act_learning_objective_id r = oid) rows.

Lemma objective_rows_spec mid objs :
  forall start orows arows,
    objective_rows activity_rows mid start objs orows arows ->
    map obj_order_index orows = seq start (List.length objs) /\
    map obj_objective_type orows = map objective_kind objs /\
    Forall (fun r => obj_module_id r = mid) orows /\
    Forall (fun a => In (act_learning_objective_id a) (map obj_id orows)) arows.
Proof.
  induction objs as [|o objs IH]; intros start [|r orows] arows H; simpl in H;
    try contradiction.
  - subst arows. repeat split; constructor.
  - destruct H as [[Hm [Hi [Hk _]]] [mine [rest [-> [Hmine Hrec]]]]].
    apply IH in Hrec. destruct Hrec as [Hn [Hkinds [Hparent Hacts]]].
    split; [simpl; now rewrite Hi, Hn|].
    split; [simpl; now rewrite Hk, Hkinds|].
    split; [now constructor|].
    apply Forall_app. split.
    + apply activity_rows_parent in Hmine.
      eapply Forall_impl; [|exact Hmine].
      simpl. intros a Ha. now left.
    + eapply Forall_impl; [|exact Hacts]. simpl. intros a Ha. now right.
Qed.

Lemma module_rows_spec courseId mds :
  forall mrows orows arows,
    module_rows activity_rows courseId mds mrows orows arows ->
    map mod_module_number mrows = map moduleNumber mds /\
    Forall (fun r => mod_course_id r = courseId) mrows /\
    map obj_order_index orows =
      flat_map (fun m => seq 0 (List.length (objectives m))) mds /\
    map obj_objective_type orows = map objective_kind (flat_map objectives mds) /\
    Forall (fun o => In (obj_module_id o) (map mod_id mrows)) orows /\
    Forall (fun a => In (act_learning_objective_id a) (map obj_id orows)) arows.
Proof.
  induction mds as [|md mds IH]; intros [|r mrows] orows arows H; simpl in H;
    try contradiction.
  - destruct H as [-> ->]. repeat split; constructor.
  - destruct H as [[Hc [Hnum _]] [os [os' [acts [acts' [-> [-> [Hobj Hrec]]]]]]]].
    apply objective_rows_spec in Hobj. destruct Hobj as [Hn [Hk [Hp Ha]]].
    apply IH in Hrec. destruct Hrec as [Hnums [Hcourse [Hns [Hks [Hps Has]]]]].
    split; [simpl; now rewrite Hnum, Hnums|].
    split; [now constructor|].
    split; [simpl; now rewrite map_app, Hn, Hns|].
    split; [simpl; now rewrite !map_app, Hk, Hks|].
    split.
    + apply Forall_app. split.
      * eapply Forall_impl; [|exact Hp]. simpl. intros o Ho. now left.
      * eapply Forall_impl; [|exact Hps]. simpl. intros o Ho. now right.
    + apply Forall_app. split.
      * eapply Forall_impl; [|exact Ha]. simpl. intros a Hin.
        rewrite map_app. apply in_or_app. now left.
      * eapply Forall_impl; [|exact Has]. simpl. intros a Hin.
        rewrite map_app. apply in_or_app. now right.
Qed.
End TreeRowFacts.

Lemma objective_rows_activity_numbers mid objs :
  forall start orows arows,
    objective_rows all_activity_rows mid start objs orows arows ->
    map act_order_index arows =
      flat_map (fun o => seq 0 (List.length (activities o))) objs.
Proof.
  induction objs as [|o objs IH]; intros start [|r orows] arows H; simpl in H;
    try contradiction.
  - now subst arows.
  - destruct H as [_ [mine [rest [-> [Hmine Hrec]]]]].
    apply all_activity_rows_spec in Hmine. apply IH in Hrec.
    simpl. rewrite map_app, (proj1 Hmine). now rewrite Hrec.
Qed.

Lemma module_rows_activity_numbers courseId mds :
  forall mrows orows arows,
    module_rows all_activity_rows courseId mds mrows orows arows ->
    map act_order_index arows =
      flat_map (fun o => seq 0 (List.length (activities o))) (flat_map objectives mds).
Proof.
  induction mds as [|md mds IH]; intros [|r mrows] orows arows H; simpl in H;
    try contradiction.
  - now destruct H as [-> ->].
  - destruct H as [_ [os [os' [acts [acts' [-> [-> [Hobj Hrec]]]]]]]].
    apply objective_rows_activity_numbers in Hobj. apply IH in Hrec.
    simpl. rewrite map_app, flat_map_app. now rewrite Hobj, Hrec.
Qed.

Lemma mapping_rows_spec sid mrows :
  forall maps,
    mapping_rows sid mrows maps ->
    Forall (fun r => map_source_id r = sid /\ In (map_module_id r) (map mod_id mrows)) maps.
Proof.
  induction mrows as [|m mrows IH]; intros maps H; simpl in H.
  - subst maps. constructor.
  - destruct H as [H|[r [maps' [-> [Hs [Hm H]]]]]]; apply IH in H.
    + eapply Forall_impl; [|exact H]. simpl. intros x [Hx Hin]. split; [exact Hx | now right].
    + constructor; [split; [exact Hs | now left]|].
      eapply Forall_impl; [|exact H]. simpl. intros x [Hx Hin]. split; [exact Hx | now right].
Qed.

Lemma single_saveLesson_run w lesson sid org s courseId :
  fst (PipelineOrchestrator.saveLesson w lesson sid org s) = Ok courseId ->
  courses (snd (PipelineOrchestrator.saveLesson w lesson sid org s))
  = courses s ++ [single_course_row lesson org courseId] /\
  module_rows all_activity_rows courseId (lesson_modules lesson)
    (added_since (modules s)
       (modules (snd (PipelineOrchestrator.saveLesson w lesson sid org s))))
    (added_since (learning_objectives s)
       (learning_objectives (snd (PipelineOrchestrator.saveLesson w lesson sid org s))))
    (added_since (learning_activities s)
       (learning_activities (snd (PipelineOrchestrator.saveLesson w lesson sid org s)))) /\
  mapping_rows sid
    (added_since (modules s)
       (modules (snd (PipelineOrchestrator.saveLesson w lesson sid org s))))
    (added_since (lesson_source_mappings s)
       (lesson_source_mappings (snd (PipelineOrchestrator.saveLesson w lesson sid org s)))).
Proof.
  destruct (PipelineOrchestrator.saveLesson w lesson sid org s) as [r s1] eqn:H.
  simpl. intros ->. eapply single_saveLesson_rows; eassumption.
Qed.

(** ** Materialization in the single-source pipeline *)

(** When saveLesson succeeds it has appended one draft course row with
    the returned id and, for the lesson tree, one module row per module,
    one objective row per objective and one activity row per activity, in
    the order of the tree and with the contents of the tree; the mapping
    rows it appended link the source to some of the new module rows. *)
Theorem saveLesson_writes_the_tree w lesson sid org s courseId :
  fst (PipelineOrchestrator.saveLesson w lesson sid org s) = Ok courseId ->
  courses (snd (PipelineOrchestrator.saveLesson w lesson sid org s))
  = courses s ++ [single_course_row lesson org courseId] /\
  module_rows all_activity_rows courseId (lesson_modules lesson)
    (added_since (modules s)
       (modules (snd (PipelineOrchestrator.saveLesson w lesson sid org s))))
    (added_since (learning_objectives s)
       (learning_objectives (snd (PipelineOrchestrator.saveLesson w lesson sid org s))))
    (added_since (learning_activities s)
       (learning_activities (snd (PipelineOrchestrator.saveLesson w lesson sid org s)))) /\
  mapping_rows sid
    (added_since (modules s)
       (modules (snd (PipelineOrchestrator.saveLesson w lesson sid org s))))
    (added_since (lesson_source_mappings s)
       (lesson_source_mappings (snd (PipelineOrchestrator.saveLesson w lesson sid org s)))).
Proof.
  apply single_saveLesson_run.
Qed.

Lemma saveLesson_writes_the_tree_witness :
  module_rows all_activity_rows 0 (lesson_modules (demo_lesson []))
    (added_since (modules emptyState)
       (modules (snd (PipelineOrchestrator.saveLesson (quiet_world (demo_lesson []))
                        (demo_lesson []) 7 3 emptyState))))
    (added_since (learning_objectives emptyState)
       (learning_objectives (snd (PipelineOrchestrator.saveLesson
                        (quiet_world (demo_lesson [])) (demo_lesson []) 7 3 emptyState))))
    (added_since (learning_activities emptyState)
       (learning_activities (snd (PipelineOrchestrator.saveLesson
                        (quiet_world (demo_lesson [])) (demo_lesson []) 7 3 emptyState)))).
Proof.
  apply (@saveLesson_writes_the_tree (quiet_world (demo_lesson [])) (demo_lesson []) 7 3
           emptyState 0).
  vm_compute. reflexivity.
Defined.

(** When saveLesson succeeds the new rows carry the module numbers of the
    tree, and the order indices of the new objective rows and of the new
    activity rows count from zero without gap under every parent. *)
Theorem saveLesson_numbers_siblings_from_zero w lesson sid org s courseId :
  fst (PipelineOrchestrator.saveLesson w lesson sid org s) = Ok courseId ->
  map mod_module_number
      (added_since (modules s)
         (modules (snd (PipelineOrchestrator.saveLesson w lesson sid org s))))
  = map moduleNumber (lesson_modules lesson) /\
  map obj_order_index
      (added_since (learning_objectives s)
         (learning_objectives (snd (PipelineOrchestrator.saveLesson w lesson sid org s))))
  = objective_numbers lesson /\
  map obj_objective_type
      (added_since (learning_objectives s)
         (learning_objectives (snd (PipelineOrchestrator.saveLesson w lesson sid org s))))
  = map objective_kind (all_objectives lesson) /\
  map act_order_index
      (added_since (learning_activities s)
         (learning_activities (snd (PipelineOrchestrator.saveLesson w lesson sid org s))))
  = activity_numbers lesson.
Proof.
  intro H. apply single_saveLesson_run in H. destruct H as [_ [Hrows _]].
  pose proof Hrows as Hacts. apply module_rows_activity_numbers in Hacts.
  apply module_rows_spec in Hrows;
    [|intros oid start acts rows Hr; now apply all_activity_rows_spec in Hr].
  destruct Hrows as [Hn [_ [Ho [Hk _]]]].
  unfold objective_numbers, activity_numbers, all_objectives. now repeat split.
Qed.

Lemma saveLesson_numbers_siblings_from_zero_witness :
  map obj_order_index
      (added_since (learning_objectives emptyState)
         (learning_objectives (snd (PipelineOrchestrator.saveLesson
            (quiet_world (demo_lesson [])) (demo_lesson []) 7 3 emptyState))))
  = [0].
Proof.
  apply (proj1 (proj2 (@saveLesson_numbers_siblings_from_zero
                         (quiet_world (demo_lesson [])) (demo_lesson []) 7 3 emptyState 0
                         ltac:(vm_compute; reflexivity)))).
Defined.

(** When saveLesson succeeds every new module row belongs to the returned
    course, every new objective row to one of the new module rows, every
    new activity row to one of the new objective rows, and every new
    mapping row links the source to one of the new module rows. *)
Theorem saveLesson_rows_reference_their_parents w lesson sid org s courseId :
  fst (PipelineOrchestrator.saveLesson w lesson sid org s) = Ok courseId ->
  let s' := snd (PipelineOrchestrator.saveLesson w lesson sid org s) in
  Forall (fun m => mod_course_id m = courseId) (added_since (modules s) (modules s')) /\
  Forall (fun o => In (obj_module_id o)
                      (map mod_id (added_since (modules s) (modules s'))))
         (added_since (learning_objectives s) (learning_objectives s')) /\
  Forall (fun a => In (act_learning_objective_id a)
                      (map obj_id (added_since (learning_objectives s)
                                               (learning_objectives s'))))
         (added_since (learning_activities s) (learning_activities s')) /\
  Forall (fun r => map_source_id r = sid /\
                   In (map_module_id r)
                      (map mod_id (added_since (modules s) (modules s'))))
         (added_since (lesson_source_mappings s) (lesson_source_mappings s')).
Proof.
  intros H s'. apply single_saveLesson_run in H. destruct H as [_ [Hrows Hmaps]].
  fold s' in Hrows, Hmaps.
  apply module_rows_spec in Hrows;
    [|intros oid start acts rows Hr; now apply all_activity_rows_spec in Hr].
  destruct Hrows as [_ [Hc [_ [_ [Ho Ha]]]]].
  apply mapping_rows_spec in Hmaps. now repeat split.
Qed.

Lemma saveLesson_rows_reference_their_parents_witness :
  Forall (fun m => mod_course_id m = 0)
         (added_since (modules emptyState)
            (modules (snd (PipelineOrchestrator.saveLesson
               (quiet_world (demo_lesson [])) (demo_lesson []) 7 3 emptyState)))).
Proof.
  apply (proj1 (@saveLesson_rows_reference_their_parents
                  (quiet_world (demo_lesson [])) (demo_lesson []) 7 3 emptyState 0
                  ltac:(vm_compute; reflexivity))).
Defined.

(** * What the pipelines leave alone *)

Ltac tables_relation :=
  constructor;
  cbv beta delta [same collection_tables source_tables lesson_rows lessons_and_syntheses
                  sources_links_and_lessons sources_links_and_mappings all_but_courses
                  graph_rows];
  simpl; intros; congruence.

#[local] Instance same_collection_tables : StepRelation (same collection_tables).
Proof. tables_relation. Qed.
#[local] Instance same_lessons_and_syntheses : StepRelation (same lessons_and_syntheses).
Proof. tables_relation. Qed.
#[local] Instance same_sources_links_and_lessons :
  StepRelation (same sources_links_and_lessons).
Proof. tables_relation. Qed.
#[local] Instance same_sources_links_and_mappings :
  StepRelation (same sources_links_and_mappings).
Proof. tables_relation. Qed.
#[local] Instance same_all_but_courses : StepRelation (same all_but_courses).
Proof. tables_relation. Qed.
#[local] Instance same_col_ids :
  StepRelation (same (fun s => map col_id (source_collections s))).
Proof. tables_relation. Qed.
#[local] Instance same_other_collections cid :
  StepRelation (same (fun s => filter (fun c => negb (Nat.eqb (col_id c) cid))
                                      (source_collections s))).
Proof. tables_relation. Qed.

Lemma update_where_col_ids p st t (rows : list CollectionRow) :
  map col_id (update_where p (CollectionAnalyzer.collection_with_status st t) rows)
  = map col_id rows.
Proof.
  unfold update_where. rewrite map_map. apply map_ext.
  intro c. now destruct (p c).
Qed.

Section SingleFrame.
Variable w : World.
Variable ai : LessonServices.
Hypothesis ai_external : external_services ai.

Lemma processSourceToLesson_collections url ty org buf name :
  preserves (same collection_tables)
            (PipelineOrchestrator.processSourceToLesson w ai url ty org buf name).
Proof.
  unfold PipelineOrchestrator.processSourceToLesson.
  apply preserves_bind.
  { unfold PipelineOrchestrator.createSource, YouTubeService.getMetadata.
    preserve; reflexivity. }
  intro source. apply preserves_try_catch.
  2:{ unfold PipelineOrchestrator.updateSourceStatus. preserve; reflexivity. }
  unfold PipelineOrchestrator.pipelineSteps.
  apply preserves_bind;
    [unfold PipelineOrchestrator.updateSourceStatus; preserve; reflexivity | intros ?].
  apply preserves_bind;
    [apply external_preserves; [exact _ | now apply analyzeSource_external] | intros analysis].
  apply preserves_bind;
    [unfold PipelineOrchestrator.saveAnalysis; preserve; reflexivity | intros ?].
  apply preserves_bind;
    [unfold PipelineOrchestrator.getSourceTitle; preserve | intros title].
  apply preserves_bind;
    [apply external_preserves; [exact _ | apply ai_external] | intros lesson].
  apply preserves_bind.
  { unfold PipelineOrchestrator.saveLesson, PipelineOrchestrator.saveModule,
      PipelineOrchestrator.saveObjective, PipelineOrchestrator.saveActivity.
    preserve; reflexivity. }
  intros courseId. apply preserves_bind.
  { unfold NotebookLMService.createNotebookForCourse,
      NotebookLMService.getLessonPlanSummary. preserve; reflexivity. }
  intros ?.
  unfold PipelineOrchestrator.updateSourceStatus. preserve; reflexivity.
Qed.
End SingleFrame.

Lemma addSourceToCollection_lessons w cid url ty buf name :
  preserves (same lessons_and_syntheses)
            (CollectionOrchestrator.addSourceToCollection w cid url ty buf name).
Proof.
  unfold CollectionOrchestrator.addSourceToCollection,
    CollectionOrchestrator.getCollectionOrgId, CollectionOrchestrator.analyzeNewSource,
    CollectionOrchestrator.getMaxOrderIndex, CollectionOrchestrator.saveSourceAnalysis,
    TranscriptService.fetchYouTubeTranscript, GeminiVideoService.analyzeVideo,
    GeminiDocumentService.analyzeDocument, YouTubeService.getMetadata.
  preserve; reflexivity.
Qed.

Lemma analyzeCollection_preserves (R : State -> State -> Prop) {HR : StepRelation R} w cid :
  (forall s row, R s (add_collection_analysis row s)) ->
  (forall s st t, R s (set_source_collections
                         (update_where (fun c => Nat.eqb (col_id c) cid)
                                       (CollectionAnalyzer.collection_with_status st t)) s)) ->
  preserves R (CollectionAnalyzer.analyzeCollection w cid).
Proof.
  intros Hadd Hupd.
  unfold CollectionAnalyzer.analyzeCollection, CollectionAnalyzer.analyzeSteps.
  apply preserves_try_catch.
  2:{ intro e. apply preserves_bind; [|intro; apply preserves_throw].
      apply preserves_update. intro s. apply Hupd. }
  apply preserves_bind; [apply preserves_single|]. intro r.
  destruct (data r) as [[col css]|]; [|apply preserves_throw].
  apply preserves_bind.
  { apply ensureSourceAnalyses_from_preserves; exact _. }
  intro analyses. apply preserves_bind.
  { apply external_preserves; [exact _ | apply synthesizeAcrossAnalyses_external]. }
  intro synthesis. apply preserves_bind.
  { apply preserves_insert. intro s. apply Hadd. }
  intro r'. destruct (error r'); [apply preserves_throw|].
  destruct (data r'); [|apply preserves_throw].
  apply preserves_bind; [|intro; apply preserves_ret].
  apply preserves_update. intro s. apply Hupd.
Qed.

Lemma memberSources_external srcs : external (CollectionLessonService.memberSources srcs).
Proof.
  induction srcs as [|[r|] rest IH]; simpl; externally. exact IH.
Qed.

Lemma generateFromCollection_preserves (R : State -> State -> Prop) {HR : StepRelation R}
    w cid synthesis :
  preserves R (CollectionLessonService.generateFromCollection w cid synthesis).
Proof.
  unfold CollectionLessonService.generateFromCollection.
  apply preserves_bind; [apply preserves_single|]. intro r.
  destruct (data r) as [[col css]|]; [|apply preserves_throw].
  apply preserves_bind;
    [apply external_preserves; [exact _ | apply memberSources_external]|].
  intro members. apply preserves_bind; [apply preserves_call|].
  intro lesson. apply preserves_ret.
Qed.

Lemma processCollectionToLesson_preserves (R : State -> State -> Prop) {HR : StepRelation R}
    w cid org :
  (forall s row, R s (add_collection_analysis row s)) ->
  (forall s st t, R s (set_source_collections
                         (update_where (fun c => Nat.eqb (col_id c) cid)
                                       (CollectionAnalyzer.collection_with_status st t)) s)) ->
  (forall s row, R s (add_course row s)) ->
  (forall s row, R s (add_module row s)) ->
  (forall s row, R s (add_objective row s)) ->
  (forall s row, R s (add_activity row s)) ->
  preserves R (CollectionOrchestrator.processCollectionToLesson w cid org).
Proof.
  intros Hca Hcol Hc Hm Ho Ha.
  unfold CollectionOrchestrator.processCollectionToLesson.
  apply preserves_try_catch; [|intro; apply preserves_throw].
  apply preserves_bind.
  { unfold CollectionOrchestrator.ensureCollectionAnalysis.
    apply preserves_bind; [apply preserves_single|]. intro r.
    destruct (data r); [apply preserves_ret|].
    now apply analyzeCollection_preserves. }
  intro analysis. apply preserves_bind; [now apply generateFromCollection_preserves|].
  intro lesson. apply preserves_bind; [|intro; apply preserves_ret].
  unfold CollectionOrchestrator.saveLesson, CollectionOrchestrator.saveModule,
    CollectionOrchestrator.saveObjective, CollectionOrchestrator.saveActivity.
  preserve; auto.
Qed.

(** The rows of the other collections. *)
Lemma other_collections_update_where cid f (rows : list CollectionRow) :
  (forall c, col_id (f c) = col_id c) ->
  filter (fun c => negb (Nat.eqb (col_id c) cid))
         (update_where (fun c => Nat.eqb (col_id c) cid) f rows)
  = filter (fun c => negb (Nat.eqb (col_id c) cid)) rows.
Proof.
  intro Hf. induction rows as [|c rows IH]; simpl; [reflexivity|].
  destruct (Nat.eqb (col_id c) cid) eqn:Hc; simpl.
  - rewrite Hf, Hc. simpl. exact IH.
  - rewrite Hc. simpl. now rewrite IH.
Qed.

(** ** The single-source pipeline and the collections *)

(** A single-source run writes nothing to the collections, to their links
    or to their syntheses, whatever its outcome. *)
Theorem processSourceToLesson_leaves_collections w ai url ty org buf name s :
  external_services ai ->
  collection_tables
    (snd (PipelineOrchestrator.processSourceToLesson w ai url ty org buf name s))
  = collection_tables s.
Proof.
  intro Hai. now apply processSourceToLesson_collections.
Qed.

Lemma processSourceToLesson_leaves_collections_witness :
  collection_tables
    (snd (PipelineOrchestrator.processSourceToLesson
            (quiet_world (demo_lesson []))
            (OpenRouterService.services (quiet_world (demo_lesson [])))
            "https://youtu.be/dQw4w9WgXcQ" youtube 3 None None collection_state))
  = collection_tables collection_state.
Proof.
  apply (@processSourceToLesson_leaves_collections
           (quiet_world (demo_lesson []))
           (OpenRouterService.services (quiet_world (demo_lesson [])))
           "https://youtu.be/dQw4w9WgXcQ" youtube 3 None None collection_state
           (openrouter_external (quiet_world (demo_lesson [])))).
Defined.

(** ** Adding a source *)

(** Adding a source to a collection writes no course, module, mapping,
    objective or activity row and no synthesis, whatever its outcome: the
    syntheses of the collection stay as they were before the new member. *)
Theorem addSourceToCollection_generates_nothing w cid url ty buf name s :
  graph_rows (snd (CollectionOrchestrator.addSourceToCollection w cid url ty buf name s))
  = graph_rows s /\
  collection_analyses
    (snd (CollectionOrchestrator.addSourceToCollection w cid url ty buf name s))
  = collection_analyses s.
Proof.
  pose proof (addSourceToCollection_lessons w cid url ty buf name s) as H.
  unfold same, lessons_and_syntheses in H.
  split; [exact (f_equal fst H) | exact (f_equal snd H)].
Qed.

(** ** The analysis of a collection *)

(** analyzeCollection writes nothing to the sources, to their analyses, to
    the links or to the lesson graph, and it leaves the rows of every
    other collection as they were. *)
Theorem analyzeCollection_touches_one_collection w cid s :
  sources_links_and_lessons (snd (CollectionAnalyzer.analyzeCollection w cid s))
  = sources_links_and_lessons s /\
  map col_id (source_collections (snd (CollectionAnalyzer.analyzeCollection w cid s)))
  = map col_id (source_collections s) /\
  filter (fun c => negb (Nat.eqb (col_id c) cid))
         (source_collections (snd (CollectionAnalyzer.analyzeCollection w cid s)))
  = filter (fun c => negb (Nat.eqb (col_id c) cid)) (source_collections s).
Proof.
  split; [|split].
  - apply (@analyzeCollection_preserves (same sources_links_and_lessons) _ w cid);
      intros; reflexivity.
  - apply (@analyzeCollection_preserves
             (same (fun s => map col_id (source_collections s))) _ w cid);
      intros; unfold same; simpl; [reflexivity | apply update_where_col_ids].
  - apply (@analyzeCollection_preserves
             (same (fun s => filter (fun c => negb (Nat.eqb (col_id c) cid))
                                    (source_collections s))) _ w cid);
      intros; unfold same; simpl; [reflexivity|].
    now apply other_collections_update_where.
Qed.

(** ** Generation from a collection *)

(** A collection run writes nothing to the sources, to their analyses or
    to the links, and it writes no mapping row: which sources a module of
    the new course draws on is not stored.  The rows of the other
    collections stay as they were. *)
Theorem processCollectionToLesson_writes_no_mapping w cid org s :
  sources_links_and_mappings
    (snd (CollectionOrchestrator.processCollectionToLesson w cid org s))
  = sources_links_and_mappings s /\
  filter (fun c => negb (Nat.eqb (col_id c) cid))
         (source_collections
            (snd (CollectionOrchestrator.processCollectionToLesson w cid org s)))
  = filter (fun c => negb (Nat.eqb (col_id c) cid)) (source_collections s).
Proof.
  split.
  - apply (@processCollectionToLesson_preserves (same sources_links_and_mappings) _ w cid org);
      intros; reflexivity.
  - apply (@processCollectionToLesson_preserves
             (same (fun s => filter (fun c => negb (Nat.eqb (col_id c) cid))
                                    (source_collections s))) _ w cid org);
      intros; unfold same; simpl; try reflexivity.
    now apply other_collections_update_where.
Qed.

(** * The single-source run: its first and last steps *)

#[local] Instance same_courses_without_notebooks :
  StepRelation (same courses_without_notebooks).
Proof. constructor; unfold same, courses_without_notebooks; simpl; intros; congruence. Qed.

Lemma createNotebookForCourse_preserves (R : State -> State -> Prop) {HR : StepRelation R}
    w courseId url ty :
  (forall s f, (forall c, course_without_notebook (f c) = course_without_notebook c) ->
               R s (set_courses (update_where (fun c => Nat.eqb (crs_id c) courseId) f) s)) ->
  preserves R (NotebookLMService.createNotebookForCourse w courseId url ty).
Proof.
  intro Hupd.
  unfold NotebookLMService.createNotebookForCourse, NotebookLMService.getLessonPlanSummary.
  preserve. apply Hupd. reflexivity.
Qed.

(** ** The notebook step *)

(** createNotebookForCourse never raises: it answers null instead.  It
    writes to no table but courses, where it changes nothing but notebook
    ids, and the notebook it prepares counts one to three sources. *)
Theorem createNotebookForCourse_is_not_fatal w courseId url ty s :
  (exists answer,
      fst (NotebookLMService.createNotebookForCourse w courseId url ty s) = Ok answer /\
      forall n, answer = Some n -> 1 <= n <= 3) /\
  all_but_courses (snd (NotebookLMService.createNotebookForCourse w courseId url ty s))
  = all_but_courses s /\
  courses_without_notebooks
    (snd (NotebookLMService.createNotebookForCourse w courseId url ty s))
  = courses_without_notebooks s.
Proof.
  split; [|split].
  - unfold NotebookLMService.createNotebookForCourse, try_catch, bind.
    destruct (NotebookLMService.getLessonPlanSummary w courseId s) as [[summary|e] s1];
      [|exists None; split; [reflexivity | discriminate]].
    destruct (update w _ s1) as [[r|e] s2];
      [|exists None; split; [reflexivity | discriminate]].
    destruct (error r); [exists None; split; [reflexivity | discriminate]|].
    eexists. split; [reflexivity|]. intros n [= <-].
    destruct (_ && _), summary; simpl; lia.
  - apply (@createNotebookForCourse_preserves (same all_but_courses) _ w courseId url ty).
    intros; reflexivity.
  - apply (@createNotebookForCourse_preserves (same courses_without_notebooks) _
             w courseId url ty).
    intros s0 f Hf. unfold same, courses_without_notebooks. simpl.
    now apply map_update_where.
Qed.

(** ** The source row *)

Lemma createSource_title w url ty :
  exists title,
    (forall s, match ty with
               | youtube => try_catch (YouTubeService.getMetadata w url) (fun _ => ret url)
               | _ => ret url
               end s = (Ok title, s)) /\
    (ty <> youtube \/ extractVideoId w url = None -> title = url).
Proof.
  destruct ty; try (exists url; split; [reflexivity | reflexivity]).
  unfold YouTubeService.getMetadata, try_catch.
  destruct (extractVideoId w url) as [videoId|].
  - destruct (oembed_title w videoId) as [t|]; eexists;
      (split; [reflexivity | intros [H|H]; [now elim H | discriminate H]]).
  - exists url. split; reflexivity.
Qed.

Lemma createSource_run w url ty org s :
  exists title,
    PipelineOrchestrator.createSource w url ty org s
    = match db_fault w OpInsert (clock s) with
      | Some msg => (Err (JsError ("Failed to create source: " +++ msg)), tick s)
      | None =>
          let row := {| src_id := next_id s; src_organization_id := org;
                        src_type := ty; src_url := url; src_title := title;
                        src_status := SrcPending; src_transcript := None;
                        src_duration_seconds := None; src_updated_at := clock s |} in
          (Ok row, tick (set_next_id S (add_source row s)))
      end /\
    (ty <> youtube \/ extractVideoId w url = None -> title = url).
Proof.
  destruct (createSource_title w url ty) as [title [Ht Hurl]].
  exists title. split; [|exact Hurl].
  unfold PipelineOrchestrator.createSource.
  unfold bind at 1. rewrite Ht. unfold bind, insert.
  destruct (db_fault w OpInsert (clock s)) as [msg|]; reflexivity.
Qed.

(** createSource fails when the store refuses the insert, and only then:
    it then reports the message of the store and no row is written.
    Otherwise it appends one 'pending' row for the given URL, type and
    organization and returns it; the title is the URL for a document and
    for a YouTube URL in which no video id is found. *)
Theorem createSource_outcome w url ty org s :
  match db_fault w OpInsert (clock s) with
  | Some msg =>
      PipelineOrchestrator.createSource w url ty org s
      = (Err (JsError ("Failed to create source: " +++ msg)), tick s)
  | None =>
      exists source,
        fst (PipelineOrchestrator.createSource w url ty org s) = Ok source /\
        sources (snd (PipelineOrchestrator.createSource w url ty org s))
        = sources s ++ [source] /\
        src_id source = next_id s /\ src_status source = SrcPending /\
        src_url source = url /\ src_type source = ty /\
        src_organization_id source = org /\
        (ty <> youtube \/ extractVideoId w url = None -> src_title source = url)
  end.
Proof.
  destruct (createSource_run w url ty org s) as [title [Hrun Hurl]].
  rewrite Hrun. destruct (db_fault w OpInsert (clock s)) as [msg|]; [reflexivity|].
  eexists. simpl. repeat split. exact Hurl.
Qed.

(** ** A document without its file *)

Lemma updateSourceStatus_run w sid st s :
  exists s', PipelineOrchestrator.updateSourceStatus w sid st s = (Ok tt, s') /\
             source_analyses s' = source_analyses s /\
             graph_rows s' = graph_rows s /\
             source_ids s' = source_ids s.
Proof.
  unfold PipelineOrchestrator.updateSourceStatus, bind, update, ret.
  destruct (db_fault w OpUpdate (clock s)); eexists; (split; [reflexivity|]);
    repeat split.
  unfold source_ids. simpl. now apply map_update_where.
Qed.

Lemma analyzeSource_without_file w ai sid url ty buf name s :
  ty <> youtube -> buf = None \/ falsy name = true ->
  PipelineOrchestrator.analyzeSource w ai sid url ty buf name s
  = (Err (JsError "File buffer and name are required for document analysis"), s).
Proof.
  intros Hty Hfile. unfold PipelineOrchestrator.analyzeSource.
  destruct ty; [now elim Hty| |];
    (destruct buf as [b|]; [|reflexivity]; destruct name as [n|]; [|reflexivity];
     destruct Hfile as [H|H]; [discriminate H | now rewrite H]).
Qed.

Lemma document_without_file_run w ai url ty org buf name s :
  ty <> youtube -> buf = None \/ falsy name = true ->
  db_fault w OpInsert (clock s) = None ->
  exists s3,
    PipelineOrchestrator.processSourceToLesson w ai url ty org buf name s
    = (Err (JsError "File buffer and name are required for document analysis"), s3) /\
    source_analyses s3 = source_analyses s /\
    graph_rows s3 = graph_rows s /\
    source_ids s3 = source_ids s ++ [next_id s].
Proof.
  intros Hty Hfile Hins.
  destruct (createSource_run w url ty org s) as [title [Hrun _]]. rewrite Hins in Hrun.
  cbv zeta in Hrun.
  match type of Hrun with
  | _ = (_, ?st) => set (s1 := st) in *
  end.
  destruct (updateSourceStatus_run w (next_id s) SrcProcessing s1)
    as [s2 [H2 [Ha2 [Hg2 Hi2]]]].
  destruct (updateSourceStatus_run w (next_id s) SrcFailed s2)
    as [s3 [H3 [Ha3 [Hg3 Hi3]]]].
  exists s3. split.
  { unfold PipelineOrchestrator.processSourceToLesson.
    erewrite bind_Ok; [|exact Hrun]. cbv beta.
    unfold try_catch, PipelineOrchestrator.pipelineSteps.
    erewrite bind_Ok; [|exact H2].
    erewrite bind_Err; [|now apply analyzeSource_without_file].
    erewrite bind_Ok; [|exact H3]. reflexivity. }
  rewrite Ha3, Ha2, Hg3, Hg2, Hi3, Hi2. repeat split.
  unfold source_ids, s1. simpl. now rewrite map_app.
Qed.

(** A run on a pdf or pptx source that comes without file buffer or
    without file name fails at the analysis step with the message below,
    once the source row is written: the row stays, no analysis and no
    lesson row is written. *)
Theorem processSourceToLesson_needs_the_file w ai url ty org buf name s :
  ty <> youtube -> buf = None \/ falsy name = true ->
  db_fault w OpInsert (clock s) = None ->
  fst (PipelineOrchestrator.processSourceToLesson w ai url ty org buf name s)
  = Err (JsError "File buffer and name are required for document analysis") /\
  source_analyses (snd (PipelineOrchestrator.processSourceToLesson w ai url ty org buf name s))
  = source_analyses s /\
  graph_rows (snd (PipelineOrchestrator.processSourceToLesson w ai url ty org buf name s))
  = graph_rows s /\
  source_ids (snd (PipelineOrchestrator.processSourceToLesson w ai url ty org buf name s))
  = source_ids s ++ [next_id s].
Proof.
  intros Hty Hfile Hins.
  destruct (@document_without_file_run w ai url ty org buf name s Hty Hfile Hins)
    as [s3 [Hp H]].
  rewrite Hp. split; [reflexivity | exact H].
Qed.

Lemma processSourceToLesson_needs_the_file_witness :
  fst (PipelineOrchestrator.processSourceToLesson
         (quiet_world (demo_lesson []))
         (OpenRouterService.services (quiet_world (demo_lesson [])))
         "manual.pdf" pdf 3 None None collection_state)
  = Err (JsError "File buffer and name are required for document analysis").
Proof.
  apply (@processSourceToLesson_needs_the_file
           (quiet_world (demo_lesson []))
           (OpenRouterService.services (quiet_world (demo_lesson [])))
           "manual.pdf" pdf 3 None None collection_state).
  - discriminate.
  - left. reflexivity.
  - reflexivity.
Defined.

Lemma processSourceToLesson_outcome_witness :
  source_status_is
    (snd (PipelineOrchestrator.processSourceToLesson
            (quiet_world (demo_lesson []))
            (OpenRouterService.services (quiet_world (demo_lesson [])))
            "https://youtu.be/dQw4w9WgXcQ" youtube 3 None None collection_state))
    11 SrcCompleted.
Proof.
  pose proof (@processSourceToLesson_outcome
                (quiet_world (demo_lesson []))
                (OpenRouterService.services (quiet_world (demo_lesson [])))
                (openrouter_external (quiet_world (demo_lesson [])))
                (fun _ => eq_refl)
                "https://youtu.be/dQw4w9WgXcQ" youtube 3 None None collection_state
                {| src_id := 11; src_organization_id := 3; src_type := youtube;
                   src_url := "https://youtu.be/dQw4w9WgXcQ";
                   src_title := "Ramp safety video"; src_status := SrcPending;
                   src_transcript := None; src_duration_seconds := None;
                   src_updated_at := 5 |}
                (snd (PipelineOrchestrator.createSource (quiet_world (demo_lesson []))
                        "https://youtu.be/dQw4w9WgXcQ" youtube 3 collection_state))
                ltac:(vm_compute; reflexivity)) as H.
  vm_compute in H. vm_compute. exact H.
Defined.

(** * Materialization in the collection pipeline *)

Section CollectionMaterialization.
Variable w : World.

Lemma collection_saveActivity_row oid j a s :
  exists s1,
    CollectionOrchestrator.saveActivity w oid j a s = (Ok tt, s1) /\
    learning_objectives s1 = learning_objectives s /\
    modules s1 = modules s /\
    lesson_source_mappings s1 = lesson_source_mappings s /\
    match db_fault w OpInsert (clock s) with
    | Some _ => learning_activities s1 = learning_activities s
    | None => exists r, learning_activities s1 = learning_activities s ++ [r] /\
                        activity_row_matches oid j a r
    end.
Proof.
  unfold CollectionOrchestrator.saveActivity, bind, insert.
  destruct (db_fault w OpInsert (clock s)); simpl; eexists;
    (split; [reflexivity|]); repeat split.
  eexists. split; [reflexivity|]. repeat split.
Qed.

Lemma collection_saveActivities_rows oid acts :
  forall start s,
    exists s1 rows,
      forIndex start acts (CollectionOrchestrator.saveActivity w oid) s = (Ok tt, s1) /\
      learning_objectives s1 = learning_objectives s /\
      modules s1 = modules s /\
      lesson_source_mappings s1 = lesson_source_mappings s /\
      learning_activities s1 = learning_activities s ++ rows /\
      some_activity_rows oid start acts rows.
Proof.
  induction acts as [|a acts IH]; intros start s; simpl.
  - exists s, []. rewrite app_nil_r. now repeat split.
  - destruct (collection_saveActivity_row oid start a s) as [s0 [Ha [Ho [Hm [Hmap Hrow]]]]].
    destruct (IH (S start) s0) as [s1 [rows [Hloop [Ho1 [Hm1 [Hmap1 [Hrows Hsome]]]]]]].
    erewrite bind_Ok; [|exact Ha].
    destruct (db_fault w OpInsert (clock s)).
    + exists s1, rows. rewrite Hloop, Ho1, Hm1, Hmap1, Hrows, Ho, Hm, Hmap, Hrow.
      repeat split. now left.
    + destruct Hrow as [r [Hr Hmatch]].
      exists s1, (r :: rows). rewrite Hloop, Ho1, Hm1, Hmap1, Hrows, Ho, Hm, Hmap, Hr.
      rewrite <- app_assoc. repeat split. right. exists r, rows.
      split; [reflexivity | split; assumption].
Qed.

Lemma collection_saveObjective_rows mid i obj s u s1 :
  CollectionOrchestrator.saveObjective w mid i obj s = (Ok u, s1) ->
  exists r arows,
    learning_objectives s1 = learning_objectives s ++ [r] /\
    learning_activities s1 = learning_activities s ++ arows /\
    modules s1 = modules s /\
    lesson_source_mappings s1 = lesson_source_mappings s /\
    objective_row_matches mid i obj r /\
    some_activity_rows (obj_id r) 0 (activities obj) arows.
Proof.
  unfold CollectionOrchestrator.saveObjective, bind at 1, insert.
  destruct (db_fault w OpInsert (clock s)); simpl; intro H; [discriminate H|].
  match type of H with
  | forIndex 0 ?acts (CollectionOrchestrator.saveActivity w ?oid) ?s0 = _ =>
      destruct (collection_saveActivities_rows oid acts 0 s0)
        as [s2 [rows [Hloop [Ho [Hm [Hmap [Hrows Hsome]]]]]]]
  end.
  rewrite Hloop in H. injection H as _ <-. simpl in Ho, Hm, Hmap, Hrows.
  eexists. exists rows. split; [exact Ho|]. split; [exact Hrows|].
  split; [exact Hm|]. split; [exact Hmap|]. split; [|exact Hsome]. repeat split.
Qed.

Lemma collection_saveObjectives_rows mid objs :
  forall start s u s1,
    forIndex start objs (CollectionOrchestrator.saveObjective w mid) s = (Ok u, s1) ->
    exists orows arows,
      learning_objectives s1 = learning_objectives s ++ orows /\
      learning_activities s1 = learning_activities s ++ arows /\
      modules s1 = modules s /\
      lesson_source_mappings s1 = lesson_source_mappings s /\
      objective_rows some_activity_rows mid start objs orows arows.
Proof.
  induction objs as [|o objs IH]; intros start s u s1 H; simpl in H.
  - injection H as _ <-. exists [], []. rewrite !app_nil_r. now repeat split.
  - unfold bind in H.
    destruct (CollectionOrchestrator.saveObjective w mid start o s) as [[u0|e] s0] eqn:Ho;
      [|discriminate H].
    destruct (collection_saveObjective_rows _ _ _ _ Ho)
      as [r [mine [Hr [Hmine [Hm [Hmap [Hmatch Hsome]]]]]]].
    destruct (IH _ _ _ _ H) as [orows [rest [Horows [Hrest [Hm' [Hmap' Hrec]]]]]].
    exists (r :: orows), (mine ++ rest). split; [|split; [|split; [|split]]].
    + rewrite Horows, Hr, <- app_assoc. reflexivity.
    + rewrite Hrest, Hmine, <- app_assoc. reflexivity.
    + congruence.
    + congruence.
    + simpl. split; [exact Hmatch|]. exists mine, rest. now repeat split.
Qed.

Lemma collection_saveModule_rows courseId md s u s1 :
  CollectionOrchestrator.saveModule w courseId md s = (Ok u, s1) ->
  exists r orows arows,
    modules s1 = modules s ++ [r] /\
    learning_objectives s1 = learning_objectives s ++ orows /\
    learning_activities s1 = learning_activities s ++ arows /\
    lesson_source_mappings s1 = lesson_source_mappings s /\
    module_row_matches courseId md r /\
    objective_rows some_activity_rows (mod_id r) 0 (objectives md) orows arows.
Proof.
  unfold CollectionOrchestrator.saveModule, bind at 1, insert.
  destruct (db_fault w OpInsert (clock s)); simpl; intro H; [discriminate H|].
  destruct (collection_saveObjectives_rows _ _ _ _ H)
    as [orows [arows [Ho [Ha [Hm [Hmap Hrows]]]]]].
  simpl in Ho, Ha, Hm, Hmap.
  eexists. exists orows, arows.
  split; [exact Hm|]. split; [exact Ho|]. split; [exact Ha|]. split; [exact Hmap|].
  split; [repeat split | exact Hrows].
Qed.

Lemma collection_saveModules_rows courseId mds :
  forall s u s1,
    forEach mds (CollectionOrchestrator.saveModule w courseId) s = (Ok u, s1) ->
    exists mrows orows arows,
      modules s1 = modules s ++ mrows /\
      learning_objectives s1 = learning_objectives s ++ orows /\
      learning_activities s1 = learning_activities s ++ arows /\
      lesson_source_mappings s1 = lesson_source_mappings s /\
      module_rows some_activity_rows courseId mds mrows orows arows.
Proof.
  induction mds as [|md mds IH]; intros s u s1 H; simpl in H.
  - injection H as _ <-. exists [], [], []. rewrite !app_nil_r. now repeat split.
  - unfold bind in H.
    destruct (CollectionOrchestrator.saveModule w courseId md s) as [[u0|e] s0] eqn:Hmd;
      [|discriminate H].
    destruct (collection_saveModule_rows _ _ _ Hmd)
      as [r [os [acts [Hr [Hos [Hacts [Hmap [Hm Hobj]]]]]]]].
    destruct (IH _ _ _ H) as [mrows [os' [acts' [Hmr [Hos' [Hacts' [Hmap' Hrec]]]]]]].
    exists (r :: mrows), (os ++ os'), (acts ++ acts').
    split; [rewrite Hmr, Hr, <- app_assoc; reflexivity|].
    split; [rewrite Hos', Hos, <- app_assoc; reflexivity|].
    split; [rewrite Hacts', Hacts, <- app_assoc; reflexivity|].
    split; [congruence|].
    simpl. split; [exact Hm|]. exists os, os', acts, acts'. now repeat split.
Qed.

Lemma collection_saveLesson_rows lesson cid org s courseId s1 :
  CollectionOrchestrator.saveLesson w lesson cid org s = (Ok courseId, s1) ->
  courses s1 = courses s ++ [collection_course_row lesson cid org courseId] /\
  module_rows some_activity_rows courseId (lesson_modules lesson)
              (added_since (modules s) (modules s1))
              (added_since (learning_objectives s) (learning_objectives s1))
              (added_since (learning_activities s) (learning_activities s1)) /\
  lesson_source_mappings s1 = lesson_source_mappings s.
Proof.
  intro H.
  assert (Hf : db_fault w OpInsert (clock s) = None).
  { unfold CollectionOrchestrator.saveLesson, bind, insert in H.
    destruct (db_fault w OpInsert (clock s)); [discriminate H | reflexivity]. }
  pose proof (collection_saveLesson_course w lesson cid org s Hf) as Hc.
  rewrite H in Hc. simpl in Hc.
  unfold CollectionOrchestrator.saveLesson, bind at 1, insert in H. rewrite Hf in H.
  simpl in H. unfold bind in H.
  match type of H with
  | context [forEach ?l ?b ?s0] => destruct (forEach l b s0) as [[u|e] s2] eqn:Hloop
  end; [|discriminate H].
  injection H as <- <-.
  destruct (collection_saveModules_rows _ _ _ Hloop)
    as [mrows [orows [arows [Hm [Ho [Ha [Hmap Hrows]]]]]]].
  simpl in Hm, Ho, Ha, Hmap.
  rewrite Hm, Ho, Ha, Hmap, !added_since_app.
  split; [exact Hc|]. split; [assumption | reflexivity].
Qed.
End CollectionMaterialization.

Lemma collection_saveLesson_run w lesson cid org s courseId :
  fst (CollectionOrchestrator.saveLesson w lesson cid org s) = Ok courseId ->
  courses (snd (CollectionOrchestrator.saveLesson w lesson cid org s))
  = courses s ++ [collection_course_row lesson cid org courseId] /\
  module_rows some_activity_rows courseId (lesson_modules lesson)
    (added_since (modules s)
       (modules (snd (CollectionOrchestrator.saveLesson w lesson cid org s))))
    (added_since (learning_objectives s)
       (learning_objectives (snd (CollectionOrchestrator.saveLesson w lesson cid org s))))
    (added_since (learning_activities s)
       (learning_activities (snd (CollectionOrchestrator.saveLesson w lesson cid org s)))) /\
  lesson_source_mappings (snd (CollectionOrchestrator.saveLesson w lesson cid org s))
  = lesson_source_mappings s.
Proof.
  destruct (CollectionOrchestrator.saveLesson w lesson cid org s) as [r s1] eqn:H.
  simpl. intros ->. eapply collection_saveLesson_rows; eassumption.
Qed.

Lemma forIndex_ext A (xs : list A) (b1 b2 : nat -> A -> M unit) :
  (forall i x s, b1 i x s = b2 i x s) ->
  forall start s, forIndex start xs b1 s = forIndex start xs b2 s.
Proof.
  intro H. induction xs as [|x xs IH]; intros start s; simpl; [reflexivity|].
  unfold bind. rewrite H. destruct (b2 start x s) as [[u|e] s1]; [apply IH | reflexivity].
Qed.

(** When saveLesson of the collection pipeline succeeds it has appended
    one draft course row of the collection and, for the lesson tree, one
    module row per module and one objective row per objective, in the
    order of the tree and with its contents.  Of the activities some may
    have no row; the rows there are stand in the order of the tree, under
    the numbers of their activities.  No mapping row is written. *)
Theorem collection_saveLesson_writes_the_tree w lesson cid org s courseId :
  fst (CollectionOrchestrator.saveLesson w lesson cid org s) = Ok courseId ->
  courses (snd (CollectionOrchestrator.saveLesson w lesson cid org s))
  = courses s ++ [collection_course_row lesson cid org courseId] /\
  module_rows some_activity_rows courseId (lesson_modules lesson)
    (added_since (modules s)
       (modules (snd (CollectionOrchestrator.saveLesson w lesson cid org s))))
    (added_since (learning_objectives s)
       (learning_objectives (snd (CollectionOrchestrator.saveLesson w lesson cid org s))))
    (added_since (learning_activities s)
       (learning_activities (snd (CollectionOrchestrator.saveLesson w lesson cid org s)))) /\
  lesson_source_mappings (snd (CollectionOrchestrator.saveLesson w lesson cid org s))
  = lesson_source_mappings s.
Proof.
  apply collection_saveLesson_run.
Qed.

Lemma collection_saveLesson_writes_the_tree_witness :
  courses (snd (CollectionOrchestrator.saveLesson (quiet_world (demo_lesson [20]))
                  (demo_lesson [20]) 10 3 collection_state))
  = [collection_course_row (demo_lesson [20]) 10 3 11].
Proof.
  apply (proj1 (@collection_saveLesson_writes_the_tree
                  (quiet_world (demo_lesson [20])) (demo_lesson [20]) 10 3
                  collection_state 11 ltac:(vm_compute; reflexivity))).
Defined.

(** When saveLesson of the collection pipeline succeeds the new module
    rows carry the module numbers of the tree and belong to the returned
    course; the new objective rows carry the objective types of the tree,
    count from zero without gap under every module and belong to new
    module rows; every new activity row belongs to a new objective row. *)
Theorem collection_saveLesson_numbers_and_parents w lesson cid org s courseId :
  fst (CollectionOrchestrator.saveLesson w lesson cid org s) = Ok courseId ->
  let s' := snd (CollectionOrchestrator.saveLesson w lesson cid org s) in
  map mod_module_number (added_since (modules s) (modules s'))
  = map moduleNumber (lesson_modules lesson) /\
  Forall (fun m => mod_course_id m = courseId) (added_since (modules s) (modules s')) /\
  map obj_order_index (added_since (learning_objectives s) (learning_objectives s'))
  = objective_numbers lesson /\
  map obj_objective_type (added_since (learning_objectives s) (learning_objectives s'))
  = map objective_kind (all_objectives lesson) /\
  Forall (fun o => In (obj_module_id o)
                      (map mod_id (added_since (modules s) (modules s'))))
         (added_since (learning_objectives s) (learning_objectives s')) /\
  Forall (fun a => In (act_learning_objective_id a)
                      (map obj_id (added_since (learning_objectives s)
                                               (learning_objectives s'))))
         (added_since (learning_activities s) (learning_activities s')).
Proof.
  intros H s'. apply collection_saveLesson_run in H. destruct H as [_ [Hrows _]].
  fold s' in Hrows.
  apply module_rows_spec in Hrows;
    [exact Hrows | intros oid start acts rows Hr; now apply some_activity_rows_parent in Hr].
Qed.

Lemma collection_saveLesson_numbers_and_parents_witness :
  map obj_order_index
      (added_since (learning_objectives collection_state)
         (learning_objectives (snd (CollectionOrchestrator.saveLesson
            (quiet_world (demo_lesson [20])) (demo_lesson [20]) 10 3 collection_state))))
  = [0].
Proof.
  apply (proj1 (proj2 (proj2 (@collection_saveLesson_numbers_and_parents
                         (quiet_world (demo_lesson [20])) (demo_lesson [20]) 10 3
                         collection_state 11 ltac:(vm_compute; reflexivity))))).
Defined.

(** In the collection pipeline an objective is saved exactly when the
    store accepts its own row: the inserts of its activities may be
    refused without saveObjective failing. *)
Theorem collection_saveObjective_ignores_activity_faults w mid i obj s :
  fst (CollectionOrchestrator.saveObjective w mid i obj s) = Ok tt <->
  db_fault w OpInsert (clock s) = None.
Proof.
  unfold CollectionOrchestrator.saveObjective, bind at 1, insert.
  destruct (db_fault w OpInsert (clock s)) as [msg|]; simpl.
  - split; discriminate.
  - split; [reflexivity|]. intros _.
    match goal with
    | |- fst (forIndex 0 ?acts (CollectionOrchestrator.saveActivity w ?oid) ?s0) = _ =>
        destruct (collection_saveActivities_rows w oid acts 0 s0) as [s1 [rows [Hloop _]]]
    end.
    now rewrite Hloop.
Qed.

(** As long as the store accepts every insert, both pipelines save an
    objective and its activities in the same way. *)
Theorem pipelines_save_objectives_alike w mid i obj s :
  (forall n, db_fault w OpInsert n = None) ->
  CollectionOrchestrator.saveObjective w mid i obj s
  = PipelineOrchestrator.saveObjective w mid i obj s.
Proof.
  intro Hins.
  unfold CollectionOrchestrator.saveObjective, PipelineOrchestrator.saveObjective.
  unfold bind, insert. rewrite Hins. simpl.
  apply forIndex_ext. intros j a s1.
  unfold CollectionOrchestrator.saveActivity, PipelineOrchestrator.saveActivity, bind, insert.
  now rewrite Hins.
Qed.

Lemma pipelines_save_objectives_alike_witness :
  CollectionOrchestrator.saveObjective (quiet_world empty_lesson) 7 0 (demo_objective [])
                                       emptyState
  = PipelineOrchestrator.saveObjective (quiet_world empty_lesson) 7 0 (demo_objective [])
                                       emptyState.
Proof.
  apply (@pipelines_save_objectives_alike (quiet_world empty_lesson) 7 0 (demo_objective [])
           emptyState).
  intro n. reflexivity.
Defined.

(** * The input of a synthesis *)

Section SynthesisInput.
Variable w : World.
Hypothesis reads_served : forall n, db_fault w OpSelect n = None.

Lemma usable_analyses_ext s s' members :
  source_analyses s' = source_analyses s ->
  usable_analyses s' members = usable_analyses s members.
Proof.
  intro H. unfold usable_analyses, analyses_of. now rewrite H.
Qed.

Lemma ensureSourceAnalyses_from_usable members :
  forall analyses s,
    fst (CollectionAnalyzer.ensureSourceAnalyses_from w analyses (map Some members) s)
    = Ok (analyses ++ usable_analyses s members) /\
    source_analyses
      (snd (CollectionAnalyzer.ensureSourceAnalyses_from w analyses (map Some members) s))
    = source_analyses s.
Proof.
  induction members as [|m members IH]; intros analyses s; simpl.
  - rewrite app_nil_r. now split.
  - unfold bind at 1 3, single. rewrite reads_served.
    fold (analyses_of s (src_id m)).
    destruct (analyses_of s (src_id m)) as [|a [|a' l]]; simpl.
    + unfold bind, console_warn.
      match goal with
      | |- context [CollectionAnalyzer.ensureSourceAnalyses_from w analyses _ ?s0] =>
          destruct (IH analyses s0) as [H1 H2]; rewrite H1, H2;
          rewrite (usable_analyses_ext s0 s members eq_refl)
      end.
      now split.
    + match goal with
      | |- context [CollectionAnalyzer.ensureSourceAnalyses_from w ?acc _ ?s0] =>
          destruct (IH acc s0) as [H1 H2]; rewrite H1, H2;
          rewrite (usable_analyses_ext s0 s members eq_refl)
      end.
      rewrite <- app_assoc. now split.
    + unfold bind, console_warn.
      match goal with
      | |- context [CollectionAnalyzer.ensureSourceAnalyses_from w analyses _ ?s0] =>
          destruct (IH analyses s0) as [H1 H2]; rewrite H1, H2;
          rewrite (usable_analyses_ext s0 s members eq_refl)
      end.
      now split.
Qed.

Lemma usable_analyses_length s members :
  List.length (usable_analyses s members) <= List.length members.
Proof.
  induction members as [|m members IH]; simpl; [lia|].
  rewrite length_app.
  destruct (analyses_of s (src_id m)) as [|a [|a' l]]; simpl; lia.
Qed.

Lemma buildSynthesisPrompt_combine members :
  forall analyses s,
    List.length analyses <= List.length members ->
    CollectionAnalyzer.buildSynthesisPrompt analyses (map Some members) s
    = (Ok (combine analyses members), s).
Proof.
  induction members as [|m members IH]; intros [|a analyses] s H; simpl in *;
    try reflexivity; [lia|].
  unfold bind. rewrite IH; [reflexivity | lia].
Qed.

Lemma synthesis_of_members_run members s :
  fst (synthesis_of_members w members s)
  = claude_synthesis w (combine (usable_analyses s members) members).
Proof.
  unfold synthesis_of_members, CollectionAnalyzer.ensureSourceAnalyses, bind at 1.
  destruct (ensureSourceAnalyses_from_usable members [] s) as [H1 _].
  destruct (CollectionAnalyzer.ensureSourceAnalyses_from w [] (map Some members) s)
    as [r s1]. simpl in H1. subst r. simpl.
  unfold CollectionAnalyzer.synthesizeAcrossAnalyses, bind.
  rewrite buildSynthesisPrompt_combine; [reflexivity | apply usable_analyses_length].
Qed.

Lemma usable_analyses_complete s members :
  (forall m, In m members -> List.length (analyses_of s (src_id m)) = 1) ->
  map sourceId (usable_analyses s members) = map src_id members.
Proof.
  induction members as [|m members IH]; intro H; simpl; [reflexivity|].
  pose proof (H m (or_introl eq_refl)) as Hm.
  destruct (analyses_of s (src_id m)) as [|a [|a' l]]; simpl in Hm; try lia.
  simpl. f_equal. apply IH. intros m' Hin. apply H. now right.
Qed.

Lemma combine_aligned (analyses : list SourceAnalysis) :
  forall members : list SourceRow,
    map sourceId analyses = map src_id members -> aligned (combine analyses members).
Proof.
  unfold aligned.
  induction analyses as [|a analyses IH]; intros [|m members] H; simpl in *;
    try constructor; try discriminate.
  - injection H as H _. exact H.
  - injection H as _ H. now apply IH.
Qed.
End SynthesisInput.

(** ensureSourceAnalyses does not fail on the members of a collection:
    when the store serves the reads it returns, in the order of the
    members, the analysis of every member that has exactly one analysis
    row, and it writes no analysis. *)
Theorem ensureSourceAnalyses_returns_the_single_analyses w members s :
  (forall n, db_fault w OpSelect n = None) ->
  fst (CollectionAnalyzer.ensureSourceAnalyses w (map Some members) s)
  = Ok (usable_analyses s members) /\
  source_analyses (snd (CollectionAnalyzer.ensureSourceAnalyses w (map Some members) s))
  = source_analyses s.
Proof.
  intro Hreads. unfold CollectionAnalyzer.ensureSourceAnalyses.
  apply (ensureSourceAnalyses_from_usable w Hreads members [] s).
Qed.

Lemma ensureSourceAnalyses_returns_the_single_analyses_witness :
  fst (CollectionAnalyzer.ensureSourceAnalyses (quiet_world empty_lesson)
         (map Some [member_source 20 1; member_source 21 2]) unanalysed_first_state)
  = Ok [as_SourceAnalysis 21 (member_analysis 31 21 2)].
Proof.
  apply (proj1 (@ensureSourceAnalyses_returns_the_single_analyses
                  (quiet_world empty_lesson) [member_source 20 1; member_source 21 2]
                  unanalysed_first_state (fun _ => eq_refl))).
Defined.

(** When the store serves the reads and every member of a collection has
    exactly one analysis row, the synthesis is asked for with one entry per
    member, each analysis under the title of its own source. *)
Theorem synthesis_prompt_is_aligned_when_complete w members s :
  (forall n, db_fault w OpSelect n = None) ->
  (forall m, In m members -> List.length (analyses_of s (src_id m)) = 1) ->
  fst (synthesis_of_members w members s)
  = claude_synthesis w (combine (usable_analyses s members) members) /\
  map snd (combine (usable_analyses s members) members) = members /\
  aligned (combine (usable_analyses s members) members).
Proof.
  intros Hreads Hone. split; [now apply synthesis_of_members_run|].
  pose proof (usable_analyses_complete s members Hone) as Hids.
  split; [|now apply combine_aligned].
  assert (Hlen : List.length (usable_analyses s members) = List.length members).
  { rewrite <- (length_map sourceId), Hids. apply length_map. }
  clear Hids Hone. revert Hlen. generalize (usable_analyses s members).
  induction members as [|m members IH]; intros [|a l] Hlen; simpl in *;
    try reflexivity; try discriminate.
  f_equal. apply IH. lia.
Qed.

Lemma synthesis_prompt_is_aligned_when_complete_witness :
  aligned (combine (usable_analyses gapped_state [member_source 20 1; member_source 21 2])
                   [member_source 20 1; member_source 21 2]).
Proof.
  apply (@synthesis_prompt_is_aligned_when_complete
           (quiet_world empty_lesson) [member_source 20 1; member_source 21 2] gapped_state
           (fun _ => eq_refl)).
  intros m [<-|[<-|[]]]; reflexivity.
Defined.

(** When the store serves the reads, the first member of a collection has
    no analysis row and the second has one, the synthesis is asked for with
    the analysis of the second member under the title of the first. *)
Theorem skipped_source_shifts_the_prompt w m1 m2 rest a s :
  (forall n, db_fault w OpSelect n = None) ->
  analyses_of s (src_id m1) = [] ->
  analyses_of s (src_id m2) = [a] ->
  exists others,
    fst (synthesis_of_members w (m1 :: m2 :: rest) s)
    = claude_synthesis w ((as_SourceAnalysis (src_id m2) a, m1) :: others).
Proof.
  intros Hreads H1 H2. rewrite synthesis_of_members_run by exact Hreads.
  unfold usable_analyses. simpl. rewrite H1, H2. simpl.
  eexists. reflexivity.
Qed.

Lemma skipped_source_shifts_the_prompt_witness :
  exists others,
    fst (synthesis_of_members (quiet_world empty_lesson)
           [member_source 20 1; member_source 21 2] unanalysed_first_state)
    = claude_synthesis (quiet_world empty_lesson)
        ((as_SourceAnalysis 21 (member_analysis 31 21 2), member_source 20 1) :: others).
Proof.
  apply (@skipped_source_shifts_the_prompt
           (quiet_world empty_lesson) (member_source 20 1) (member_source 21 2) []
           (member_analysis 31 21 2) unanalysed_first_state (fun _ => eq_refl));
    reflexivity.
Defined.

(** * What the lesson services hand on *)

(** The lesson that a single-source run returns is one that the lesson
    service generated. *)
Lemma processSourceToLesson_returns_generated w ai url ty org buf name :
  hoare (fun _ => True)
        (PipelineOrchestrator.processSourceToLesson w ai url ty org buf name)
        (fun r _ => match r with
                    | Ok (_, lesson) =>
                        exists analysis title s0,
                          fst (ai_generateLesson ai analysis title s0) = Ok lesson
                    | Err _ => True
                    end).
Proof.
  match goal with |- hoare _ _ ?post => set (Q := post) end.
  unfold PipelineOrchestrator.processSourceToLesson.
  eapply hoare_bind with (Qm := fun _ _ => True); [intros s _; exact I | | intros; exact I].
  intro source. eapply hoare_try_catch with (Qm := Q); [| intros a s H; exact H |].
  2:{ intros e s _. unfold Q, bind, throw.
      destruct (PipelineOrchestrator.updateSourceStatus w (src_id source) SrcFailed s)
        as [[u|e'] s1]; exact I. }
  unfold PipelineOrchestrator.pipelineSteps.
  eapply hoare_bind with (Qm := fun _ _ => True); [intros s _; exact I | | intros; exact I].
  intros ?.
  eapply hoare_bind with (Qm := fun _ _ => True); [intros s _; exact I | | intros; exact I].
  intros analysis.
  eapply hoare_bind with (Qm := fun _ _ => True); [intros s _; exact I | | intros; exact I].
  intros ?.
  eapply hoare_bind with (Qm := fun _ _ => True); [intros s _; exact I | | intros; exact I].
  intros title.
  eapply hoare_bind with
    (Qm := fun r _ => match r with
                      | Ok lesson => exists analysis title s0,
                                       fst (ai_generateLesson ai analysis title s0) = Ok lesson
                      | Err _ => True
                      end);
    [| | intros; exact I].
  { intros s _.
    destruct (fst (ai_generateLesson ai (analysisData analysis) title s)) eqn:H;
      [|exact I].
    now exists (analysisData analysis), title, s. }
  intros lesson s Hl. unfold bind.
  destruct (PipelineOrchestrator.saveLesson w lesson (src_id source) org s) as [[c|e] s1];
    [|exact I].
  destruct (try_catch _ _ s1) as [[u|e] s2]; [|exact I].
  destruct (PipelineOrchestrator.updateSourceStatus w (src_id source) SrcCompleted s2)
    as [[u'|e] s3]; [|exact I].
  exact Hl.
Qed.

Lemma claude_generateLesson_run w analysis title s :
  snd (ClaudeLessonService.generateLesson w analysis title s) = s /\
  match fst (ClaudeLessonService.generateLesson w analysis title s) with
  | Ok lesson =>
      (exists j, claude_lesson_text w analysis title = Ok j /\
                 parse_lesson w j = Ok lesson) /\
      course_title (course lesson) <> "" /\ well_formed lesson
  | Err e =>
      claude_lesson_text w analysis title = Err e \/
      exists m, e = JsError ("Failed to parse lesson plan: " +++ m)
  end.
Proof.
  unfold ClaudeLessonService.generateLesson, bind, call, try_catch, throw.
  destruct (claude_lesson_text w analysis title) as [j|e]; [|split; [reflexivity | now left]].
  destruct (parse_lesson w j) as [l|e] eqn:Hp;
    [|split; [reflexivity | right; eexists; reflexivity]].
  destruct (validateLesson_spec l s) as [Hs Hr].
  destruct (ClaudeLessonService.validateLesson l s) as [[[]|e] s1]; simpl in *; subst s1.
  - split; [reflexivity|]. split; [now exists j | now apply Hr].
  - split; [reflexivity | right; eexists; reflexivity].
Qed.

(** generateLesson of the Claude service touches no table.  A lesson that
    it returns is the parse of the text that Claude answered, it has a
    course title and it is well formed; a failure after Claude answered,
    of the parse or of the validation, is reported as a parse failure. *)
Theorem claude_generateLesson_outcome w analysis title s :
  snd (ClaudeLessonService.generateLesson w analysis title s) = s /\
  match fst (ClaudeLessonService.generateLesson w analysis title s) with
  | Ok lesson =>
      (exists j, claude_lesson_text w analysis title = Ok j /\
                 parse_lesson w j = Ok lesson) /\
      course_title (course lesson) <> "" /\ well_formed lesson
  | Err e =>
      claude_lesson_text w analysis title = Err e \/
      exists m, e = JsError ("Failed to parse lesson plan: " +++ m)
  end.
Proof.
  apply claude_generateLesson_run.
Qed.

(** A run of the Claude based orchestrator returns no lesson that lacks a
    course title or is not well formed. *)
Theorem claude_pipeline_returns_validated_lessons w url ty org buf name s courseId lesson :
  fst (PipelineOrchestrator.processSourceToLesson
         w (ClaudeLessonService.services w) url ty org buf name s) = Ok (courseId, lesson) ->
  course_title (course lesson) <> "" /\ well_formed lesson.
Proof.
  intro H.
  pose proof (@processSourceToLesson_returns_generated
                w (ClaudeLessonService.services w) url ty org buf name s I) as Hg.
  rewrite H in Hg. destruct Hg as [analysis [title [s0 Hl]]]. simpl in Hl.
  pose proof (claude_generateLesson_run w analysis title s0) as [_ Hrun].
  rewrite Hl in Hrun. apply Hrun.
Qed.

Lemma claude_pipeline_returns_validated_lessons_witness :
  well_formed (demo_lesson []).
Proof.
  apply (@claude_pipeline_returns_validated_lessons
           (quiet_world (demo_lesson [])) "https://youtu.be/dQw4w9WgXcQ" youtube 3 None None
           collection_state 13 (demo_lesson [])).
  vm_compute. reflexivity.
Defined.

(** * Video ids in URLs *)

Module YouTubeUrlFacts.
Import YouTubeUrl.

Lemma capture_spec n :
  forall s id,
    capture n s = Some id ->
    String.length id = n /\
    Forall (fun c => idChar c = true) (list_ascii_of_string id) /\
    exists post, s = id +++ post.
Proof.
  induction n as [|n IH]; intros s id H; simpl in H.
  - injection H as <-. repeat split; [constructor | now exists s].
  - destruct s as [|c s]; [discriminate H|].
    destruct (idChar c) eqn:Hc; [|discriminate H].
    destruct (capture n s) as [id'|] eqn:Hcap; [|discriminate H].
    injection H as <-. destruct (IH _ _ Hcap) as [Hlen [Hall [post ->]]].
    simpl. repeat split; [now rewrite Hlen | now constructor | now exists post].
Qed.

Lemma capture_app id post :
  Forall (fun c => idChar c = true) (list_ascii_of_string id) ->
  capture (String.length id) (id +++ post) = Some id.
Proof.
  induction id as [|c id IH]; simpl; intro H; [reflexivity|].
  inversion H as [|? ? Hc Hrest]; subst. rewrite Hc, IH; [reflexivity | exact Hrest].
Qed.

Lemma after_literal_spec lit :
  forall s rest, after_literal lit s = Some rest -> s = lit +++ rest.
Proof.
  induction lit as [|c lit IH]; intros s rest H; simpl in H.
  - now injection H as ->.
  - destruct s as [|d s]; [discriminate H|].
    destruct (Ascii.eqb c d) eqn:Hcd; [|discriminate H].
    apply Ascii.eqb_eq in Hcd. subst d. simpl. f_equal. now apply IH.
Qed.

Lemma after_literal_app lit rest : after_literal lit (lit +++ rest) = Some rest.
Proof.
  induction lit as [|c lit IH]; simpl; [reflexivity|].
  now rewrite Ascii.eqb_refl.
Qed.

Lemma match_here_spec lit s id :
  match_here lit s = Some id ->
  is_video_id id /\ exists post, s = lit +++ id +++ post.
Proof.
  unfold match_here. destruct (after_literal lit s) as [rest|] eqn:Hlit; [|discriminate].
  intro H. apply capture_spec in H. destruct H as [Hlen [Hall [post ->]]].
  apply after_literal_spec in Hlit. split; [now split | now exists post].
Qed.

Lemma match_here_app lit id post :
  is_video_id id -> match_here lit (lit +++ id +++ post) = Some id.
Proof.
  intros [Hlen Hall]. unfold match_here. rewrite after_literal_app, <- Hlen.
  now apply capture_app.
Qed.

Lemma search_spec lit :
  forall s id,
    search lit s = Some id ->
    is_video_id id /\ exists pre post, s = pre +++ lit +++ id +++ post.
Proof.
  induction s as [|c s IH]; intros id H; simpl in H.
  - destruct (match_here lit "") as [id'|] eqn:Hm; [|discriminate H].
    injection H as <-. apply match_here_spec in Hm. destruct Hm as [Hid [post Hs]].
    split; [exact Hid | now exists "", post].
  - destruct (match_here lit (String c s)) as [id'|] eqn:Hm.
    + injection H as <-. apply match_here_spec in Hm. destruct Hm as [Hid [post Hs]].
      split; [exact Hid | now exists "", post].
    + destruct (IH _ H) as [Hid [pre [post ->]]].
      split; [exact Hid | now exists (String c pre), post].
Qed.

Lemma search_app lit id post :
  is_video_id id ->
  forall pre, exists id', search lit (pre +++ lit +++ id +++ post) = Some id'.
Proof.
  intros Hid. induction pre as [|c pre IH].
  - exists id. simpl.
    destruct (lit +++ id +++ post) eqn:Hs; simpl;
      rewrite <- Hs, match_here_app by exact Hid; reflexivity.
  - destruct IH as [id' IH]. simpl.
    destruct (match_here lit (String c (pre +++ lit +++ id +++ post))) as [id''|];
      [now exists id'' | now exists id'].
Qed.

Lemma first_match_spec pats :
  forall url id,
    first_match pats url = Some id ->
    is_video_id id /\
    exists lit pre post, In lit pats /\ url = pre +++ lit +++ id +++ post.
Proof.
  induction pats as [|lit pats IH]; intros url id H; simpl in H; [discriminate H|].
  destruct (search lit url) as [id'|] eqn:Hs.
  - injection H as <-. apply search_spec in Hs. destruct Hs as [Hid [pre [post ->]]].
    split; [exact Hid|]. exists lit, pre, post. split; [now left | reflexivity].
  - destruct (IH _ _ H) as [Hid [lit' [pre [post [Hin ->]]]]].
    split; [exact Hid|]. exists lit', pre, post. split; [now right | reflexivity].
Qed.

Lemma first_match_app pats lit pre id post :
  In lit pats -> is_video_id id ->
  exists id', first_match pats (pre +++ lit +++ id +++ post) = Some id'.
Proof.
  intros Hin Hid. induction pats as [|p pats IH]; [contradiction|]. simpl.
  destruct (search p (pre +++ lit +++ id +++ post)) as [id'|] eqn:Hs; [now exists id'|].
  destruct Hin as [->|Hin]; [|now apply IH].
  destruct (search_app lit post Hid pre) as [id' H]. rewrite H in Hs. discriminate Hs.
Qed.

Lemma search_skip c0 lit c s :
  Ascii.eqb c0 c = false ->
  search (String c0 lit) (String c s) = search (String c0 lit) s.
Proof.
  intro H. simpl. unfold match_here. simpl. now rewrite H.
Qed.

Lemma search_here lit s id : match_here lit s = Some id -> search lit s = Some id.
Proof.
  intro H. destruct s; simpl; now rewrite H.
Qed.

(** The watch pattern comes first, and in the address below it matches
    nowhere before its own place. *)
Lemma canonical_url id post :
  is_video_id id ->
  extractVideoId ("https://www.youtube.com/watch?v=" +++ id +++ post) = Some id.
Proof.
  intro Hid. unfold extractVideoId, patterns, first_match.
  change ("https://www.youtube.com/watch?v=" +++ id +++ post)
    with ("https://www." +++ "youtube.com/watch?v=" +++ id +++ post).
  cbn [String.append].
  rewrite !search_skip by reflexivity.
  erewrite search_here; [reflexivity|].
  exact (match_here_app "youtube.com/watch?v=" post Hid).
Qed.
End YouTubeUrlFacts.

(** What extractVideoId returns is a video id that stands in the URL
    right after one of the four patterns. *)
Theorem extractVideoId_finds_an_id url id :
  YouTubeUrl.extractVideoId url = Some id ->
  is_video_id id /\
  exists lit pre post, In lit YouTubeUrl.patterns /\ url = pre +++ lit +++ id +++ post.
Proof.
  apply YouTubeUrlFacts.first_match_spec.
Qed.

Lemma extractVideoId_finds_an_id_witness : is_video_id "dQw4w9WgXcQ".
Proof.
  apply (@extractVideoId_finds_an_id "https://youtu.be/dQw4w9WgXcQ?t=42" "dQw4w9WgXcQ").
  vm_compute. reflexivity.
Defined.

(** The patterns are not anchored: a text in which one of them occurs
    before a video id is read as a YouTube URL, whatever stands before
    and after. *)
Theorem extractVideoId_is_not_anchored lit pre id post :
  In lit YouTubeUrl.patterns -> is_video_id id ->
  exists id', YouTubeUrl.extractVideoId (pre +++ lit +++ id +++ post) = Some id'.
Proof.
  intros Hin Hid. now apply YouTubeUrlFacts.first_match_app.
Qed.

Lemma extractVideoId_is_not_anchored_witness :
  exists id',
    YouTubeUrl.extractVideoId
      ("https://example.org/?next=" +++ "youtu.be/" +++ "dQw4w9WgXcQ" +++ "zzz")
    = Some id'.
Proof.
  apply (@extractVideoId_is_not_anchored "youtu.be/" "https://example.org/?next="
           "dQw4w9WgXcQ" "zzz").
  - right. left. reflexivity.
  - split; [reflexivity|]. repeat constructor.
Defined.

(** In a watch address whatever follows the eleven characters of the id,
    a list of parameters or further characters of the id alphabet, is
    left out. *)
Theorem extractVideoId_reads_eleven_characters id post :
  is_video_id id ->
  YouTubeUrl.extractVideoId ("https://www.youtube.com/watch?v=" +++ id +++ post) = Some id.
Proof.
  apply YouTubeUrlFacts.canonical_url.
Qed.

Lemma extractVideoId_reads_eleven_characters_witness :
  YouTubeUrl.extractVideoId ("https://www.youtube.com/watch?v=" +++ "dQw4w9WgXcQ" +++ "Q")
  = Some "dQw4w9WgXcQ".
Proof.
  apply (@extractVideoId_reads_eleven_characters "dQw4w9WgXcQ" "Q").
  split; [reflexivity|]. repeat constructor.
Defined.

(** With the patterns of the services, the address that getVideoUrl
    returns carries the id of the URL it was given, and getVideoUrl
    returns it unchanged. *)
Theorem getVideoUrl_round_trip w url s u :
  fst (YouTubeService.getVideoUrl (parsing_world w) url s) = Ok u ->
  YouTubeUrl.extractVideoId u = YouTubeUrl.extractVideoId url /\
  fst (YouTubeService.getVideoUrl (parsing_world w) u s) = Ok u.
Proof.
  unfold YouTubeService.getVideoUrl.
  change (extractVideoId (parsing_world w)) with YouTubeUrl.extractVideoId.
  destruct (YouTubeUrl.extractVideoId url) as [id|] eqn:Hid; [|discriminate].
  unfold ret. cbn [fst]. intros [= <-].
  apply YouTubeUrlFacts.first_match_spec in Hid. destruct Hid as [Hid _].
  assert (Hc : YouTubeUrl.extractVideoId ("https://www.youtube.com/watch?v=" +++ id)
               = Some id).
  { pose proof (YouTubeUrlFacts.canonical_url "" Hid) as Hc.
    replace (id +++ "") with id in Hc; [exact Hc|].
    clear. induction id as [|c id IH]; simpl; [reflexivity | now rewrite <- IH]. }
  match goal with
  | |- ?x = _ /\ _ => assert (Hx : x = Some id) by exact Hc; rewrite Hx
  end.
  now split.
Qed.

Lemma getVideoUrl_round_trip_witness :
  fst (YouTubeService.getVideoUrl (parsing_world offline_world)
         "https://www.youtube.com/watch?v=dQw4w9WgXcQ" emptyState)
  = Ok "https://www.youtube.com/watch?v=dQw4w9WgXcQ".
Proof.
  apply (@getVideoUrl_round_trip offline_world "https://youtu.be/dQw4w9WgXcQ?t=42" emptyState
           "https://www.youtube.com/watch?v=dQw4w9WgXcQ").
  vm_compute. reflexivity.
Defined.

(** * The route handlers *)

#[local] Instance same_all_tables : StepRelation (same all_tables).
Proof.
  constructor;
    cbv beta delta [same all_tables collection_tables source_tables graph_rows];
    simpl; intros; congruence.
Qed.

Section RouteFacts.
Variable w : World.
Variable ai : LessonServices.
Variable fromBase64 : string -> Buffer.

(** A handler answers, whatever happens inside. *)
Lemma failing_answers label unknown m s :
  exists resp, fst (Routes.failing label unknown m s) = Ok resp.
Proof.
  unfold Routes.failing, try_catch, Routes.respond, ret.
  destruct (m s) as [[resp|e] s1]; eexists; reflexivity.
Qed.

(** What the body of a handler establishes about refusals carries over
    to the handler. *)
Lemma failing_refusal label unknown m s :
  hoare (fun s0 => all_tables s0 = all_tables s) m
        (fun r s1 => match r with
                     | Ok resp => refusal resp -> all_tables s1 = all_tables s
                     | Err _ => True
                     end) ->
  forall resp,
    fst (Routes.failing label unknown m s) = Ok resp -> refusal resp ->
    all_tables (snd (Routes.failing label unknown m s)) = all_tables s.
Proof.
  intros Hm resp. specialize (Hm s eq_refl).
  unfold Routes.failing, try_catch, Routes.respond, ret.
  destruct (m s) as [[r|e] s1]; simpl in *.
  - intros [= <-]. exact Hm.
  - intros [= <-] [H|[H|H]]; discriminate H.
Qed.

Lemma respond_refusal s status body :
  hoare (fun s0 => all_tables s0 = all_tables s) (Routes.respond status body) (refusal_post s).
Proof. intros s0 H _. exact H. Qed.

Lemma reading_refusal s A (m : M A) (k : A -> M HttpResponse) :
  preserves (same all_tables) m ->
  (forall a, hoare (fun s0 => all_tables s0 = all_tables s) (k a) (refusal_post s)) ->
  hoare (fun s0 => all_tables s0 = all_tables s) (bind m k) (refusal_post s).
Proof.
  intros Hm Hk.
  eapply hoare_bind with (Qm := fun _ s0 => all_tables s0 = all_tables s);
    [| exact Hk | intros e s0 _; exact I].
  eapply hoare_preserves; [exact Hm|]. unfold same. intros s0 s1 HR H. congruence.
Qed.

Lemma serving_refusal s A (m : M A) (status : nat) (body : A -> Body) :
  status <> 400 -> status <> 401 -> status <> 404 ->
  hoare (fun s0 => all_tables s0 = all_tables s)
        (bind m (fun a => Routes.respond status (body a))) (refusal_post s).
Proof.
  intros H0 H1 H4 s0 _. unfold bind, Routes.respond, ret.
  destruct (m s0) as [[a|e] s1]; simpl; [|exact I].
  intros [H|[H|H]]; contradiction.
Qed.

Lemma checked_source_refusal s body k :
  (forall url ty, hoare (fun s0 => all_tables s0 = all_tables s) (k url ty) (refusal_post s)) ->
  hoare (fun s0 => all_tables s0 = all_tables s) (Routes.checked_source body k)
        (refusal_post s).
Proof.
  intro Hk. unfold Routes.checked_source.
  destruct (req_sourceUrl body) as [url|]; [|apply respond_refusal].
  destruct (req_sourceType body) as [t|]; [|apply respond_refusal].
  destruct (_ || _); [apply respond_refusal|].
  destruct (sourceTypeOf t); [apply Hk | apply respond_refusal].
Qed.

Lemma orgMembership_reads session : preserves (same all_tables) (Routes.orgMembership w session).
Proof. unfold Routes.orgMembership. preserve. Qed.

Lemma sources_analyze_POST_refusal session request s resp :
  fst (Routes.sources_analyze_POST w ai session request s) = Ok resp -> refusal resp ->
  all_tables (snd (Routes.sources_analyze_POST w ai session request s)) = all_tables s.
Proof.
  apply failing_refusal. fold (refusal_post s).
  destruct (session_user session); [|apply respond_refusal].
  apply reading_refusal; [apply orgMembership_reads|]. intros [org|]; [|apply respond_refusal].
  apply reading_refusal; [apply preserves_call|]. intro body.
  apply checked_source_refusal. intros url ty.
  apply serving_refusal; discriminate.
Qed.

Lemma collection_analyze_POST_refusal session cid s resp :
  fst (Routes.collection_analyze_POST w session cid s) = Ok resp -> refusal resp ->
  all_tables (snd (Routes.collection_analyze_POST w session cid s)) = all_tables s.
Proof.
  apply failing_refusal. fold (refusal_post s).
  destruct (session_user session); [|apply respond_refusal].
  apply reading_refusal; [apply preserves_single|]. intro r.
  destruct (data r) as [[c links]|]; [|apply respond_refusal].
  destruct (_ <? _)%nat; [apply respond_refusal|].
  apply serving_refusal; discriminate.
Qed.

Lemma collection_generate_POST_refusal session cid s resp :
  fst (Routes.collection_generate_POST w session cid s) = Ok resp -> refusal resp ->
  all_tables (snd (Routes.collection_generate_POST w session cid s)) = all_tables s.
Proof.
  apply failing_refusal. fold (refusal_post s).
  destruct (session_user session); [|apply respond_refusal].
  apply reading_refusal; [apply orgMembership_reads|]. intros [org|]; [|apply respond_refusal].
  apply reading_refusal; [apply preserves_single|]. intro r.
  destruct (data r) as [[c links]|]; [|apply respond_refusal].
  destruct (Nat.eqb _ _); [apply respond_refusal|].
  apply serving_refusal; discriminate.
Qed.

Lemma collection_sources_POST_refusal session cid request s resp :
  fst (Routes.collection_sources_POST w fromBase64 session cid request s) = Ok resp ->
  refusal resp ->
  all_tables (snd (Routes.collection_sources_POST w fromBase64 session cid request s))
  = all_tables s.
Proof.
  apply failing_refusal. fold (refusal_post s).
  destruct (session_user session); [|apply respond_refusal].
  apply reading_refusal; [apply preserves_single|]. intro r.
  destruct (data r) as [c|]; [|apply respond_refusal].
  apply reading_refusal; [apply preserves_call|]. intro body.
  apply checked_source_refusal. intros url ty.
  apply serving_refusal; discriminate.
Qed.
End RouteFacts.

(** Each of the four handlers answers every request, and a request that
    it turns down, with status 400, 401 or 404, has changed no table. *)
Theorem refused_requests_write_nothing w ai fromBase64 session cid request s :
  (exists resp, fst (Routes.sources_analyze_POST w ai session request s) = Ok resp) /\
  (exists resp, fst (Routes.collection_analyze_POST w session cid s) = Ok resp) /\
  (exists resp, fst (Routes.collection_generate_POST w session cid s) = Ok resp) /\
  (exists resp,
      fst (Routes.collection_sources_POST w fromBase64 session cid request s) = Ok resp) /\
  (forall resp,
      fst (Routes.sources_analyze_POST w ai session request s) = Ok resp -> refusal resp ->
      all_tables (snd (Routes.sources_analyze_POST w ai session request s)) = all_tables s) /\
  (forall resp,
      fst (Routes.collection_analyze_POST w session cid s) = Ok resp -> refusal resp ->
      all_tables (snd (Routes.collection_analyze_POST w session cid s)) = all_tables s) /\
  (forall resp,
      fst (Routes.collection_generate_POST w session cid s) = Ok resp -> refusal resp ->
      all_tables (snd (Routes.collection_generate_POST w session cid s)) = all_tables s) /\
  (forall resp,
      fst (Routes.collection_sources_POST w fromBase64 session cid request s) = Ok resp ->
      refusal resp ->
      all_tables (snd (Routes.collection_sources_POST w fromBase64 session cid request s))
      = all_tables s).
Proof.
  repeat split; try apply failing_answers.
  - apply sources_analyze_POST_refusal.
  - apply collection_analyze_POST_refusal.
  - apply collection_generate_POST_refusal.
  - apply collection_sources_POST_refusal.
Qed.

#[local] Instance same_analyses_and_lessons : StepRelation (same analyses_and_lessons).
Proof.
  constructor; cbv beta delta [same analyses_and_lessons graph_rows];
    simpl; intros; congruence.
Qed.

Section DocumentsByUrl.
Variable w : World.
Variable ai : LessonServices.

Lemma orgMembership_run session s :
  exists membership, Routes.orgMembership w session s = (Ok membership, tick s).
Proof.
  unfold Routes.orgMembership, bind, single, ret.
  destruct (db_fault w OpSelect (clock s)); [eexists; reflexivity|].
  destruct (session_organization session); eexists; reflexivity.
Qed.

Lemma hoare_call_Ok A B (a : A) (k : A -> M B) P Q :
  hoare P (k a) Q -> hoare P (bind (call (Ok a)) k) Q.
Proof. intros H s0 Hs. exact (H s0 Hs). Qed.

Lemma document_run_fails url ty org s :
  ty <> youtube ->
  exists e s',
    PipelineOrchestrator.processSourceToLesson w ai url ty org None None s = (Err e, s') /\
    source_analyses s' = source_analyses s /\ graph_rows s' = graph_rows s.
Proof.
  intro Hty. destruct (db_fault w OpInsert (clock s)) as [msg|] eqn:Hins.
  - destruct (createSource_run w url ty org s) as [title [Hrun _]]. rewrite Hins in Hrun.
    unfold PipelineOrchestrator.processSourceToLesson.
    erewrite bind_Err; [|exact Hrun]. eexists. eexists. repeat split.
  - destruct (@document_without_file_run w ai url ty org None None s Hty
                (or_introl eq_refl) Hins) as [s3 [Hp [Ha [Hg _]]]].
    eexists. exists s3. split; [exact Hp|]. now split.
Qed.

Lemma sources_analyze_POST_document session body s :
  req_sourceType body = Some "pdf" \/ req_sourceType body = Some "pptx" ->
  hoare (fun s0 => analyses_and_lessons s0 = analyses_and_lessons s)
        (Routes.sources_analyze_POST w ai session (Ok body))
        (fun r s1 => not_served s r s1 /\ exists resp, r = Ok resp).
Proof.
  intro Hty.
  assert (Hkeep : forall A (m : M A),
             preserves (same analyses_and_lessons) m ->
             hoare (fun s0 => analyses_and_lessons s0 = analyses_and_lessons s) m
                   (fun _ s0 => analyses_and_lessons s0 = analyses_and_lessons s)).
  { intros A m Hm. eapply hoare_preserves; [exact Hm|].
    unfold same. intros s0 s1 HR H. congruence. }
  assert (Hno : forall status body,
             status <> 200 ->
             hoare (fun s0 => analyses_and_lessons s0 = analyses_and_lessons s)
                   (Routes.respond status body) (not_served s)).
  { intros status b Hs s0 H. now split. }
  unfold Routes.sources_analyze_POST, Routes.failing.
  eapply hoare_try_catch with (Qm := not_served s).
  2:{ intros resp s0 H. split; [exact H | now exists resp]. }
  2:{ intros e s0 [H _]. split; [split; [exact H | discriminate] | eexists; reflexivity]. }
  destruct (session_user session) as [user|]; [|apply Hno; discriminate].
  eapply hoare_bind; [apply Hkeep | | intros e s0 H; now split].
  { unfold Routes.orgMembership. preserve. }
  intros [org|]; [|apply Hno; discriminate].
  apply hoare_call_Ok. unfold Routes.checked_source.
  destruct (req_sourceUrl body) as [url|]; [|apply Hno; discriminate].
  destruct (req_sourceType body) as [t|]; [|apply Hno; discriminate].
  destruct (_ || _); [apply Hno; discriminate|].
  assert (Hdoc : exists ty, sourceTypeOf t = Some ty /\ ty <> youtube).
  { destruct Hty as [[= ->]|[= ->]]; eexists; (split; [reflexivity | discriminate]). }
  destruct Hdoc as [ty [-> Hdoc]].
  intros s0 H0. unfold bind.
  destruct (document_run_fails url org s0 Hdoc) as [e [s' [Hrun [Ha Hg]]]].
  rewrite Hrun. simpl. split; [|exact I].
  unfold analyses_and_lessons in *. now rewrite Ha, Hg.
Qed.
End DocumentsByUrl.

(** POST /api/sources/analyze hands no file to the pipeline.  A request
    for a pdf or pptx source is therefore never answered with a lesson:
    the answer has another status than 200, and no analysis and no lesson
    row has been written. *)
Theorem sources_analyze_POST_cannot_take_documents w ai session body s :
  req_sourceType body = Some "pdf" \/ req_sourceType body = Some "pptx" ->
  exists resp,
    fst (Routes.sources_analyze_POST w ai session (Ok body) s) = Ok resp /\
    http_status resp <> 200 /\
    source_analyses (snd (Routes.sources_analyze_POST w ai session (Ok body) s))
    = source_analyses s /\
    graph_rows (snd (Routes.sources_analyze_POST w ai session (Ok body) s)) = graph_rows s.
Proof.
  intro Hty.
  destruct (@sources_analyze_POST_document w ai session body s Hty s eq_refl)
    as [[Htables Hstatus] [resp Hresp]].
  rewrite Hresp in Hstatus. exists resp. split; [exact Hresp|]. split; [exact Hstatus|].
  split; [exact (f_equal fst Htables) | exact (f_equal snd Htables)].
Qed.

Lemma sources_analyze_POST_cannot_take_documents_witness :
  fst (Routes.sources_analyze_POST
         (quiet_world (demo_lesson []))
         (OpenRouterService.services (quiet_world (demo_lesson [])))
         (member_session 1 3) (Ok (document_request "manual.pdf")) collection_state)
  = Ok {| http_status := 500;
          http_body := ErrorBody "Analysis failed"
                         (Some "File buffer and name are required for document analysis") |}
  /\
  exists resp,
    fst (Routes.sources_analyze_POST
           (quiet_world (demo_lesson []))
           (OpenRouterService.services (quiet_world (demo_lesson [])))
           (member_session 1 3) (Ok (document_request "manual.pdf")) collection_state)
    = Ok resp /\ http_status resp <> 200.
Proof.
  split; [vm_compute; reflexivity|].
  destruct (@sources_analyze_POST_cannot_take_documents
              (quiet_world (demo_lesson []))
              (OpenRouterService.services (quiet_world (demo_lesson [])))
              (member_session 1 3) (document_request "manual.pdf") collection_state
              (or_introl eq_refl)) as [resp [H1 [H2 _]]].
  exists resp. split; assumption.
Defined.

Section DocumentsInCollections.
Variable w : World.
Variable fromBase64 : string -> Buffer.
Hypothesis store_serves : forall k n, db_fault w k n = None.

Lemma addSourceToCollection_without_file cid url ty buf name :
  ty <> youtube -> buf = None \/ falsy name = true ->
  preserves (same source_analyses)
            (CollectionOrchestrator.addSourceToCollection w cid url ty buf name).
Proof.
  intros Hty Hfile.
  unfold CollectionOrchestrator.addSourceToCollection.
  apply preserves_try_catch; [|intro; apply preserves_throw].
  apply preserves_bind;
    [unfold CollectionOrchestrator.getCollectionOrgId; preserve | intro orgId].
  apply preserves_bind; [destruct ty; preserve; now elim Hty | intro title].
  apply preserves_bind; [destruct orgId; preserve; reflexivity | intro r].
  destruct (error r); [apply preserves_throw|].
  destruct (data r) as [source|]; [|apply preserves_throw].
  apply preserves_bind.
  { unfold CollectionOrchestrator.analyzeNewSource.
    destruct ty; [now elim Hty| |];
      (destruct buf as [b|]; [|apply preserves_warn];
       destruct name as [n|]; [|apply preserves_warn];
       destruct Hfile as [H|H]; [discriminate H | rewrite H; apply preserves_warn]). }
  intros ?. unfold CollectionOrchestrator.getMaxOrderIndex. preserve; reflexivity.
Qed.

Lemma insert_served R (add : R -> State -> State) (row : uuid -> timestamp -> R) s :
  insert w add row s
  = (Ok {| data := Some (row (next_id s) (clock s)); error := None |},
     tick (set_next_id S (add (row (next_id s) (clock s)) s))).
Proof. unfold insert. now rewrite store_serves. Qed.

Lemma update_served (f : timestamp -> State -> State) s :
  update w f s = (Ok {| data := Some tt; error := None |}, tick (f (clock s) s)).
Proof. unfold update. now rewrite store_serves. Qed.

Lemma getMaxOrderIndex_run cid s :
  exists maxOrder, CollectionOrchestrator.getMaxOrderIndex w cid s = (Ok maxOrder, tick s).
Proof.
  unfold CollectionOrchestrator.getMaxOrderIndex, bind, single, ret.
  rewrite store_serves.
  destruct (order_desc_limit1 _ _) as [|r [|r' rest]]; eexists; reflexivity.
Qed.

Lemma getCollectionOrgId_run cid c s :
  filter (fun c => Nat.eqb (col_id c) cid) (source_collections s) = [c] ->
  CollectionOrchestrator.getCollectionOrgId w cid s
  = (Ok (Some (col_organization_id c)), tick s).
Proof.
  intro Hcol. unfold CollectionOrchestrator.getCollectionOrgId, bind, single, ret.
  now rewrite store_serves, Hcol.
Qed.

Lemma addSourceToCollection_document_succeeds cid url ty name c s :
  ty <> youtube ->
  filter (fun c => Nat.eqb (col_id c) cid) (source_collections s) = [c] ->
  fst (CollectionOrchestrator.addSourceToCollection w cid url ty None name s)
  = Ok (next_id s).
Proof.
  intros Hty Hcol.
  unfold CollectionOrchestrator.addSourceToCollection, try_catch.
  erewrite bind_Ok; [|apply getCollectionOrgId_run; exact Hcol]. cbv beta.
  assert (Htitle : exists title,
             forall st, (let title := match name with
                                      | Some n => if falsy name then url else n
                                      | None => url
                                      end in
                         match ty with
                         | youtube => try_catch (YouTubeService.getMetadata w url)
                                                (fun _ => ret title)
                         | _ => ret title
                         end) st = (Ok title, st)).
  { destruct ty; [now elim Hty| |]; eexists; reflexivity. }
  destruct Htitle as [title Htitle].
  erewrite bind_Ok; [|apply Htitle]. cbv beta.
  erewrite bind_Ok; [|apply insert_served]. cbv beta.
  cbn [data error].
  erewrite bind_Ok.
  2:{ unfold CollectionOrchestrator.analyzeNewSource.
      destruct ty; [now elim Hty| |]; reflexivity. }
  match goal with
  | |- context [bind (CollectionOrchestrator.getMaxOrderIndex w cid) _ ?st] =>
      destruct (getMaxOrderIndex_run cid st) as [maxOrder Hmax]
  end.
  erewrite bind_Ok; [|exact Hmax]. cbv beta.
  erewrite bind_Ok; [|apply insert_served]. cbv beta.
  cbn [data error].
  erewrite bind_Ok; [|apply update_served]. cbv beta.
  erewrite bind_Ok; [|apply update_served]. reflexivity.
Qed.
End DocumentsInCollections.

Lemma filter_seen (sees : CollectionRow -> bool) cid c rows :
  filter (fun c => Nat.eqb (col_id c) cid) rows = [c] -> sees c = true ->
  filter (fun c => Nat.eqb (col_id c) cid && sees c) rows = [c].
Proof.
  intros Hf Hs.
  assert (H : forall l, filter (fun c => Nat.eqb (col_id c) cid && sees c) l
                        = filter sees (filter (fun c => Nat.eqb (col_id c) cid) l)).
  { induction l as [|x l IH]; simpl; [reflexivity|].
    destruct (Nat.eqb (col_id x) cid); simpl; [|exact IH].
    destruct (sees x); now rewrite IH. }
  rewrite H, Hf. simpl. now rewrite Hs.
Qed.

Lemma falsy_nonempty url : url <> "" -> falsy (Some url) = false.
Proof. destruct url; [intro H; now elim H | reflexivity]. Qed.

Lemma collection_sources_POST_document w fromBase64 session cid body url c s :
  (forall k n, db_fault w k n = None) ->
  session_user session <> None ->
  filter (fun c => Nat.eqb (col_id c) cid) (source_collections s) = [c] ->
  sees_collection session c = true ->
  req_sourceUrl body = Some url -> url <> "" ->
  req_sourceType body = Some "pdf" \/ req_sourceType body = Some "pptx" ->
  falsy (req_fileBuffer body) = true ->
  exists s',
    Routes.collection_sources_POST w fromBase64 session cid (Ok body) s
    = (Ok {| http_status := 201;
             http_body := SourceBody (next_id s) "Source added and analyzed successfully" |},
       s') /\
    source_analyses s' = source_analyses s.
Proof.
  intros Hserves Huser Hcol Hsees Hurl Hne Hty Hbuf.
  unfold Routes.collection_sources_POST, Routes.failing, try_catch.
  destruct (session_user session) as [user|]; [|now elim Huser].
  erewrite bind_Ok.
  2:{ unfold single. rewrite Hserves, (@filter_seen (sees_collection session) cid c _ Hcol Hsees).
      reflexivity. }
  cbn [data]. unfold bind at 1, call. unfold Routes.checked_source. rewrite Hurl.
  assert (Hdoc : exists t ty, req_sourceType body = Some t /\ falsy (Some t) = false /\
                              sourceTypeOf t = Some ty /\ ty <> youtube).
  { destruct Hty as [H|H]; rewrite H; eexists; eexists;
      (split; [reflexivity|]; split; [reflexivity|]; split; [reflexivity | discriminate]). }
  destruct Hdoc as [t [ty [Ht [Hft [Hparse Hdoc]]]]].
  rewrite Ht, Hft, (falsy_nonempty Hne), Hparse. cbn [orb].
  assert (Hnone : match req_fileBuffer body with
                  | Some text => if falsy (req_fileBuffer body) then None
                                 else Some (fromBase64 text)
                  | None => None
                  end = None).
  { rewrite Hbuf. now destruct (req_fileBuffer body). }
  cbv zeta. rewrite Hnone.
  pose proof (@addSourceToCollection_document_succeeds w Hserves cid url ty
                (req_fileName body) c (tick s) Hdoc Hcol) as Hok.
  pose proof (@addSourceToCollection_without_file w cid url ty None (req_fileName body)
                Hdoc (or_introl eq_refl) (tick s)) as Hsame.
  destruct (CollectionOrchestrator.addSourceToCollection w cid url ty None
              (req_fileName body) (tick s)) as [r s'] eqn:Hrun.
  simpl in Hok, Hsame. subst r.
  erewrite bind_Ok; [|exact Hrun].
  exists s'. split; [reflexivity | exact Hsame].
Qed.

(** A request to add a pdf or pptx source that carries no file is
    answered with status 201 and the message that the source was added
    and analyzed, although no analysis has been written. *)
Theorem collection_sources_POST_reports_an_analysis_not_made
    w fromBase64 session cid body url c s :
  (forall k n, db_fault w k n = None) ->
  session_user session <> None ->
  filter (fun c => Nat.eqb (col_id c) cid) (source_collections s) = [c] ->
  sees_collection session c = true ->
  req_sourceUrl body = Some url -> url <> "" ->
  req_sourceType body = Some "pdf" \/ req_sourceType body = Some "pptx" ->
  falsy (req_fileBuffer body) = true ->
  fst (Routes.collection_sources_POST w fromBase64 session cid (Ok body) s)
  = Ok {| http_status := 201;
          http_body := SourceBody (next_id s) "Source added and analyzed successfully" |} /\
  source_analyses (snd (Routes.collection_sources_POST w fromBase64 session cid (Ok body) s))
  = source_analyses s.
Proof.
  intros Hserves Huser Hcol Hsees Hurl Hne Hty Hbuf.
  destruct (@collection_sources_POST_document w fromBase64 session cid body url c s
              Hserves Huser Hcol Hsees Hurl Hne Hty Hbuf) as [s' [Hrun Hsame]].
  rewrite Hrun. now split.
Qed.

Lemma collection_sources_POST_reports_an_analysis_not_made_witness :
  fst (Routes.collection_sources_POST (quiet_world empty_lesson) no_decoding
         (member_session 1 3) 10 (Ok (document_request "manual.pdf")) collection_state)
  = Ok {| http_status := 201;
          http_body := SourceBody 11 "Source added and analyzed successfully" |} /\
  source_analyses
    (snd (Routes.collection_sources_POST (quiet_world empty_lesson) no_decoding
            (member_session 1 3) 10 (Ok (document_request "manual.pdf")) collection_state))
  = [].
Proof.
  apply (@collection_sources_POST_reports_an_analysis_not_made
           (quiet_world empty_lesson) no_decoding (member_session 1 3) 10
           (document_request "manual.pdf") "manual.pdf" demo_collection collection_state).
  - intros k n. reflexivity.
  - discriminate.
  - reflexivity.
  - reflexivity.
  - reflexivity.
  - discriminate.
  - left. reflexivity.
  - reflexivity.
Defined.

(** * What a synthesis records *)

Section SynthesisRecord.
Variable w : World.
Hypothesis reads_served : forall n, db_fault w OpSelect n = None.
Hypothesis inserts_served : forall n, db_fault w OpInsert n = None.

Lemma ensureSourceAnalyses_run members s :
  exists s1,
    CollectionAnalyzer.ensureSourceAnalyses w (map Some members) s
    = (Ok (usable_analyses s members), s1).
Proof.
  unfold CollectionAnalyzer.ensureSourceAnalyses.
  destruct (ensureSourceAnalyses_from_usable w reads_served members [] s) as [H _].
  destruct (CollectionAnalyzer.ensureSourceAnalyses_from w [] (map Some members) s)
    as [r s1]. simpl in H. subst r. now exists s1.
Qed.

Lemma analyzeSteps_saves cid col css members synthesis s :
  CollectionAnalyzer.collection_with_sources cid s = [(col, css)] ->
  map snd css = map Some members ->
  claude_synthesis w (combine (usable_analyses s members) members) = Ok synthesis ->
  exists row,
    fst (CollectionAnalyzer.analyzeSteps w cid s) = Ok row /\
    ca_collection_id row = cid /\ ca_data row = synthesis /\
    ca_sources_analyzed row = List.length (usable_analyses s members).
Proof.
  intros Hcol Hmem Hsyn. unfold CollectionAnalyzer.analyzeSteps.
  erewrite bind_Ok; [|unfold single; rewrite reads_served, Hcol; reflexivity].
  cbn [data]. cbv zeta. rewrite Hmem.
  destruct (ensureSourceAnalyses_run members (tick s)) as [s1 Hens].
  erewrite bind_Ok; [|exact Hens]. cbv beta.
  rewrite (@usable_analyses_ext s (tick s) members eq_refl).
  erewrite bind_Ok.
  2:{ unfold CollectionAnalyzer.synthesizeAcrossAnalyses.
      erewrite bind_Ok;
        [|apply buildSynthesisPrompt_combine, usable_analyses_length].
      cbv beta. unfold call. rewrite Hsyn. reflexivity. }
  erewrite bind_Ok; [|unfold insert; rewrite inserts_served; reflexivity].
  cbn [data error]. unfold bind, update, ret.
  destruct (db_fault w OpUpdate _); simpl; eexists; repeat split.
Qed.
End SynthesisRecord.

(** When the store serves the reads and the inserts and the synthesis
    service answers, analyzeCollection returns the row that records the
    synthesis made from the usable analyses of the members, and the
    count that the row gives as sources analyzed is the count of those
    analyses, which can be less than the count of the members. *)
Theorem analyzeCollection_records_what_was_used w cid col css members synthesis s :
  (forall n, db_fault w OpSelect n = None) ->
  (forall n, db_fault w OpInsert n = None) ->
  CollectionAnalyzer.collection_with_sources cid s = [(col, css)] ->
  map snd css = map Some members ->
  claude_synthesis w (combine (usable_analyses s members) members) = Ok synthesis ->
  exists row,
    fst (CollectionAnalyzer.analyzeCollection w cid s) = Ok row /\
    ca_collection_id row = cid /\ ca_data row = synthesis /\
    ca_sources_analyzed row = List.length (usable_analyses s members) /\
    ca_sources_analyzed row <= List.length members.
Proof.
  intros Hreads Hins Hcol Hmem Hsyn.
  destruct (@analyzeSteps_saves w Hreads Hins cid col css members synthesis s Hcol Hmem Hsyn)
    as [row [Hrun [Hc [Hd Hn]]]].
  exists row. unfold CollectionAnalyzer.analyzeCollection, try_catch.
  destruct (CollectionAnalyzer.analyzeSteps w cid s) as [[r|e] s1];
    simpl in Hrun; [|discriminate Hrun].
  injection Hrun as ->. simpl. repeat split; try assumption.
  rewrite Hn. apply usable_analyses_length.
Qed.

Lemma analyzeCollection_records_what_was_used_witness :
  exists row,
    fst (CollectionAnalyzer.analyzeCollection (quiet_world empty_lesson) 10
           unanalysed_first_state) = Ok row /\
    ca_sources_analyzed row = 1.
Proof.
  destruct (@analyzeCollection_records_what_was_used
              (quiet_world empty_lesson) 10 demo_collection
              [ ({| cs_id := 22; cs_collection_id := 10; cs_source_id := 20;
                    cs_order_index := 0%Z |}, Some (member_source 20 1));
                ({| cs_id := 23; cs_collection_id := 10; cs_source_id := 21;
                    cs_order_index := 1%Z |}, Some (member_source 21 2)) ]
              [member_source 20 1; member_source 21 2]
              (demo_synthesis "fresh")
              unanalysed_first_state
              (fun _ => eq_refl) (fun _ => eq_refl) eq_refl eq_refl eq_refl)
    as [row [H1 [_ [_ [H2 _]]]]].
  exists row. split; [exact H1 | exact H2].
Defined.

(** * One member is enough to generate *)

Lemma collection_generate_POST_single_member w session cid org c link s :
  (forall n, db_fault w OpSelect n = None) ->
  session_user session <> None ->
  session_organization session = Some org ->
  Routes.visible_collection session cid s = [(c, [link])] ->
  Routes.collection_generate_POST w session cid s =
  match CollectionOrchestrator.processCollectionToLesson w cid org (tick (tick s)) with
  | (Ok result, s') =>
      (Ok {| http_status := 200; http_body := LessonBody (fst result) (snd result) |}, s')
  | (Err e, s') =>
      (Ok {| http_status := 500;
             http_body := ErrorBody "Generation failed"
                                    (Some match e with
                                          | JsError msg => msg
                                          | PgError _ => "Unknown"
                                          end) |}, s')
  end.
Proof.
  intros Hreads Huser Ho Hcol.
  unfold Routes.collection_generate_POST, Routes.failing, try_catch, Routes.respond.
  destruct (session_user session) as [user|]; [|now elim Huser].
  erewrite bind_Ok.
  2:{ unfold Routes.orgMembership, bind, single, ret. rewrite Hreads, Ho. reflexivity. }
  cbn [data]. erewrite bind_Ok.
  2:{ unfold single. rewrite Hreads.
      change (Routes.visible_collection session cid (tick s))
        with (Routes.visible_collection session cid s).
      rewrite Hcol. reflexivity. }
  cbn [data List.length Nat.eqb]. unfold bind, ret.
  destruct (CollectionOrchestrator.processCollectionToLesson w cid org (tick (tick s)))
    as [[result|e] s1]; reflexivity.
Qed.

(** For a collection of which the caller sees one member, when the store
    serves the reads: the analyze handler turns the request down, asking
    for two sources, and changes nothing, while the generate handler hands
    the collection to processCollectionToLesson for the organization of the
    caller, which synthesises across its sources if no synthesis is stored.
    Its answer is that of the pipeline: 200 with the course id and the
    lesson that the pipeline returns, or 500 with the message of the error
    that the pipeline throws, and the store is left as the pipeline leaves
    it. *)
Theorem generate_accepts_what_analyze_refuses w session cid org c link s :
  (forall n, db_fault w OpSelect n = None) ->
  session_user session <> None ->
  session_organization session = Some org ->
  Routes.visible_collection session cid s = [(c, [link])] ->
  Routes.collection_analyze_POST w session cid s
  = (Ok {| http_status := 400;
           http_body :=
             ErrorBody "Collection needs at least 2 sources for cross-source analysis"
                       None |},
     tick s) /\
  Routes.collection_generate_POST w session cid s =
  match CollectionOrchestrator.processCollectionToLesson w cid org (tick (tick s)) with
  | (Ok result, s') =>
      (Ok {| http_status := 200; http_body := LessonBody (fst result) (snd result) |}, s')
  | (Err e, s') =>
      (Ok {| http_status := 500;
             http_body := ErrorBody "Generation failed"
                                    (Some match e with
                                          | JsError msg => msg
                                          | PgError _ => "Unknown"
                                          end) |}, s')
  end.
Proof.
  intros Hreads Huser Horg Hcol.
  split; [|now apply collection_generate_POST_single_member with (c := c) (link := link)].
  unfold Routes.collection_analyze_POST, Routes.failing, try_catch, Routes.respond.
  destruct (session_user session) as [user|]; [|now elim Huser].
  erewrite bind_Ok; [|unfold single; rewrite Hreads, Hcol; reflexivity].
  reflexivity.
Qed.

Lemma generate_accepts_what_analyze_refuses_witness :
  fst (Routes.collection_analyze_POST (quiet_world (demo_lesson [20])) (member_session 1 3) 10
         single_member_state)
  = Ok {| http_status := 400;
          http_body :=
            ErrorBody "Collection needs at least 2 sources for cross-source analysis"
                      None |} /\
  http_status
    match fst (Routes.collection_generate_POST (quiet_world (demo_lesson [20]))
                 (member_session 1 3) 10 single_member_state) with
    | Ok resp => resp
    | Err _ => {| http_status := 0; http_body := ErrorBody "" None |}
    end = 200.
Proof.
  destruct (@generate_accepts_what_analyze_refuses
              (quiet_world (demo_lesson [20])) (member_session 1 3) 10 3
              demo_collection
              {| cs_id := 22; cs_collection_id := 10; cs_source_id := 20;
                 cs_order_index := 0%Z |}
              single_member_state
              (fun _ => eq_refl)
              ltac:(discriminate) eq_refl eq_refl) as [Hanalyze Hgenerate].
  split; [exact (f_equal fst Hanalyze)|].
  rewrite Hgenerate. vm_compute. reflexivity.
Defined.

(** * Every source is analysed once *)

#[local] Instance keeps_analyses_relation : StepRelation keeps_analyses.
Proof.
  constructor; unfold keeps_analyses; simpl.
  - intro s. split; [reflexivity | lia].
  - intros s1 s2 s3 [H1 L1] [H2 L2]. split; [congruence | lia].
  - intros s s' H. exact H.
  - intros s s' [H L]. split; [exact H | lia].
  - intros s s' f H. exact H.
Qed.

Ltac keep := unfold keeps_analyses; simpl; split; [reflexivity | lia].

Lemma keeps_analysed_once s s' : keeps_analyses s s' -> analysed_once s -> analysed_once s'.
Proof.
  intros [Ha Hn] [Hone Hb]. unfold analysed_once, analyses_of in *. rewrite Ha.
  split; [exact Hone|]. intros a Hin. specialize (Hb a Hin). lia.
Qed.

Lemma keeps_awaits_analysis sid s s' :
  keeps_analyses s s' -> awaits_analysis sid s -> awaits_analysis sid s'.
Proof.
  intros HR [Hinv [Hnone Hlt]]. split; [exact (keeps_analysed_once HR Hinv)|].
  destruct HR as [Ha Hn]. unfold analyses_of in *. rewrite Ha. split; [exact Hnone | lia].
Qed.

(** The id that the store gives out next carries no analysis. *)
Lemma fresh_awaits_analysis s s' :
  analysed_once s ->
  source_analyses s' = source_analyses s ->
  next_id s < next_id s' ->
  awaits_analysis (next_id s) s'.
Proof.
  intros Hinv Ha Hn. split; [|split; [|exact Hn]].
  - apply (@keeps_analysed_once s s'); [split; [exact Ha | lia] | exact Hinv].
  - destruct Hinv as [_ Hb]. unfold analyses_of. rewrite Ha.
    destruct (filter (fun a => Nat.eqb (an_source_id a) (next_id s)) (source_analyses s))
      as [|a l] eqn:Hf; [reflexivity|].
    assert (Hin : In a (filter (fun a => Nat.eqb (an_source_id a) (next_id s))
                               (source_analyses s))) by (rewrite Hf; now left).
    apply filter_In in Hin. destruct Hin as [Hin Heq]. apply Nat.eqb_eq in Heq.
    specialize (Hb a Hin). lia.
Qed.

Section AnalysedOnce.
Variable w : World.

Lemma insert_analysis_once sid (row : uuid -> timestamp -> AnalysisRow) :
  (forall id now, an_source_id (row id now) = sid) ->
  hoare (awaits_analysis sid) (insert w add_analysis row) (fun _ => analysed_once).
Proof.
  intros Hrow s [[Hone Hb] [Hnone Hlt]]. unfold insert.
  destruct (db_fault w OpInsert (clock s)); simpl.
  - split; assumption.
  - unfold analysed_once, analyses_of in *. simpl. split.
    + intro sid'. rewrite filter_app, length_app. simpl. rewrite Hrow.
      destruct (Nat.eqb sid sid') eqn:E.
      * apply Nat.eqb_eq in E. subst sid'. rewrite Hnone. simpl. lia.
      * simpl. specialize (Hone sid'). lia.
    + intros a Hin. apply in_app_or in Hin. destruct Hin as [Hin|[<-|[]]].
      * specialize (Hb a Hin). lia.
      * rewrite Hrow. lia.
Qed.

Lemma updateSourceStatus_keeps sid st :
  preserves keeps_analyses (PipelineOrchestrator.updateSourceStatus w sid st).
Proof. unfold PipelineOrchestrator.updateSourceStatus. preserve; keep. Qed.

Lemma single_saveLesson_keeps lesson sid org :
  preserves keeps_analyses (PipelineOrchestrator.saveLesson w lesson sid org).
Proof.
  unfold PipelineOrchestrator.saveLesson, PipelineOrchestrator.saveModule,
    PipelineOrchestrator.saveObjective, PipelineOrchestrator.saveActivity.
  preserve; keep.
Qed.

Lemma createSource_awaits_analysis url ty org :
  hoare analysed_once (PipelineOrchestrator.createSource w url ty org)
        (fun r s1 => match r with
                     | Ok source => awaits_analysis (src_id source) s1
                     | Err _ => analysed_once s1
                     end).
Proof.
  intros s Hinv. destruct (createSource_run w url ty org s) as [title [Hrun _]]. rewrite Hrun.
  destruct (db_fault w OpInsert (clock s)); simpl.
  - exact Hinv.
  - apply fresh_awaits_analysis; [exact Hinv | reflexivity | simpl; lia].
Qed.

Section SingleSource.
Variable ai : LessonServices.
Hypothesis ai_external : external_services ai.

Lemma pipelineSteps_analyse_once source url ty org buf name :
  hoare (awaits_analysis (src_id source))
        (PipelineOrchestrator.pipelineSteps w ai source url ty org buf name)
        (fun _ => analysed_once).
Proof.
  assert (Hwait : forall A (m : M A),
             preserves keeps_analyses m ->
             hoare (awaits_analysis (src_id source)) m
                   (fun _ => awaits_analysis (src_id source))).
  { intros A m Hm. eapply hoare_preserves; [exact Hm|].
    intros s s' HR. apply keeps_awaits_analysis, HR. }
  unfold PipelineOrchestrator.pipelineSteps.
  eapply hoare_bind; [apply Hwait, updateSourceStatus_keeps | | intros e s H; apply H].
  intros ?.
  eapply hoare_bind;
    [apply Hwait, external_preserves; [exact _ | apply analyzeSource_external, ai_external]
    | | intros e s H; apply H].
  intros analysis.
  eapply hoare_bind with (Qm := fun _ => analysed_once); [| | intros e s H; exact H].
  { unfold PipelineOrchestrator.saveAnalysis.
    eapply hoare_bind with (Qm := fun _ => analysed_once);
      [apply insert_analysis_once; reflexivity | | intros e s H; exact H].
    intros r s H. destruct (error r); exact H. }
  intros ?.
  eapply hoare_preserves with (R := keeps_analyses);
    [|intros s s' HR; apply keeps_analysed_once, HR].
  apply preserves_bind; [unfold PipelineOrchestrator.getSourceTitle; preserve|].
  intro title.
  apply preserves_bind; [apply external_preserves; [exact _ | apply ai_external]|].
  intro lesson. apply preserves_bind; [apply single_saveLesson_keeps|].
  intro courseId. apply preserves_bind.
  { apply preserves_try_catch; [|intro; apply preserves_ret].
    apply preserves_bind; [|intro; apply preserves_ret].
    apply createNotebookForCourse_preserves; [exact _|]. intros; keep. }
  intros ?. apply preserves_bind; [apply updateSourceStatus_keeps | intro; apply preserves_ret].
Qed.

Lemma processSourceToLesson_analyses_once url ty org buf name :
  hoare analysed_once
        (PipelineOrchestrator.processSourceToLesson w ai url ty org buf name)
        (fun _ => analysed_once).
Proof.
  unfold PipelineOrchestrator.processSourceToLesson.
  eapply hoare_bind; [apply createSource_awaits_analysis | | intros e s H; exact H].
  intro source.
  eapply hoare_try_catch with (Qm := fun _ => analysed_once);
    [apply pipelineSteps_analyse_once | intros a s H; exact H |].
  intro e. eapply hoare_preserves with (R := keeps_analyses);
    [|intros s s' HR; apply keeps_analysed_once, HR].
  apply preserves_bind; [apply updateSourceStatus_keeps | intro; apply preserves_throw].
Qed.
End SingleSource.

Lemma saveSourceAnalysis_once sid analysis_type analysis :
  hoare (awaits_analysis sid)
        (CollectionOrchestrator.saveSourceAnalysis w sid analysis_type analysis)
        (fun _ => analysed_once).
Proof.
  unfold CollectionOrchestrator.saveSourceAnalysis.
  eapply hoare_bind with (Qm := fun _ => analysed_once);
    [apply insert_analysis_once; reflexivity | | intros e s H; exact H].
  intros r s H. destruct (error r); exact H.
Qed.

Lemma analyzeNewSource_analyses_once source url ty buf name :
  hoare (awaits_analysis (src_id source))
        (CollectionOrchestrator.analyzeNewSource w source url ty buf name)
        (fun _ => analysed_once).
Proof.
  assert (Hwait : forall A (m : M A),
             preserves keeps_analyses m ->
             hoare (awaits_analysis (src_id source)) m
                   (fun _ => awaits_analysis (src_id source))).
  { intros A m Hm. eapply hoare_preserves; [exact Hm|].
    intros s s' HR. apply keeps_awaits_analysis, HR. }
  assert (Hskip : forall line,
             hoare (awaits_analysis (src_id source)) (console_warn line)
                   (fun _ => analysed_once)).
  { intros line s H. apply H. }
  unfold CollectionOrchestrator.analyzeNewSource.
  destruct ty.
  - eapply hoare_bind;
      [apply Hwait, external_preserves; [exact _ | apply fetchYouTubeTranscript_external]
      | | intros e s H; apply H].
    intro transcript.
    eapply hoare_bind;
      [apply Hwait; unfold GeminiVideoService.analyzeVideo; preserve
      | | intros e s H; apply H].
    intro videoAnalysis.
    eapply hoare_bind; [apply Hwait; preserve; keep | | intros e s H; apply H].
    intros ?. apply saveSourceAnalysis_once.
  - destruct buf as [b|]; [|apply Hskip]. destruct name as [n|]; [|apply Hskip].
    destruct (falsy (Some n)); [apply Hskip|].
    eapply hoare_bind;
      [apply Hwait; unfold GeminiDocumentService.analyzeDocument; preserve
      | | intros e s H; apply H].
    intro docAnalysis. apply saveSourceAnalysis_once.
  - destruct buf as [b|]; [|apply Hskip]. destruct name as [n|]; [|apply Hskip].
    destruct (falsy (Some n)); [apply Hskip|].
    eapply hoare_bind;
      [apply Hwait; unfold GeminiDocumentService.analyzeDocument; preserve
      | | intros e s H; apply H].
    intro docAnalysis. apply saveSourceAnalysis_once.
Qed.

Lemma addSourceToCollection_analyses_once cid url ty buf name :
  hoare analysed_once
        (CollectionOrchestrator.addSourceToCollection w cid url ty buf name)
        (fun _ => analysed_once).
Proof.
  assert (Hkeep : forall A (m : M A),
             preserves keeps_analyses m ->
             hoare analysed_once m (fun _ => analysed_once)).
  { intros A m Hm. eapply hoare_preserves; [exact Hm|].
    intros s s' HR. apply keeps_analysed_once, HR. }
  unfold CollectionOrchestrator.addSourceToCollection.
  eapply hoare_try_catch with (Qm := fun _ => analysed_once);
    [| intros a s H; exact H | intros e s H; exact H].
  eapply hoare_bind;
    [apply Hkeep; unfold CollectionOrchestrator.getCollectionOrgId; preserve
    | | intros e s H; exact H].
  intro orgId.
  eapply hoare_bind;
    [apply Hkeep; unfold YouTubeService.getMetadata; preserve | | intros e s H; exact H].
  intro title.
  eapply hoare_bind with
    (Qm := fun r s1 =>
             match r with
             | Ok resp =>
                 match error resp, data resp with
                 | None, Some source => awaits_analysis (src_id source) s1
                 | _, _ => analysed_once s1
                 end
             | Err _ => analysed_once s1
             end);
    [| | intros e s H; exact H].
  { intros s Hinv. destruct orgId as [org|]; unfold insert, refused;
      [destruct (db_fault w OpInsert (clock s)) |]; simpl; try exact Hinv.
    apply fresh_awaits_analysis; [exact Hinv | reflexivity | simpl; lia]. }
  intro r. destruct (error r) as [msg|]; [intros s H; exact H|].
  destruct (data r) as [source|]; [|intros s H; exact H].
  eapply hoare_bind with (Qm := fun _ => analysed_once);
    [apply analyzeNewSource_analyses_once | | intros e s H; exact H].
  intros ?. apply Hkeep.
  apply preserves_bind;
    [unfold CollectionOrchestrator.getMaxOrderIndex; preserve|].
  intro maxOrder. apply preserves_bind; [apply preserves_insert; intros; keep|].
  intro r'. destruct (error r'); [apply preserves_throw|].
  preserve; keep.
Qed.
End AnalysedOnce.

(** The pipelines analyse a source in the call that creates it and never
    again: when no source of the store has more than one analysis row and
    every analysis row is of a source whose id the store has given out,
    the same holds after a single-source run, after addSourceToCollection,
    after analyzeCollection and after processCollectionToLesson, whatever
    their outcome; so every list of members meets the condition under which
    the synthesis input is described. *)
Theorem pipelines_analyse_a_source_once w s :
  analysed_once s ->
  (forall ai url ty org buf name,
      external_services ai ->
      analysed_once
        (snd (PipelineOrchestrator.processSourceToLesson w ai url ty org buf name s))) /\
  (forall cid url ty buf name,
      analysed_once
        (snd (CollectionOrchestrator.addSourceToCollection w cid url ty buf name s))) /\
  (forall cid, analysed_once (snd (CollectionAnalyzer.analyzeCollection w cid s))) /\
  (forall cid org,
      analysed_once (snd (CollectionOrchestrator.processCollectionToLesson w cid org s))) /\
  (forall members, analysed_at_most_once s members).
Proof.
  intro Hinv. split; [|split; [|split; [|split]]].
  - intros ai url ty org buf name Hai.
    exact (@processSourceToLesson_analyses_once w ai Hai url ty org buf name s Hinv).
  - intros cid url ty buf name.
    exact (@addSourceToCollection_analyses_once w cid url ty buf name s Hinv).
  - intro cid. apply (@keeps_analysed_once s); [|exact Hinv].
    apply analyzeCollection_preserves; [exact _ | intros; keep | intros; keep].
  - intros cid org. apply (@keeps_analysed_once s); [|exact Hinv].
    apply processCollectionToLesson_preserves; try exact _; intros; keep.
  - intros members m _. apply Hinv.
Qed.

(** From the empty store: a video is analysed by a single-source run, and
    a second video is added to a collection; each has one analysis. *)
Lemma pipelines_analyse_a_source_once_witness :
  analysed_once
    (snd (PipelineOrchestrator.processSourceToLesson
            (quiet_world (demo_lesson []))
            (OpenRouterService.services (quiet_world (demo_lesson [])))
            "https://youtu.be/dQw4w9WgXcQ" youtube 3 None None emptyState)) /\
  analysed_once
    (snd (CollectionOrchestrator.addSourceToCollection (quiet_world empty_lesson) 10
            "https://youtu.be/dQw4w9WgXcQ" youtube None None gapped_state)).
Proof.
  assert (Hempty : analysed_once emptyState)
    by (split; [intro sid; simpl; lia | intros a []]).
  assert (Hgapped : analysed_once gapped_state).
  { split.
    - intro sid. unfold analyses_of. cbn -[Nat.eqb].
      destruct (Nat.eqb 20 sid) eqn:E1; destruct (Nat.eqb 21 sid) eqn:E2;
        cbn -[Nat.eqb]; try lia.
      apply Nat.eqb_eq in E1. apply Nat.eqb_eq in E2. lia.
    - intros a [<-|[<-|[]]]; simpl; lia. }
  split.
  - exact (proj1 (@pipelines_analyse_a_source_once (quiet_world (demo_lesson []))
                    emptyState Hempty)
                 (OpenRouterService.services (quiet_world (demo_lesson [])))
                 "https://youtu.be/dQw4w9WgXcQ" youtube 3 None None
                 (openrouter_external (quiet_world (demo_lesson [])))).
  - exact (proj1 (proj2 (@pipelines_analyse_a_source_once (quiet_world empty_lesson)
                           gapped_state Hgapped))
                 10 "https://youtu.be/dQw4w9WgXcQ" youtube None None).
Defined.

